(** * ts-pilot: the type generator, the diagnostic rules and the MCP dispatch loop

    A shallow embedding of [src/type-generator.ts] (class [TypeGenerator]),
    [src/framework-patterns.ts] (class [FrameworkPatterns]) and [src/index.ts]
    (class [TSPilotMCP] and the [rl.on('line')] handler), followed by the
    properties of the specification that concern them.

    Conventions of the embedding.
    - A JavaScript string is a Rocq [string] holding its UTF-8 bytes; the
      strings are assumed well formed (no lone surrogate).  Every literal the
      program searches for is ASCII, so [includes] and the regular expressions
      below give on the bytes the answer the program computes on UTF-16 code
      units.
    - Whatever the program receives comes out of [JSON.parse]; the values are
      therefore the JSON values, with [undefined] for an absent property.
    - An exception is a result [Throw e]; [try]/[catch] is [try_catch].
    - What the JavaScript engine supplies and the repository does not define
      ([JSON.parse], [Number::toString], [new URL], the text of a [TypeError],
      the room on the call stack) is a field of the class [Runtime]; every
      theorem holds for every runtime.
    - The call stack is finite.  The three recursions that follow the nesting
      of a value ([inferType] through objects, [Array.prototype.join] through
      arrays, [JSON.stringify] through both) take the number of nested calls
      the stack has room for, and raise the [RangeError] of the engine when
      it is used up. *)

From Stdlib Require Import String Ascii List ZArith Bool Floats Lia DecimalString.
Import ListNotations.
Open Scope list_scope.
Open Scope string_scope.

(** ** JavaScript strings *)

Module JsString.

Definition nl : string := String (ascii_of_nat 10) EmptyString.
Definition dq : string := String (ascii_of_nat 34) EmptyString.

(** [String.prototype.startsWith], returning what follows the prefix. *)
Fixpoint strip_prefix (p s : string) : option string :=
  match p, s with
  | EmptyString, _ => Some s
  | String a p', String b s' => if Ascii.eqb a b then strip_prefix p' s' else None
  | String _ _, EmptyString => None
  end.

Definition startsWith (s p : string) : bool :=
  match strip_prefix p s with Some _ => true | None => false end.

(** [String.prototype.includes]: [pat] occurs somewhere in [s]. *)
Fixpoint includes (s pat : string) : bool :=
  startsWith s pat ||
  match s with
  | EmptyString => false
  | String _ s' => includes s' pat
  end.

(** [Array.prototype.join] on strings. *)
Definition join (sep : string) (l : list string) : string := String.concat sep l.

(** The decimal digits of a non-negative integer, as a template literal
    renders a list index. *)
Definition decimal (n : nat) : string := NilEmpty.string_of_uint (Nat.to_uint n).

(** The longest prefix of [s] whose bytes satisfy [p], and the rest. *)
Fixpoint span (p : ascii -> bool) (s : string) : string * string :=
  match s with
  | EmptyString => (EmptyString, EmptyString)
  | String c s' =>
      if p c then let (run, rest) := span p s' in (String c run, rest)
      else (EmptyString, s)
  end.

(** Every byte of [s] satisfies [p]. *)
Fixpoint all_bytes (p : ascii -> bool) (s : string) : bool :=
  match s with
  | EmptyString => true
  | String c s' => p c && all_bytes p s'
  end.

(** [String.prototype.toUpperCase] on one ASCII byte. *)
Definition upper (c : ascii) : ascii :=
  let n := nat_of_ascii c in
  if (97 <=? n)%nat && (n <=? 122)%nat then ascii_of_nat (n - 32) else c.

(** [s.charAt(0).toUpperCase() + s.slice(1)] for a string that starts with an
    ASCII character. *)
Definition capitalize (s : string) : string :=
  match s with
  | EmptyString => EmptyString
  | String c s' => String (upper c) s'
  end.

End JsString.
Export JsString.

(** ** Regular expressions

    The program only uses regular expressions through [RegExp.prototype.test]
    and, for two patterns with capture groups, [String.prototype.match].
    [test] is decided with Brzozowski derivatives over the bytes. *)

Module Regex.

Inductive regex : Type :=
| Void
| Eps
| Cls (p : ascii -> bool)
| Cat (r s : regex)
| Alt (r s : regex)
| And (r s : regex)
| Neg (r : regex)
| Star (r : regex).

Fixpoint nullable (r : regex) : bool :=
  match r with
  | Void => false
  | Eps => true
  | Cls _ => false
  | Cat r s => nullable r && nullable s
  | Alt r s => nullable r || nullable s
  | And r s => nullable r && nullable s
  | Neg r => negb (nullable r)
  | Star _ => true
  end.

Definition cat (r s : regex) : regex :=
  match r, s with
  | Void, _ => Void
  | _, Void => Void
  | Eps, _ => s
  | _, _ => Cat r s
  end.

Definition alt (r s : regex) : regex :=
  match r, s with
  | Void, _ => s
  | _, Void => r
  | _, _ => Alt r s
  end.

Fixpoint deriv (c : ascii) (r : regex) : regex :=
  match r with
  | Void => Void
  | Eps => Void
  | Cls p => if p c then Eps else Void
  | Cat r s => alt (cat (deriv c r) s) (if nullable r then deriv c s else Void)
  | Alt r s => alt (deriv c r) (deriv c s)
  | And r s => And (deriv c r) (deriv c s)
  | Neg r => Neg (deriv c r)
  | Star r => cat (deriv c r) (Star r)
  end.

(** The whole of [s] is a word of [r]: the pattern [^r$]. *)
Fixpoint matches (r : regex) (s : string) : bool :=
  match s with
  | EmptyString => nullable r
  | String c s' => matches (deriv c r) s'
  end.

Definition any : regex := Cls (fun _ => true).

(** [/r/.test(s)]: some substring of [s] is a word of [r]. *)
Definition test (r : regex) (s : string) : bool :=
  matches (Cat (Star any) (Cat r (Star any))) s.

Definition chr (c : ascii) : regex := Cls (Ascii.eqb c).

Fixpoint lit (s : string) : regex :=
  match s with
  | EmptyString => Eps
  | String c s' => Cat (chr c) (lit s')
  end.

Definition plus (r : regex) : regex := Cat r (Star r).

Fixpoint rep (n : nat) (r : regex) : regex :=
  match n with
  | O => Eps
  | S n' => Cat r (rep n' r)
  end.

Fixpoint alts (l : list regex) : regex :=
  match l with
  | [] => Void
  | r :: l' => Alt r (alts l')
  end.

Definition byte_in (lo hi : nat) (c : ascii) : bool :=
  let n := nat_of_ascii c in (lo <=? n)%nat && (n <=? hi)%nat.

Definition bytes (l : list nat) : regex :=
  fold_right (fun n r => Cat (chr (ascii_of_nat n)) r) Eps l.

(** One character, as its UTF-8 encoding. *)
Definition char8 : regex :=
  alts [ Cls (byte_in 0 127);
         Cat (Cls (byte_in 192 223)) (Cls (byte_in 128 191));
         Cat (Cls (byte_in 224 239)) (rep 2 (Cls (byte_in 128 191)));
         Cat (Cls (byte_in 240 247)) (rep 3 (Cls (byte_in 128 191))) ].

(** One character that is no word of [r]: a negated class. *)
Definition char_not (r : regex) : regex := And char8 (Neg r).

(** [\w]: ASCII letters, digits and the underscore. *)
Definition is_word (c : ascii) : bool :=
  byte_in 97 122 c || byte_in 65 90 c || byte_in 48 57 c || Ascii.eqb c "_".
Definition word : regex := Cls is_word.

(** [\s]: the ECMAScript white space and line terminators: TAB, LF, VT, FF,
    CR, SP, U+00A0, U+1680, U+2000 to U+200A, U+2028, U+2029, U+202F, U+205F,
    U+3000 and U+FEFF. *)
Definition space : regex :=
  alts [ Cls (byte_in 9 13); chr " ";
         bytes [194; 160];
         bytes [225; 154; 128];
         Cat (bytes [226; 128]) (Cls (byte_in 128 138));
         bytes [226; 128; 168]; bytes [226; 128; 169]; bytes [226; 128; 175];
         bytes [226; 129; 159];
         bytes [227; 128; 128];
         bytes [239; 187; 191] ].

(** [.]: any character but the line terminators LF, CR, U+2028 and U+2029. *)
Definition dot : regex :=
  char_not (alts [ chr (ascii_of_nat 10); chr (ascii_of_nat 13);
                   bytes [226; 128; 168]; bytes [226; 128; 169] ]).

Definition seq (l : list regex) : regex := fold_right Cat Eps l.

(** The words of a regular expression: what [matches] is to decide. *)
Inductive star (L : string -> Prop) : string -> Prop :=
| star_nil : star L EmptyString
| star_app (s1 s2 : string) : L s1 -> star L s2 -> star L (s1 ++ s2).

Fixpoint lang (r : regex) (w : string) : Prop :=
  match r with
  | Void => False
  | Eps => w = EmptyString
  | Cls p => exists c, w = String c EmptyString /\ p c = true
  | Cat r s => exists u v, w = u ++ v /\ lang r u /\ lang s v
  | Alt r s => lang r w \/ lang s w
  | And r s => lang r w /\ lang s w
  | Neg r => ~ lang r w
  | Star r => star (lang r) w
  end.

End Regex.

(** ** JavaScript values, exceptions and the runtime *)

Module Js.

(** The values [JSON.parse] produces, and [undefined].  [VObj] lists the own
    properties of an object in the order [Object.entries] enumerates them. *)
Unset Elimination Schemes.
Inductive value : Type :=
| VUndefined
| VNull
| VBool (b : bool)
| VNum (n : float)
| VStr (s : string)
| VArr (items : list value)
| VObj (props : list (string * value)).
Set Elimination Schemes.

(** Induction on values, with the elements of an array and the property values
    of an object as premises. *)
Section ValueInd.
Variable P : value -> Prop.
Hypothesis Hundefined : P VUndefined.
Hypothesis Hnull : P VNull.
Hypothesis Hbool : forall b, P (VBool b).
Hypothesis Hnum : forall n, P (VNum n).
Hypothesis Hstr : forall s, P (VStr s).
Hypothesis Harr : forall items, Forall P items -> P (VArr items).
Hypothesis Hobj : forall props, Forall (fun kv => P (snd kv)) props -> P (VObj props).

Fixpoint value_ind (v : value) : P v :=
  match v with
  | VUndefined => Hundefined
  | VNull => Hnull
  | VBool b => Hbool b
  | VNum n => Hnum n
  | VStr s => Hstr s
  | VArr items =>
      Harr items
        ((fix all (l : list value) : Forall P l :=
            match l with
            | [] => Forall_nil P
            | x :: l' => Forall_cons x (value_ind x) (all l')
            end) items)
  | VObj props =>
      Hobj props
        ((fix all (l : list (string * value)) : Forall (fun kv => P (snd kv)) l :=
            match l with
            | [] => Forall_nil _
            | kv :: l' => Forall_cons kv (value_ind (snd kv)) (all l')
            end) props)
  end.
End ValueInd.

(** What a [throw] carries: an [Error] object (of any subclass) with its
    [message], or any other value. *)
Inductive thrown : Type :=
| JsError (message : string)
| JsValue (v : value).

Inductive Result (A : Type) : Type :=
| Ok (a : A)
| Throw (e : thrown).
Arguments Ok {A} a.
Arguments Throw {A} e.

Definition bind {A B : Type} (c : Result A) (k : A -> Result B) : Result B :=
  match c with
  | Ok a => k a
  | Throw e => Throw e
  end.

(** [arr.map(x => f(x))] with a callback that may raise: the elements are
    visited in order and the first exception ends the loop. *)
Fixpoint mapM {A B : Type} (f : A -> Result B) (l : list A) : Result (list B) :=
  match l with
  | [] => Ok []
  | x :: l' =>
      bind (f x) (fun y => bind (mapM f l') (fun ys => Ok (y :: ys)))
  end.

(** [try { body } catch (error) { handler }] *)
Definition try_catch {A : Type} (body : Result A) (handler : thrown -> Result A) : Result A :=
  match body with
  | Ok a => Ok a
  | Throw e => handler e
  end.

(** [error instanceof Error ? error.message : otherwise] *)
Definition message_or (error : thrown) (otherwise : string) : string :=
  match error with
  | JsError message => message
  | JsValue _ => otherwise
  end.

(** The results of the [typeof] operator. *)
Inductive jstype : Type :=
| TUndefined | TObject | TBoolean | TNumber | TString | TBigint | TSymbol | TFunction.

Definition typeof (v : value) : jstype :=
  match v with
  | VUndefined => TUndefined
  | VNull => TObject
  | VBool _ => TBoolean
  | VNum _ => TNumber
  | VStr _ => TString
  | VArr _ => TObject
  | VObj _ => TObject
  end.

Definition is_undefined (v : value) : bool :=
  match v with VUndefined => true | _ => false end.

(** [v === null || v === undefined] *)
Definition nullish (v : value) : bool :=
  match v with VUndefined | VNull => true | _ => false end.

(** [v === 'literal'] *)
Definition is_string (v : value) (literal : string) : bool :=
  match v with VStr s => String.eqb s literal | _ => false end.

(** [v !== false] *)
Definition is_not_false (v : value) : bool :=
  match v with VBool false => false | _ => true end.

(** ToBoolean. *)
Definition truthy (v : value) : bool :=
  match v with
  | VUndefined | VNull => false
  | VBool b => b
  | VNum n => negb (PrimFloat.eqb n 0%float || PrimFloat.is_nan n)
  | VStr s => negb (String.eqb s EmptyString)
  | VArr _ | VObj _ => true
  end.

(** [a || b] *)
Definition or_else (a b : value) : value := if truthy a then a else b.

(** [Number.isInteger] *)
Definition Number_isInteger (n : float) : bool :=
  match Prim2SF n with
  | S754_zero _ => true
  | S754_finite _ m e =>
      (0 <=? e)%Z || (Z.land (Z.pos m) (Z.ones (- e)) =? 0)%Z
  | S754_infinity _ | S754_nan => false
  end.

Fixpoint lookup (key : string) (props : list (string * value)) : value :=
  match props with
  | [] => VUndefined
  | (k, v) :: rest => if String.eqb k key then v else lookup key rest
  end.

(** [v.key] on a value that is neither [null] nor [undefined], for the
    property names the program reads ([id], [method], [params], [name],
    [arguments], [data], [strict], [readonly], [error], [code], [framework]):
    an own property of an object, [undefined] on anything else. *)
Definition get (v : value) (key : string) : value :=
  match v with
  | VObj props => lookup key props
  | _ => VUndefined
  end.

(** [Object.entries] of an object. *)
Definition Object_entries (v : value) : list (string * value) :=
  match v with
  | VObj props => props
  | _ => []
  end.

(** [Object.prototype.hasOwnProperty] on the properties of an object. *)
Definition has_own (key : string) (props : list (string * value)) : bool :=
  existsb (fun kv => String.eqb (fst kv) key) props.

(** Where the engine raises a [TypeError] of its own. *)
Inductive fault : Type :=
| DestructureNullish (v : value)
| PropertyOfNullish (v : value) (key : string)
| NotAFunction (key : string)
| NotPrimitive (v : value).

(** The recursions that follow the nesting of a value. *)
Inductive recursion : Type :=
| Joining
| Inferring
| Serializing.

(** What the JavaScript engine provides. *)
Class Runtime : Type := {
  (** [JSON.parse(text)]: the value, or the [SyntaxError] it throws. *)
  JSON_parse : string -> Result value;
  (** [Number::toString]. *)
  Number_toString : float -> string;
  (** [new URL(text)] does not throw. *)
  URL_parses : string -> bool;
  (** The [message] of the [TypeError] raised at a fault. *)
  TypeError_message : fault -> string;
  (** The number of nested calls the call stack has room for, in each of the
      recursions. *)
  stack_room : recursion -> nat;
  (** The [message] of the [RangeError] raised when the call stack is used up. *)
  RangeError_message : string
}.

Definition TypeError {rt : Runtime} (f : fault) : thrown := JsError (TypeError_message f).

Definition StackOverflow {rt : Runtime} : thrown := JsError RangeError_message.

(** [const { ... } = v] *)
Definition destructure {rt : Runtime} (v : value) : Result unit :=
  match v with
  | VUndefined | VNull => Throw (TypeError (DestructureNullish v))
  | _ => Ok tt
  end.

(** [v.key], on any value. *)
Definition prop {rt : Runtime} (v : value) (key : string) : Result value :=
  match v with
  | VUndefined | VNull => Throw (TypeError (PropertyOfNullish v key))
  | _ => Ok (get v key)
  end.

(** ToString, as a template literal and [RegExp.prototype.test] apply it.
    An object is converted by its [toString] method, then by [valueOf].  The
    values of [JSON.parse] hold no function: an object with an own property
    [toString] has no method to call, [Object.prototype.valueOf] returns the
    object itself, and the conversion raises a [TypeError]; any other object
    inherits [Object.prototype.toString].  An array is converted by
    [Array.prototype.join], which converts its elements in turn. *)
Fixpoint ToString_at {rt : Runtime} (room : nat) (v : value) {struct v} : Result string :=
  match v with
  | VUndefined => Ok "undefined"
  | VNull => Ok "null"
  | VBool true => Ok "true"
  | VBool false => Ok "false"
  | VNum n => Ok (Number_toString n)
  | VStr s => Ok s
  | VArr items =>
      match room with
      | O => Throw StackOverflow
      | S room' =>
          bind (mapM (fun e => match e with
                               | VUndefined | VNull => Ok EmptyString
                               | _ => ToString_at room' e
                               end) items)
               (fun parts => Ok (join "," parts))
      end
  | VObj props =>
      if has_own "toString" props then Throw (TypeError (NotPrimitive v))
      else Ok "[object Object]"
  end.

Definition ToString {rt : Runtime} (v : value) : Result string :=
  ToString_at (stack_room Joining) v.

(** A value that has an [includes] method: a string or an array. *)
Inductive receiver : Type :=
| RStr (s : string)
| RArr (items : list value).

(** The first thing each handler does with its text argument is to call
    [includes] on it, which raises unless the argument is a string or an
    array. *)
Definition as_receiver {rt : Runtime} (v : value) : Result receiver :=
  match v with
  | VStr s => Ok (RStr s)
  | VArr items => Ok (RArr items)
  | VUndefined | VNull => Throw (TypeError (PropertyOfNullish v "includes"))
  | _ => Throw (TypeError (NotAFunction "includes"))
  end.

Definition receiver_value (r : receiver) : value :=
  match r with
  | RStr s => VStr s
  | RArr items => VArr items
  end.

(** [r.includes('literal')]: a substring of a string, an element of an array. *)
Definition has (r : receiver) (literal : string) : bool :=
  match r with
  | RStr s => includes s literal
  | RArr items => existsb (fun e => is_string e literal) items
  end.

(** [/re/.test(r)], which converts its argument to a string. *)
Definition re_test {rt : Runtime} (re : Regex.regex) (r : receiver) : Result bool :=
  bind (ToString (receiver_value r)) (fun text => Ok (Regex.test re text)).

(** [r.match(/re/)], where [find] is the search of the pattern in a string:
    arrays have no [match] method. *)
Definition re_match {rt : Runtime} {C : Type} (find : string -> option C) (r : receiver)
  : Result (option C) :=
  match r with
  | RStr s => Ok (find s)
  | RArr _ => Throw (TypeError (NotAFunction "match"))
  end.

(** [arr.push(x)] on a local array. *)
Definition push {A : Type} (arr : list A) (x : A) : list A := (arr ++ [x])%list.

(** [[...new Set(l)]]: the distinct elements, in order of first occurrence. *)
Definition unseen (seen : list string) (x : string) : bool :=
  negb (existsb (String.eqb x) seen).
Definition add_unseen (seen : list string) (x : string) : list string :=
  if unseen seen x then push seen x else seen.
Definition Set_of (l : list string) : list string := fold_left add_unseen l [].

(** *** [JSON.stringify]

    A string is written between double quotes with the escapes of
    [QuoteJSONString]; a number that is not finite is written [null]; a
    property whose value is [undefined] is left out and an element that is
    [undefined] is written [null].  The values of [JSON.parse] hold no
    function, so no [toJSON] method is called. *)

Definition backslash : string := String (ascii_of_nat 92) EmptyString.

Definition hex_digit (n : nat) : string :=
  String (nth n [ "0"; "1"; "2"; "3"; "4"; "5"; "6"; "7"; "8"; "9";
                  "a"; "b"; "c"; "d"; "e"; "f" ]%char "0"%char) EmptyString.

Definition JSON_escape (c : ascii) : string :=
  let n := nat_of_ascii c in
  if (n =? 34)%nat then backslash ++ dq
  else if (n =? 92)%nat then backslash ++ backslash
  else if (n =? 8)%nat then backslash ++ "b"
  else if (n =? 12)%nat then backslash ++ "f"
  else if (n =? 10)%nat then backslash ++ "n"
  else if (n =? 13)%nat then backslash ++ "r"
  else if (n =? 9)%nat then backslash ++ "t"
  else if (n <? 32)%nat then backslash ++ "u00" ++ hex_digit (n / 16) ++ hex_digit (n mod 16)
  else String c EmptyString.

Fixpoint JSON_escaped (s : string) : string :=
  match s with
  | EmptyString => EmptyString
  | String c s' => JSON_escape c ++ JSON_escaped s'
  end.

Definition JSON_quote (s : string) : string := dq ++ JSON_escaped s ++ dq.

(** The text of an element of an array, and of a property of an object. *)
Definition JSON_element (text : option string) : string :=
  match text with
  | Some t => t
  | None => "null"
  end.

Definition JSON_member (key : string) (text : option string) : list string :=
  match text with
  | Some t => [ JSON_quote key ++ ":" ++ t ]
  | None => []
  end.

(** [JSON.stringify(v)]: the text, or [undefined]. *)
Fixpoint JSON_stringify_at {rt : Runtime} (room : nat) (v : value) {struct v}
  : Result (option string) :=
  match v with
  | VUndefined => Ok None
  | VNull => Ok (Some "null")
  | VBool true => Ok (Some "true")
  | VBool false => Ok (Some "false")
  | VNum n => Ok (Some (if PrimFloat.is_finite n then Number_toString n else "null"))
  | VStr s => Ok (Some (JSON_quote s))
  | VArr items =>
      match room with
      | O => Throw StackOverflow
      | S room' =>
          bind (mapM (fun item =>
                        bind (JSON_stringify_at room' item)
                             (fun text => Ok (JSON_element text))) items)
               (fun parts => Ok (Some ("[" ++ join "," parts ++ "]")))
      end
  | VObj props =>
      match room with
      | O => Throw StackOverflow
      | S room' =>
          bind (mapM (fun kv =>
                        bind (JSON_stringify_at room' (snd kv))
                             (fun text => Ok (JSON_member (fst kv) text))) props)
               (fun parts => Ok (Some ("{" ++ join "," (concat parts) ++ "}")))
      end
  end.

Definition JSON_stringify {rt : Runtime} (v : value) : Result (option string) :=
  JSON_stringify_at (stack_room Serializing) v.

(** [arr.map((x, i) => f(x, i))], the index starting at [i]. *)
Fixpoint mapi_from {A B : Type} (i : nat) (f : A -> nat -> B) (l : list A) : list B :=
  match l with
  | [] => []
  | x :: l' => f x i :: mapi_from (S i) f l'
  end.
Definition mapi {A B : Type} (f : A -> nat -> B) (l : list A) : list B := mapi_from 0 f l.

End Js.
Export Js.

Declare Scope js_scope.
Notation "x <- c ;; k" := (bind c (fun x => k))
  (at level 61, c at next level, right associativity) : js_scope.
Notation "c ;;; k" := (bind c (fun _ => k))
  (at level 61, right associativity) : js_scope.
Open Scope js_scope.

(** ** [src/type-generator.ts]: class [TypeGenerator] *)

Module TypeGenerator.
Import Regex.

Section WithRuntime.
Context {rt : Runtime}.

(** [TypeGenerationOptions]: every field is optional ([VUndefined] when
    absent), and holds whatever the caller passed. *)
Record TypeGenerationOptions : Type := {
  name : value;
  strict : value;
  readonly : value;
  exactOptionalPropertyTypes : value
}.

Definition reserved : list string :=
  [ "break"; "case"; "catch"; "class"; "const"; "continue"; "debugger"; "default";
    "delete"; "do"; "else"; "enum"; "export"; "extends"; "false"; "finally"; "for";
    "function"; "if"; "import"; "in"; "instanceof"; "new"; "null"; "return"; "super";
    "switch"; "this"; "throw"; "true"; "try"; "typeof"; "var"; "void"; "while"; "with";
    "as"; "implements"; "interface"; "let"; "package"; "private"; "protected";
    "public"; "static"; "yield"; "any"; "boolean"; "constructor"; "declare"; "get";
    "module"; "require"; "number"; "set"; "string"; "symbol"; "type"; "from"; "of" ].

Definition isReservedWord (word : string) : bool :=
  existsb (String.eqb word) reserved.

Definition ident_start (c : ascii) : bool :=
  byte_in 97 122 c || byte_in 65 90 c || Ascii.eqb c "_" || Ascii.eqb c "$".
Definition ident_part (c : ascii) : bool :=
  byte_in 97 122 c || byte_in 65 90 c || byte_in 48 57 c || Ascii.eqb c "_" || Ascii.eqb c "$".

(** [!/^[a-zA-Z_$][a-zA-Z0-9_$]*$/.test(key) || this.isReservedWord(key)] *)
Definition needsQuotes (key : string) : bool :=
  negb (matches (Cat (Cls ident_start) (Star (Cls ident_part))) key) || isReservedWord key.

(** [try { new URL(value); return true; } catch { return false; }] *)
Definition isURL (value : string) : bool := URL_parses value.

(** [/^[^\s@]+@[^\s@]+\.[^\s@]+$/] *)
Definition isEmail (value : string) : bool :=
  let part := plus (char_not (Alt space (chr "@"))) in
  matches (seq [part; chr "@"; part; chr "."; part]) value.

Definition is_hex (c : ascii) : bool :=
  byte_in 48 57 c || byte_in 97 102 c || byte_in 65 70 c.

(** [/^[0-9a-f]{8}-[0-9a-f]{4}-[0-9a-f]{4}-[0-9a-f]{4}-[0-9a-f]{12}$/i] *)
Definition isUUID (value : string) : bool :=
  let hex := Cls is_hex in
  matches (seq [rep 8 hex; chr "-"; rep 4 hex; chr "-"; rep 4 hex; chr "-";
                rep 4 hex; chr "-"; rep 12 hex]) value.

Definition inferPrimitiveType (value : value) : string :=
  match typeof value, value with
  | TString, VStr s =>
      if isURL s then "string"
      else if isEmail s then "string"
      else if isUUID s then "string"
      else "string"
  | TString, _ => "string"
  | TNumber, VNum n => if Number_isInteger n then "number" else "number"
  | TNumber, _ => "number"
  | TBoolean, _ => "boolean"
  | TBigint, _ => "bigint"
  | TSymbol, _ => "symbol"
  | _, _ => "unknown"
  end.

(** [this.needsQuotes(key) ? `"${key}"` : key] *)
Definition safeKey (key : string) : string :=
  if needsQuotes key then dq ++ key ++ dq else key.

(** [inferType] calls itself on the values of the properties of an object,
    and on nothing else: [room] is the number of nested objects the call
    stack has room for. *)
Fixpoint inferType_at (room : nat) (value : value) (strict : bool)
  (options : TypeGenerationOptions) {struct value} : Result string :=
  match value with
  | VNull => Ok (if strict then "null" else "null | undefined")
  | VUndefined => Ok "undefined"
  | VArr items =>
      if (length items =? 0)%nat then Ok (if strict then "never[]" else "unknown[]")
      else
        (* Check if all elements are the same type *)
        let types := Set_of (map inferPrimitiveType items) in
        if (length types =? 1)%nat then Ok (nth 0 types "undefined" ++ "[]")
        else
          (* Mixed types - create union *)
          Ok ("(" ++ join " | " types ++ ")[]")
  | VObj entries =>
      (* Anonymous object - generate inline type *)
      match room with
      | O => Throw StackOverflow
      | S room' =>
          props <- mapM (fun kv =>
                           type <- inferType_at room' (snd kv) strict options ;;
                           Ok (safeKey (fst kv) ++ ": " ++ type))
                        entries ;;
          Ok ("{ " ++ join "; " props ++ " }")
      end
  | VBool _ | VNum _ | VStr _ => Ok (inferPrimitiveType value)
  end.

Definition inferType (value : value) (strict : bool) (options : TypeGenerationOptions)
  : Result string :=
  inferType_at (stack_room Inferring) value strict options.

Definition generateInterface (name : value) (obj : value) (strict : bool)
  (options : TypeGenerationOptions) : Result string :=
  match obj with
  | VNull =>
      name <- ToString name ;;
      Ok ("type " ++ name ++ " = null;")
  | VArr items =>
      if (length items =? 0)%nat then
        name <- ToString name ;;
        Ok ("type " ++ name ++ " = unknown[];")
      else
        itemType <- inferType (nth 0 items VUndefined) strict options ;;
        name <- ToString name ;;
        Ok ("type " ++ name ++ " = " ++ itemType ++ "[];")
  | VUndefined | VBool _ | VNum _ | VStr _ =>
      (* typeof obj !== 'object' *)
      name <- ToString name ;;
      type <- inferType obj strict options ;;
      Ok ("type " ++ name ++ " = " ++ type ++ ";")
  | VObj _ =>
      properties <-
        mapM (fun kv =>
                propType <- inferType (snd kv) strict options ;;
                let readonly := if truthy (readonly options) then "readonly " else EmptyString in
                let safeKey := safeKey (fst kv) in
                Ok ("  " ++ readonly ++ safeKey ++ ": " ++ propType ++ ";"))
             (Object_entries obj) ;;
      name <- ToString name ;;
      Ok ("interface " ++ name ++ " {" ++ nl ++ join nl properties ++ nl ++ "}")
  end.

(** The handler of the [catch] of [generate]. *)
Definition invalid_data {A : Type} (error : thrown) : Result A :=
  Throw (JsError ("Invalid JSON data: " ++ message_or error "Unknown error")).

Definition generate (data : value) (options : TypeGenerationOptions) : Result string :=
  let name := or_else (name options) (VStr "Generated") in
  let strict := is_not_false (strict options) in (* Default true *)
  try_catch
    (parsed <- match data with
               | VStr text => JSON_parse text
               | _ => Ok data
               end ;;
     generateInterface name parsed strict options)
    invalid_data.

(** *** [analyzeTypeError] *)

Record DiagnosticResult : Type := {
  fixes : list string;
  explanation : string
}.

(** The leftmost place of [s] where [here] succeeds. *)
Fixpoint search {C : Type} (here : string -> option C) (s : string) : option C :=
  match here s with
  | Some c => Some c
  | None =>
      match s with
      | EmptyString => None
      | String _ s' => search here s'
      end
  end.

Definition not_quote (c : ascii) : bool := negb (Ascii.eqb c "'").

(** [([^']+)'] at the start of [s]: the group and what follows the quote.  The
    group cannot hold a quote and a quote must follow it, so it is the longest
    run of other bytes. *)
Definition quoted (s : string) : option (string * string) :=
  let (run, rest) := span not_quote s in
  if String.eqb run EmptyString then None
  else match strip_prefix "'" rest with
       | Some rest' => Some (run, rest')
       | None => None
       end.

(** [/Property '([^']+)' does not exist on type '([^']+)'/] at the start of
    [s]: the two groups. *)
Definition property_here (s : string) : option (string * string) :=
  match strip_prefix "Property '" s with
  | None => None
  | Some s1 =>
      match quoted s1 with
      | None => None
      | Some (prop, s2) =>
          match strip_prefix " does not exist on type '" s2 with
          | None => None
          | Some s3 =>
              match quoted s3 with
              | None => None
              | Some (type, _) => Some (prop, type)
              end
          end
      end
  end.

(** [error.match(/Property '([^']+)' does not exist on type '([^']+)'/)]:
    the two groups of the leftmost match. *)
Definition match_property (error : string) : option (string * string) :=
  search property_here error.

Definition property_re : regex :=
  seq [ lit "Property '"; plus (Cls not_quote); lit "' does not exist on type '";
        plus (Cls not_quote); lit "'" ].

(** [/Cannot find name '([^']+)'/] at the start of [s]: the group. *)
Definition name_here (s : string) : option string :=
  match strip_prefix "Cannot find name '" s with
  | None => None
  | Some s1 =>
      match quoted s1 with
      | None => None
      | Some (id, _) => Some id
      end
  end.

(** [error.match(/Cannot find name '([^']+)'/)]: the group of the leftmost match. *)
Definition match_name (error : string) : option string :=
  search name_here error.

Definition name_re : regex :=
  seq [ lit "Cannot find name '"; plus (Cls not_quote); lit "'" ].

(** Analyze common type errors and suggest fixes.  [error] is declared a
    string; the caller passes whatever the request holds. *)
Definition analyzeTypeError (error : receiver) : Result DiagnosticResult :=
  (* Type 'X | undefined' is not assignable to type 'X' *)
  if has error "| undefined" && has error "not assignable" then
    Ok {| fixes := [ "Add null check: if (value !== undefined) { ... }";
                     "Use non-null assertion if guaranteed: value!";
                     "Provide default value: value ?? defaultValue";
                     "Update type to accept undefined: Type | undefined" ];
          explanation := "The value may be undefined. Either guard against it, assert it's defined, provide a default, or update the type signature." |}
  (* Type 'null' is not assignable to type 'X' *)
  else if has error "null" && has error "not assignable" then
    Ok {| fixes := [ "Add null check: if (value !== null) { ... }";
                     "Use nullish coalescing: value ?? defaultValue";
                     "Update type to accept null: Type | null" ];
          explanation := "The value may be null. Handle it explicitly or update the type signature." |}
  (* Property 'X' does not exist on type 'Y' *)
  else if has error "Property" && has error "does not exist" then
    found <- re_match match_property error ;;
    match found with
    | Some (prop, type) =>
        Ok {| fixes := [ "Add property to interface: " ++ prop ++ ": Type";
                         "Use type assertion: (obj as any)." ++ prop;
                         "Optional chaining: obj?." ++ prop;
                         "Type guard: if ('" ++ prop ++ "' in obj) { ... }" ];
              explanation := "The property '" ++ prop ++ "' is not defined on type '" ++ type ++ "'. Add it to the type definition or use runtime checks." |}
    | None => Ok {| fixes := []; explanation := EmptyString |}
    end
  (* Argument of type 'X' is not assignable to parameter of type 'Y' *)
  else if has error "Argument of type" && has error "not assignable" then
    Ok {| fixes := [ "Type assertion: value as ExpectedType";
                     "Type guard to narrow type before call";
                     "Update function parameter type";
                     "Convert value to expected type" ];
          explanation := "The argument type doesn't match the parameter type. Convert the value or update type signatures." |}
  (* Type 'any' is not allowed *)
  else if has error "any" && (has error "implicitly" || has error "not allowed") then
    Ok {| fixes := [ "Add explicit type annotation";
                     "Use unknown instead of any";
                     "Define proper interface for the object" ];
          explanation := "Using " ++ dq ++ "any" ++ dq ++ " defeats TypeScript's type safety. Add explicit types or use " ++ dq ++ "unknown" ++ dq ++ " with type guards." |}
  (* Cannot find name 'X' *)
  else if has error "Cannot find name" then
    found <- re_match match_name error ;;
    Ok {| fixes := match found with
                   | Some id => [ "Import the identifier: import { " ++ id ++ " } from '...'";
                                  "Define the identifier: const " ++ id ++ " = ...";
                                  "Check for typos in the identifier name" ]
                   | None => []
                   end;
          explanation := "The identifier is not defined in the current scope. Import it or define it." |}
  (* Generic fallback *)
  else
    Ok {| fixes := [ "Review type signatures and ensure compatibility";
                     "Use type assertions if you're certain of the type";
                     "Add type guards for runtime type checking" ];
          explanation := "Type mismatch detected. Review the types involved and ensure they're compatible." |}.

End WithRuntime.
End TypeGenerator.

(** ** [src/framework-patterns.ts]: class [FrameworkPatterns] *)

Module FrameworkPatterns.

Record FrameworkPattern : Type := {
  framework : string;
  pattern : string;
  code : string;
  description : string
}.

Section WithSnippets.

(** The [code] of a pattern is a multi-line text constant of the source; it is
    taken as given, by framework and pattern title. *)
Variable snippet : string -> string -> string.

Definition entry (framework pattern description : string) : FrameworkPattern :=
  {| framework := framework; pattern := pattern;
     code := snippet framework pattern; description := description |}.

Definition getReactPatterns : list FrameworkPattern :=
  [ entry "react" "Component Props"
      "Strict prop types with union literals and proper event handlers";
    entry "react" "useState with explicit type"
      ("Explicitly typed useState hooks prevent " ++ dq ++ "any" ++ dq ++ " types");
    entry "react" "useRef with DOM elements"
      "Properly typed refs with null safety";
    entry "react" "Generic component"
      "Generic components for reusable, type-safe UI elements" ].

Definition getNextJSPatterns : list FrameworkPattern :=
  [ entry "nextjs" "Page Props (App Router)"
      "Properly typed Next.js App Router page props";
    entry "nextjs" "Server Actions"
      "Type-safe server actions with Zod validation";
    entry "nextjs" "API Route Handler"
      "Typed API route handlers with proper request/response types" ].

Definition getExpressPatterns : list FrameworkPattern :=
  [ entry "express" "Typed Request Handler"
      "Fully typed Express route handlers with generics";
    entry "express" "Custom Request Type"
      "Extend Request type for authentication and custom properties" ].

Definition getNodeJSPatterns : list FrameworkPattern :=
  [ entry "nodejs" "Async Error Handling"
      "Type-safe error handling with discriminated unions";
    entry "nodejs" "Environment Variables"
      "Validated environment variables with type safety" ].

Definition getVuePatterns : list FrameworkPattern :=
  [ entry "vue" "Component Props (Composition API)"
      "Type-safe Vue component props with PropType" ].

Definition getAngularPatterns : list FrameworkPattern :=
  [ entry "angular" "Component with Service"
      "Type-safe Angular component with RxJS observables" ].

Definition getPatterns (framework : value) : list FrameworkPattern :=
  if is_string framework "react" then getReactPatterns
  else if is_string framework "nextjs" then getNextJSPatterns
  else if is_string framework "express" then getExpressPatterns
  else if is_string framework "nodejs" then getNodeJSPatterns
  else if is_string framework "vue" then getVuePatterns
  else if is_string framework "angular" then getAngularPatterns
  else [].

End WithSnippets.
End FrameworkPatterns.

(** ** [src/index.ts]: class [TSPilotMCP] and the line handler *)

Module TSPilotMCP.
Import Regex.

(** [MCPResponse] of [src/types.ts]; an absent field is [None], an absent [id]
    is [VUndefined].  [JSON.stringify] leaves absent fields out. *)
Record MCPError : Type := {
  code : Z;
  message : string
}.

Record MCPResponse : Type := {
  jsonrpc : option string;
  id : value;
  result : option value;
  error : option MCPError
}.

(** What the line handler writes: a line on the standard output, or a report
    on the standard error. *)
Inductive output : Type :=
| Stdout (line : string)
| Stderr (label : string) (error : thrown).

(** The number [z] of an object literal. *)
Definition Number_of_Z (z : Z) : float :=
  match z with
  | Z0 => 0%float
  | Zpos p => PrimFloat.of_uint63 (Uint63.of_Z (Zpos p))
  | Zneg p => PrimFloat.opp (PrimFloat.of_uint63 (Uint63.of_Z (Zpos p)))
  end.

(** The object a response is, as [JSON.stringify] receives it: the properties
    in the order the object literal lists them. *)
Definition response_value (response : MCPResponse) : value :=
  VObj ((match jsonrpc response with
         | Some version => [ ("jsonrpc", VStr version) ]
         | None => []
         end)
        ++ [ ("id", id response) ]
        ++ (match result response with
            | Some content => [ ("result", content) ]
            | None => []
            end)
        ++ (match error response with
            | Some failed =>
                [ ("error", VObj [ ("code", VNum (Number_of_Z (code failed)));
                                   ("message", VStr (message failed)) ]) ]
            | None => []
            end))%list.

(** [console.log(text)] *)
Definition console_log (text : option string) : output :=
  Stdout (match text with
          | Some line => line
          | None => "undefined"
          end).

Section WithRuntime.
Context {rt : Runtime}.
Variable snippet : string -> string -> string.

(** [{} as MCPResponse] *)
Definition empty_response : MCPResponse :=
  {| jsonrpc := None; id := VUndefined; result := None; error := None |}.

Definition success (id : value) (result : value) : MCPResponse :=
  {| jsonrpc := Some "2.0"; id := id; result := Some result; error := None |}.

Definition failure (id : value) (code : Z) (message : string) : MCPResponse :=
  {| jsonrpc := Some "2.0"; id := id; result := None;
     error := Some {| code := code; message := message |} |}.

Definition initialize (request : value) : Result MCPResponse :=
  id <- prop request "id" ;;
  Ok (success id
        (VObj [ ("protocolVersion", VStr "2025-06-18");
                ("capabilities", VObj [ ("tools", VObj []) ]);
                ("serverInfo", VObj [ ("name", VStr "ts-pilot"); ("version", VStr "1.0.0") ]) ])).

Definition schema (type description : string) : value :=
  VObj [ ("type", VStr type); ("description", VStr description) ].

Definition tool (name description : string) (properties : list (string * value))
  (required : list string) : value :=
  VObj [ ("name", VStr name);
         ("description", VStr description);
         ("inputSchema",
          VObj [ ("type", VStr "object");
                 ("properties", VObj properties);
                 ("required", VArr (map VStr required)) ]) ].

Definition listTools (request : value) : Result MCPResponse :=
  id <- prop request "id" ;;
  Ok (success id
        (VObj [ ("tools", VArr [
          tool "generate_types"
            "Generate strict TypeScript types from JSON data or API responses"
            [ ("data", schema "string" "JSON data to generate types from");
              ("name", schema "string" "Interface/type name (default: Generated)");
              ("strict", schema "boolean" "Use strict mode (default: true)");
              ("readonly", schema "boolean" "Make properties readonly (default: false)") ]
            [ "data" ];
          tool "fix_type_errors"
            "Diagnose TypeScript type errors and suggest multiple fixes with explanations"
            [ ("error", schema "string" "TypeScript error message") ]
            [ "error" ];
          tool "refactor_safe"
            "Suggest type-preserving refactoring improvements for TypeScript code"
            [ ("code", schema "string" "TypeScript code to analyze for refactoring") ]
            [ "code" ];
          tool "suggest_generics"
            "Analyze code and suggest generic type parameters with constraints"
            [ ("code", schema "string" "TypeScript code to analyze for generic opportunities") ]
            [ "code" ];
          tool "check_strict"
            "Check code for strict mode compliance and suggest improvements"
            [ ("code", schema "string" "TypeScript code to check for strict mode compliance") ]
            [ "code" ];
          tool "framework_patterns"
            "Get framework-specific TypeScript patterns and best practices"
            [ ("framework",
               VObj [ ("type", VStr "string");
                      ("enum", VArr (map VStr [ "react"; "nextjs"; "express"; "nodejs"; "vue"; "angular" ]));
                      ("description", VStr "Framework to get patterns for") ]) ]
            [ "framework" ] ]) ])).

Definition handleGenerateTypes (args : value) : Result string :=
  destructure args ;;;
  let data := get args "data" in
  let name := get args "name" in
  let strict := get args "strict" in
  let readonly := get args "readonly" in
  generated <- TypeGenerator.generate data
                 {| TypeGenerator.name := name; TypeGenerator.strict := strict;
                    TypeGenerator.readonly := readonly;
                    TypeGenerator.exactOptionalPropertyTypes := VUndefined |} ;;
  Ok ("## 🎯 Generated TypeScript Types" ++ nl ++ nl ++ "```typescript" ++ nl
      ++ generated ++ nl ++ "```" ++ nl ++ nl
      ++ "✅ Generated with strict type safety (no `any` types)").

Definition handleFixTypeErrors (args : value) : Result string :=
  destructure args ;;;
  let error := get args "error" in
  receiver <- as_receiver error ;;
  diagnosis <- TypeGenerator.analyzeTypeError receiver ;;
  let fixes := TypeGenerator.fixes diagnosis in
  let explanation := TypeGenerator.explanation diagnosis in
  shown <- ToString error ;;
  let result := "## 🔧 Type Error Analysis" ++ nl ++ nl ++ "**Error:**" ++ nl ++ "`"
                ++ shown ++ "`" ++ nl ++ nl ++ "**Explanation:**" ++ nl
                ++ explanation ++ nl ++ nl ++ "**Suggested Fixes:**" ++ nl in
  Ok (fold_left (fun result line => result ++ line)
        (mapi (fun fix_ i => nl ++ decimal (i + 1) ++ ". " ++ fix_) fixes)
        result).

Definition no_refactoring : string :=
  "✅ Code looks good! No major refactoring suggestions.".

(** The advisories of [handleRefactorSafe], in the order they are pushed. *)
Definition refactorSuggestions (code : receiver) : Result (list string) :=
  let suggestions := [] in
  (* Check for common refactoring opportunities *)
  let suggestions :=
    if has code "any"
    then push suggestions "⚠️  Replace `any` types with specific types or `unknown`"
    else suggestions in
  let suggestions :=
    if has code "as any"
    then push suggestions "⚠️  Remove unsafe type assertions (`as any`) and use proper type guards"
    else suggestions in
  declares <- re_test (seq [ lit "function"; plus space; plus word; lit "(";
                             Star (char_not (lit ")")); lit ")"; Star space; lit "{" ]) code ;;
  let suggestions :=
    if declares && negb (has code ": ")
    then push suggestions "📝 Add return type annotations to functions for better type safety"
    else suggestions in
  let suggestions :=
    if has code "?." && negb (has code "??")
    then push suggestions "💡 Consider using nullish coalescing (`??`) with optional chaining for defaults"
    else suggestions in
  found <- re_match (fun s => if test (seq [ lit "const "; plus word; lit " = {" ]) s
                              then Some tt else None) code ;;
  let suggestions :=
    match found with
    | Some _ => push suggestions "💡 Consider defining explicit interfaces for object literals used multiple times"
    | None => suggestions
    end in
  let suggestions :=
    if has code "Promise" && negb (has code "async")
    then push suggestions "💡 Use async/await instead of raw Promises for better readability"
    else suggestions in
  Ok suggestions.

Definition handleRefactorSafe (args : value) : Result string :=
  destructure args ;;;
  code <- as_receiver (get args "code") ;;
  suggestions <- refactorSuggestions code ;;
  if (length suggestions =? 0)%nat then Ok no_refactoring
  else Ok ("## 🔄 Type-Safe Refactoring Suggestions" ++ nl ++ nl
           ++ join nl (mapi (fun s i => decimal (i + 1) ++ ". " ++ s) suggestions)).

Definition no_generics : string :=
  "💡 No obvious generic opportunities found. Consider making reusable functions generic when they work with multiple types.".

Definition handleSuggestGenerics (args : value) : Result string :=
  destructure args ;;;
  code <- as_receiver (get args "code") ;;
  let suggestions := [] in
  (* Detect potential generic opportunities *)
  let suggestions :=
    if has code "function" && has code "unknown"
    then push suggestions
           ("Replace `unknown` with generic type parameter:" ++ nl
            ++ "```typescript" ++ nl
            ++ "function process<T>(data: T): T {" ++ nl
            ++ "  return data;" ++ nl
            ++ "}" ++ nl
            ++ "```")
    else suggestions in
  let suggestions :=
    if has code "any[]" || has code "unknown[]"
    then push suggestions
           ("Use generic array types:" ++ nl
            ++ "```typescript" ++ nl
            ++ "function filter<T>(items: T[], predicate: (item: T) => boolean): T[] {" ++ nl
            ++ "  return items.filter(predicate);" ++ nl
            ++ "}" ++ nl
            ++ "```")
    else suggestions in
  found <- re_match (fun s => if test (seq [ lit "interface"; Star dot; lit "extends" ]) s
                              then Some tt else None) code ;;
  let suggestions :=
    match found with
    | Some _ =>
        push suggestions
          ("Consider generic constraints for reusable interfaces:" ++ nl
           ++ "```typescript" ++ nl
           ++ "interface Repository<T extends { id: number }> {" ++ nl
           ++ "  findById(id: number): Promise<T>;" ++ nl
           ++ "  save(entity: T): Promise<T>;" ++ nl
           ++ "}" ++ nl
           ++ "```")
    | None => suggestions
    end in
  if (length suggestions =? 0)%nat then Ok no_generics
  else Ok ("## 🎯 Generic Type Suggestions" ++ nl ++ nl ++ join (nl ++ nl) suggestions).

Definition strict_compliant : string :=
  "✅ Code is strict mode compliant! No issues found.".

(** The issues of [handleCheckStrict], in the order they are pushed. *)
Definition strictIssues (code : receiver) : Result (list string) :=
  let issues := [] in
  (* Check for strict mode violations *)
  let issues :=
    if has code ": any"
    then push issues "❌ Explicit `any` type found - violates strict mode"
    else issues in
  let issues :=
    if has code "as any"
    then push issues "❌ Unsafe type assertion `as any` - defeats type safety"
    else issues in
  annotated <- re_test (seq [ lit ": "; plus word ]) code ;;
  let issues :=
    if negb annotated && has code "="
    then push issues "⚠️  Missing type annotations on variables"
    else issues in
  let issues :=
    if has code "function" && negb (has code ": ")
    then push issues "⚠️  Missing return type annotations on functions"
    else issues in
  let issues :=
    if has code "null" && negb (has code "| null")
    then push issues "⚠️  Potential null values not reflected in types"
    else issues in
  let issues :=
    if has code "undefined" && negb (has code "| undefined") && negb (has code "?:")
    then push issues "⚠️  Potential undefined values not reflected in types"
    else issues in
  Ok issues.

Definition handleCheckStrict (args : value) : Result string :=
  destructure args ;;;
  code <- as_receiver (get args "code") ;;
  issues <- strictIssues code ;;
  if (length issues =? 0)%nat then Ok strict_compliant
  else Ok ("## ⚙️  Strict Mode Compliance Check" ++ nl ++ nl
           ++ join nl (mapi (fun issue i => decimal (i + 1) ++ ". " ++ issue) issues)
           ++ nl ++ nl ++ "**Recommendation:**" ++ nl
           ++ "Enable strict mode in tsconfig.json:" ++ nl
           ++ "```json" ++ nl
           ++ "{" ++ nl
           ++ "  " ++ dq ++ "compilerOptions" ++ dq ++ ": {" ++ nl
           ++ "    " ++ dq ++ "strict" ++ dq ++ ": true," ++ nl
           ++ "    " ++ dq ++ "noImplicitAny" ++ dq ++ ": true," ++ nl
           ++ "    " ++ dq ++ "strictNullChecks" ++ dq ++ ": true" ++ nl
           ++ "  }" ++ nl
           ++ "}" ++ nl
           ++ "```").

(** [framework.charAt(0).toUpperCase() + framework.slice(1)] *)
Definition capitalized (framework : value) : Result string :=
  match framework with
  | VStr s => Ok (capitalize s)
  | VUndefined | VNull => Throw (TypeError (PropertyOfNullish framework "charAt"))
  | _ => Throw (TypeError (NotAFunction "charAt"))
  end.

Definition handleFrameworkPatterns (args : value) : Result string :=
  destructure args ;;;
  let framework := get args "framework" in
  let patterns := FrameworkPatterns.getPatterns snippet framework in
  if (length patterns =? 0)%nat
  then
    shown <- ToString framework ;;
    Ok ("No patterns found for framework: " ++ shown)
  else
    title <- capitalized framework ;;
    let result := "## 📚 " ++ title ++ " TypeScript Patterns" ++ nl ++ nl in
    Ok (fold_left (fun result section => result ++ section)
          (mapi (fun pattern i =>
                   "### " ++ decimal (i + 1) ++ ". " ++ FrameworkPatterns.pattern pattern ++ nl ++ nl
                   ++ (FrameworkPatterns.description pattern ++ nl ++ nl)
                   ++ ("```typescript" ++ nl ++ FrameworkPatterns.code pattern ++ nl ++ "```" ++ nl ++ nl))
                patterns)
          result).

Definition callTool (request : value) : Result MCPResponse :=
  params <- prop request "params" ;;
  destructure params ;;;
  let name := get params "name" in
  let args := get params "arguments" in
  try_catch
    (result <- (if is_string name "generate_types" then handleGenerateTypes args
                else if is_string name "fix_type_errors" then handleFixTypeErrors args
                else if is_string name "refactor_safe" then handleRefactorSafe args
                else if is_string name "suggest_generics" then handleSuggestGenerics args
                else if is_string name "check_strict" then handleCheckStrict args
                else if is_string name "framework_patterns" then handleFrameworkPatterns args
                else
                  shown <- ToString name ;;
                  Throw (JsError ("Unknown tool: " ++ shown))) ;;
     id <- prop request "id" ;;
     Ok (success id
           (VObj [ ("content", VArr [ VObj [ ("type", VStr "text"); ("text", VStr result) ] ]) ])))
    (fun error =>
       id <- prop request "id" ;;
       Ok (failure id (-32603) (message_or error "Tool execution failed"))).

Definition handleRequest (request : value) : Result MCPResponse :=
  try_catch
    (method <- prop request "method" ;;
     if is_string method "initialize" then initialize request
     else if is_string method "notifications/initialized" then
       (* Silent handler for MCP initialization notification *)
       Ok empty_response
     else if is_string method "tools/list" then listTools request
     else if is_string method "tools/call" then callTool request
     else
       id <- prop request "id" ;;
       shown <- ToString method ;;
       Ok (failure id (-32601) ("Method not found: " ++ shown)))
    (fun error =>
       id <- prop request "id" ;;
       Ok (failure id (-32603) (message_or error "Internal error"))).

(** The body of the line handler once the line is parsed. *)
Definition on_request (request : value) : Result (list output) :=
  id <- prop request "id" ;;
  (* Handle notifications (no id field) silently *)
  if is_undefined id then
    response <- handleRequest request ;;
    (* Don't send response for notifications *)
    Ok []
  else
    response <- handleRequest request ;;
    text <- JSON_stringify (response_value response) ;;
    Ok [ console_log text ].

(** [rl.on('line', async (line) => { try { ... } catch (error) { console.error(...) } })] *)
Definition on_line (line : string) : list output :=
  match (request <- JSON_parse line ;; on_request request) with
  | Ok written => written
  | Throw error => [ Stderr "Error processing request:" error ]
  end.

(** What the line handler writes for a line that parses to [request]. *)
Definition handled (request : value) : list output :=
  match on_request request with
  | Ok written => written
  | Throw error => [ Stderr "Error processing request:" error ]
  end.

End WithRuntime.

(** The lines written on the standard output. *)
Definition emitted (written : list output) : list string :=
  flat_map (fun o => match o with Stdout line => [line] | Stderr _ _ => [] end) written.

(** The cases of the [switch] of [handleRequest] and of [callTool]. *)
Definition method_names : list string :=
  [ "initialize"; "notifications/initialized"; "tools/list"; "tools/call" ].

Definition tool_names : list string :=
  [ "generate_types"; "fix_type_errors"; "refactor_safe"; "suggest_generics";
    "check_strict"; "framework_patterns" ].

(** A response carries a result or an error, not both. *)
Definition has_outcome (response : MCPResponse) : Prop :=
  (exists content, result response = Some content /\ error response = None)
  \/ (exists code message,
        result response = None
        /\ error response = Some {| code := code; message := message |}).

End TSPilotMCP.

(** ** The type declarations of the specification

    The specification describes the output of [generate] as a type declaration
    over type expressions (its data model, [TypeExpr] and [Field Descriptor]).
    [declare] builds that declaration for a value the way the specification
    words the algorithm; [render_declaration] is its text.  They are compared
    with [generateInterface] below. *)

Module Declaration.
Import TypeGenerator.

Unset Elimination Schemes.
Inductive TypeExpr : Type :=
| primitive (name : string)
| arrayOf (t : TypeExpr)
| unionOf (ts : list TypeExpr)
| inlineRecord (fields : list (string * TypeExpr))
| literalNull
| literalUndefined
| neverArray
| unknownArray.
Set Elimination Schemes.

Record FieldDescriptor : Type := {
  key : string;
  type : TypeExpr;
  readonlyFlag : bool
}.

Inductive TypeDeclaration : Type :=
| alias (name : string) (t : TypeExpr)
| record (name : string) (fields : list FieldDescriptor).

Definition is_union (t : TypeExpr) : bool :=
  match t with unionOf _ => true | _ => false end.

(** The text of a type expression; an array of a union is parenthesized. *)
Fixpoint render (t : TypeExpr) : string :=
  match t with
  | primitive name => name
  | arrayOf t' =>
      (if is_union t' then "(" ++ render t' ++ ")" else render t') ++ "[]"
  | unionOf ts => join " | " (map render ts)
  | inlineRecord fields =>
      "{ " ++ join "; " (map (fun f => safeKey (fst f) ++ ": " ++ render (snd f)) fields) ++ " }"
  | literalNull => "null"
  | literalUndefined => "undefined"
  | neverArray => "never[]"
  | unknownArray => "unknown[]"
  end.

Definition render_field (f : FieldDescriptor) : string :=
  "  " ++ (if readonlyFlag f then "readonly " else EmptyString)
  ++ safeKey (key f) ++ ": " ++ render (type f) ++ ";".

Definition render_declaration (d : TypeDeclaration) : string :=
  match d with
  | alias name t => "type " ++ name ++ " = " ++ render t ++ ";"
  | record name fields =>
      "interface " ++ name ++ " {" ++ nl ++ join nl (map render_field fields) ++ nl ++ "}"
  end.

(** The names of the types a type expression is built from. *)
Fixpoint type_names (t : TypeExpr) : list string :=
  match t with
  | primitive name => [name]
  | arrayOf t' => type_names t'
  | unionOf ts => flat_map type_names ts
  | inlineRecord fields => flat_map (fun f => type_names (snd f)) fields
  | literalNull => ["null"]
  | literalUndefined => ["undefined"]
  | neverArray => ["never"]
  | unknownArray => ["unknown"]
  end.

Definition declared_type_names (d : TypeDeclaration) : list string :=
  match d with
  | alias _ t => type_names t
  | record _ fields => flat_map (fun f => type_names (type f)) fields
  end.

(** The concrete types: the primitive types, the two literal types and the
    element types of an empty array. *)
Definition concrete_types : list string :=
  [ "string"; "number"; "boolean"; "bigint"; "symbol"; "unknown"; "null"; "undefined"; "never" ].

Section WithRuntime.
Context {rt : Runtime}.

(** The name [generate] declares: [options.name || 'Generated']. *)
Definition declared_name (options : TypeGenerationOptions) : Result string :=
  ToString (or_else (name options) (VStr "Generated")).

(** Recursive inference on a value (step 5 of the algorithm). *)
Fixpoint infer (v : value) (strict : bool) {struct v} : TypeExpr :=
  match v with
  | VNull => if strict then literalNull else unionOf [literalNull; literalUndefined]
  | VUndefined => literalUndefined
  | VArr [] => if strict then neverArray else unknownArray
  | VArr items =>
      match Set_of (map inferPrimitiveType items) with
      | [t] => arrayOf (primitive t)
      | types => arrayOf (unionOf (map primitive types))
      end
  | VObj entries => inlineRecord (map (fun kv => (fst kv, infer (snd kv) strict)) entries)
  | VBool _ | VNum _ | VStr _ => primitive (inferPrimitiveType v)
  end.

(** The type whose text is the text of [t] followed by [[]]: the array of [t],
    and for a union, whose text has no parentheses, the union whose last
    member is an array. *)
Fixpoint array_of_last (ts : list TypeExpr) : list TypeExpr :=
  match ts with
  | [] => []
  | [t] => [arrayOf t]
  | t :: ts' => t :: array_of_last ts'
  end.

Definition followed_by_brackets (t : TypeExpr) : TypeExpr :=
  match t with
  | unionOf ts => unionOf (array_of_last ts)
  | _ => arrayOf t
  end.

(** Steps 1 to 4 of the algorithm. *)
Definition declare (name : string) (obj : value) (strict readonly : bool) : TypeDeclaration :=
  match obj with
  | VNull => alias name literalNull
  | VArr [] => alias name unknownArray
  | VArr (first :: _) => alias name (followed_by_brackets (infer first strict))
  | VObj entries =>
      record name
        (map (fun kv => {| key := fst kv; type := infer (snd kv) strict;
                           readonlyFlag := readonly |}) entries)
  | VUndefined | VBool _ | VNum _ | VStr _ => alias name (infer obj strict)
  end.

End WithRuntime.
End Declaration.

(** ** The first server: the other [TSPilotMCP] of the repository

    The repository holds a second, shorter server (the first hundred lines of
    the second source part): two tools, a [callTool] that answers with a fixed
    text, and a line handler that does not dispatch notifications. *)

Module FirstServer.
Import TSPilotMCP.

Section WithRuntime.
Context {rt : Runtime}.

Definition initialize (request : value) : Result MCPResponse :=
  id <- prop request "id" ;;
  Ok (success id
        (VObj [ ("protocolVersion", VStr "2025-06-18");
                ("capabilities", VObj [ ("tools", VObj []) ]);
                ("serverInfo", VObj [ ("name", VStr "ts-pilot"); ("version", VStr "1.0.0") ]) ])).

Definition listTools (request : value) : Result MCPResponse :=
  id <- prop request "id" ;;
  Ok (success id
        (VObj [ ("tools", VArr [
          tool "generate_types"
            "Generate strict TypeScript types from data/API responses"
            [ ("data", schema "string" "JSON data to generate types from");
              ("name", schema "string" "Interface name") ]
            [ "data" ];
          tool "fix_type_errors"
            "Diagnose and suggest fixes for TypeScript type errors"
            [ ("error", schema "string" "TypeScript error message") ]
            [ "error" ] ]) ])).

Definition callTool (request : value) : Result MCPResponse :=
  params <- prop request "params" ;;
  destructure params ;;;
  let name := get params "name" in
  let text := if is_string name "generate_types"
              then "✓ Types generated successfully"
              else "✓ Fix suggestions provided" in
  id <- prop request "id" ;;
  Ok (success id
        (VObj [ ("content", VArr [ VObj [ ("type", VStr "text"); ("text", VStr text) ] ]) ])).

Definition handleRequest (request : value) : Result MCPResponse :=
  try_catch
    (method <- prop request "method" ;;
     if is_string method "initialize" then initialize request
     else if is_string method "tools/list" then listTools request
     else if is_string method "tools/call" then callTool request
     else
       id <- prop request "id" ;;
       shown <- ToString method ;;
       Ok (failure id (-32601) ("Method not found: " ++ shown)))
    (fun error =>
       id <- prop request "id" ;;
       Ok (failure id (-32603) (message_or error "Internal error"))).

(** The body of the line handler once the line is parsed. *)
Definition on_request (request : value) : Result (list output) :=
  id <- prop request "id" ;;
  if is_undefined id then Ok []
  else
    response <- handleRequest request ;;
    text <- JSON_stringify (response_value response) ;;
    Ok [ console_log text ].

Definition on_line (line : string) : list output :=
  match (request <- JSON_parse line ;; on_request request) with
  | Ok written => written
  | Throw error => [ Stderr "Error processing request:" error ]
  end.

(** What the line handler writes for a line that parses to [request]. *)
Definition handled (request : value) : list output :=
  match on_request request with
  | Ok written => written
  | Throw error => [ Stderr "Error processing request:" error ]
  end.

End WithRuntime.
End FirstServer.

(** ** Shapes of values and names used in the statements

    [inferType] reads [strict] for [null] and for an empty array, which it
    reaches at the top of a value and through the fields of objects; the
    elements of an array are typed without it. *)

Module Shapes.

Fixpoint reads_strict (v : value) : bool :=
  match v with
  | VNull => true
  | VArr [] => true
  | VObj entries => existsb (fun kv => reads_strict (snd kv)) entries
  | _ => false
  end.

(** The same for [generateInterface], whose own cases for [null] and for the
    empty array do not read it, and which types a non-empty array from its
    first element. *)
Definition root_reads_strict (obj : value) : bool :=
  match obj with
  | VNull => false
  | VArr [] => false
  | VArr (first :: _) => reads_strict first
  | _ => reads_strict obj
  end.

(** The nesting of objects in a value, through objects: what [inferType]
    descends. *)
Fixpoint object_depth (v : value) : nat :=
  match v with
  | VObj entries => S (list_max (map (fun kv => object_depth (snd kv)) entries))
  | _ => 0
  end.

(** The nesting [generateInterface] makes [inferType] descend: that of the
    first element of a root array, of the property values of a root object. *)
Definition root_depth (obj : value) : nat :=
  match obj with
  | VArr (first :: _) => object_depth first
  | VObj entries => list_max (map (fun kv => object_depth (snd kv)) entries)
  | _ => 0
  end.

(** The nesting of arrays and objects in a value: what [JSON.stringify]
    descends. *)
Fixpoint nesting (v : value) : nat :=
  match v with
  | VArr items => S (list_max (map nesting items))
  | VObj entries => S (list_max (map (fun kv => nesting (snd kv)) entries))
  | _ => 0
  end.

(** The text [JSON.stringify] gives for a value when the call stack has room
    for its nesting; [None] is [undefined]. *)
Fixpoint JSON_text {rt : Runtime} (v : value) : option string :=
  match v with
  | VUndefined => None
  | VNull => Some "null"
  | VBool true => Some "true"
  | VBool false => Some "false"
  | VNum n => Some (if PrimFloat.is_finite n then Number_toString n else "null")
  | VStr s => Some (JSON_quote s)
  | VArr items =>
      Some ("[" ++ join "," (map (fun item => JSON_element (JSON_text item)) items) ++ "]")
  | VObj entries =>
      Some ("{" ++ join "," (concat (map (fun kv => JSON_member (fst kv) (JSON_text (snd kv)))
                                         entries)) ++ "}")
  end.

(** What the line handler writes for a response: its line when the call stack
    has room to serialize it, the report of the overflow otherwise. *)
Definition written {rt : Runtime} (response : TSPilotMCP.MCPResponse) : list TSPilotMCP.output :=
  if (nesting (TSPilotMCP.response_value response) <=? stack_room Serializing)%nat
  then [ TSPilotMCP.console_log (JSON_text (TSPilotMCP.response_value response)) ]
  else [ TSPilotMCP.Stderr "Error processing request:" StackOverflow ].

(** What [generate] hands to [generateInterface]: its data, or for a string
    what [JSON.parse] reads in it. *)
Definition reads {rt : Runtime} (data parsed : value) : Prop :=
  match data with
  | VStr source => JSON_parse source = Ok parsed
  | _ => data = parsed
  end.

(** A text holds a finding as one of its numbered items: at the start of a
    line, a number, a full stop, a space and the finding. *)
Definition lists (text finding : string) : Prop :=
  exists n before after,
    text = before ++ nl ++ decimal (S n) ++ ". " ++ finding ++ after.

(** The primitive type of a value, by its [typeof]. *)
Definition type_of_tag (tag : jstype) : string :=
  match tag with
  | TString => "string"
  | TNumber => "number"
  | TBoolean => "boolean"
  | TBigint => "bigint"
  | TSymbol => "symbol"
  | _ => "unknown"
  end.

(** The cases of the [switch] of [getPatterns]. *)
Definition frameworks : list string :=
  [ "react"; "nextjs"; "express"; "nodejs"; "vue"; "angular" ].

(** A byte other than [a]. *)
Definition is_not (a : ascii) (c : ascii) : bool := negb (Ascii.eqb c a).

(** An ASCII byte other than the closing parenthesis. *)
Definition ascii_not_paren (c : ascii) : bool :=
  Regex.byte_in 0 127 c && negb (Ascii.eqb c ")").

End Shapes.

(** ** A runtime for closed examples

    The examples below are stated on parsed values, integers and strings; the
    general lemmas they instantiate hold for every runtime. *)

Module Example.

Definition runtime : Runtime := {|
  JSON_parse := fun text => Throw (JsError ("Unexpected token in JSON: " ++ text));
  (* exact on the integers below 2^53 *)
  Number_toString := fun n =>
    match Prim2SF n with
    | S754_zero _ => "0"
    | S754_finite s m e =>
        (if s then "-" else EmptyString)
        ++ decimal (Z.to_nat (Z.shiftl (Z.pos m) e))
    | S754_infinity s => if s then "-Infinity" else "Infinity"
    | S754_nan => "NaN"
    end;
  URL_parses := fun _ => false;
  TypeError_message := fun f =>
    match f with
    | DestructureNullish _ => "Cannot destructure property of undefined or null"
    | PropertyOfNullish _ key => "Cannot read properties of undefined or null (reading '" ++ key ++ "')"
    | NotAFunction key => key ++ " is not a function"
    | NotPrimitive _ => "Cannot convert object to primitive value"
    end;
  (* a small stack, so that the values that overflow it stay small *)
  stack_room := fun _ => 64%nat;
  RangeError_message := "Maximum call stack size exceeded"
|}.

(** [v] inside [depth] objects, each holding it as its property [a], and
    inside [depth] arrays. *)
Fixpoint nested_objects (depth : nat) (v : value) : value :=
  match depth with
  | O => v
  | S depth' => VObj [ ("a", nested_objects depth' v) ]
  end.

Fixpoint nested_arrays (depth : nat) (v : value) : value :=
  match depth with
  | O => v
  | S depth' => VArr [ nested_arrays depth' v ]
  end.

(** An object that holds a property [toString], as [JSON.parse] reads
    [{"toString":0}]. *)
Definition unprintable : value := VObj [ ("toString", VNum 0) ].

Definition snippet (framework pattern : string) : string :=
  "// " ++ framework ++ ": " ++ pattern.

(** A request with an identifier, with and without parameters, and a request
    without identifier. *)
Definition request (id : value) (method : string) : value :=
  VObj [ ("jsonrpc", VStr "2.0"); ("id", id); ("method", VStr method) ].

Definition call (id : value) (tool : string) (arguments : value) : value :=
  VObj [ ("jsonrpc", VStr "2.0"); ("id", id); ("method", VStr "tools/call");
         ("params", VObj [ ("name", VStr tool); ("arguments", arguments) ]) ].

Definition notify (tool : string) (arguments : value) : value :=
  VObj [ ("jsonrpc", VStr "2.0"); ("method", VStr "tools/call");
         ("params", VObj [ ("name", VStr tool); ("arguments", arguments) ]) ].

Definition no_options : TypeGenerator.TypeGenerationOptions :=
  {| TypeGenerator.name := VUndefined; TypeGenerator.strict := VUndefined;
     TypeGenerator.readonly := VUndefined;
     TypeGenerator.exactOptionalPropertyTypes := VUndefined |}.

Definition named (name : value) : TypeGenerator.TypeGenerationOptions :=
  {| TypeGenerator.name := name; TypeGenerator.strict := VUndefined;
     TypeGenerator.readonly := VUndefined;
     TypeGenerator.exactOptionalPropertyTypes := VUndefined |}.

Definition with_strict (b : bool) : TypeGenerator.TypeGenerationOptions :=
  {| TypeGenerator.name := VUndefined; TypeGenerator.strict := VBool b;
     TypeGenerator.readonly := VUndefined;
     TypeGenerator.exactOptionalPropertyTypes := VUndefined |}.

(** A line that holds a request, and a runtime that reads it, and [null]. *)
Definition initialize_line : string :=
  "{" ++ dq ++ "jsonrpc" ++ dq ++ ":" ++ dq ++ "2.0" ++ dq ++ ","
  ++ dq ++ "id" ++ dq ++ ":1,"
  ++ dq ++ "method" ++ dq ++ ":" ++ dq ++ "initialize" ++ dq ++ "}".

Definition reader : Runtime := {|
  JSON_parse := fun text =>
    if String.eqb text initialize_line then Ok (request (VNum 1) "initialize")
    else if String.eqb text "null" then Ok VNull
    else JSON_parse (Runtime := runtime) text;
  Number_toString := Number_toString (Runtime := runtime);
  URL_parses := URL_parses (Runtime := runtime);
  TypeError_message := TypeError_message (Runtime := runtime);
  stack_room := stack_room (Runtime := runtime);
  RangeError_message := RangeError_message (Runtime := runtime)
|}.

(** A message of the compiler that names no property. *)
Definition unquoted_property : string := "Property does not exist".

End Example.

(** * Properties *)

(** ** Strings and lists *)

Section StringFacts.

Lemma strip_prefix_spec (p s r : string) :
  strip_prefix p s = Some r <-> s = p ++ r.
Proof.
  revert s; induction p as [|a p IH]; intros s; simpl.
  - split; [intros [= ->]; reflexivity | intros ->; reflexivity].
  - destruct s as [|b s]; [split; discriminate|].
    destruct (Ascii.eqb_spec a b) as [->|Hab].
    + rewrite IH. split; [intros ->; reflexivity | intros [= ->]; reflexivity].
    + split; [discriminate | intros [= Hb _]; congruence].
Qed.

Lemma startsWith_spec (s p : string) :
  startsWith s p = true <-> exists r, s = p ++ r.
Proof.
  unfold startsWith. destruct (strip_prefix p s) as [r|] eqn:E.
  - apply strip_prefix_spec in E. split; [eauto | reflexivity].
  - split; [discriminate|]. intros [r Hr].
    apply strip_prefix_spec in Hr. congruence.
Qed.

Lemma append_assoc (a b c : string) : (a ++ b) ++ c = a ++ b ++ c.
Proof. induction a as [|x a IH]; simpl; [reflexivity | now rewrite IH]. Qed.

(** [includes] is the substring relation. *)
Lemma includes_spec (s p : string) :
  includes s p = true <-> exists before after, s = before ++ p ++ after.
Proof.
  split.
  - induction s as [|c s IH]; simpl; rewrite orb_true_iff.
    + intros [Hs|]; [|discriminate].
      apply startsWith_spec in Hs as [r ->]. now exists EmptyString, r.
    + intros [Hs|Hs].
      * apply startsWith_spec in Hs as [r ->]. now exists EmptyString, r.
      * destruct (IH Hs) as (a & b & ->). now exists (String c a), b.
  - intros (a & b & ->). induction a as [|c a IH].
    + assert (Hs : startsWith (p ++ b) p = true) by (apply startsWith_spec; eauto).
      simpl (EmptyString ++ _). destruct (p ++ b); simpl; now rewrite Hs.
    + simpl. rewrite IH. apply orb_true_r.
Qed.

(** A text that includes [p ++ q] includes [q]. *)
Lemma includes_suffix (s p q : string) :
  includes s (p ++ q) = true -> includes s q = true.
Proof.
  rewrite !includes_spec. intros (a & b & ->).
  exists (a ++ p), b. now rewrite !append_assoc.
Qed.

End StringFacts.

(** ** The regular expression matcher decides membership *)

Section RegexFacts.
Import Regex.

Lemma lang_cat (r s : regex) (w : string) : lang (cat r s) w <-> lang (Cat r s) w.
Proof.
  assert (Hvoid_r : forall r', lang (Cat r' Void) w <-> False).
  { intros r'. simpl. split; [intros (u & v & _ & _ & []) | intros []]. }
  assert (Heps : forall s', lang s' w <-> lang (Cat Eps s') w).
  { intros s'. simpl. split.
    - intros Hw. now exists EmptyString, w.
    - intros (u & v & -> & -> & Hv). exact Hv. }
  destruct r; try (destruct s; simpl cat; try reflexivity; try (symmetry; apply Hvoid_r);
                   try apply Heps).
  all: simpl; split; [intros [] | intros (u & v & _ & [] & _)].
Qed.

Lemma lang_alt (r s : regex) (w : string) : lang (alt r s) w <-> lang r w \/ lang s w.
Proof.
  destruct r; try (destruct s; simpl; tauto).
Qed.

Lemma nullable_spec (r : regex) : nullable r = true <-> lang r EmptyString.
Proof.
  induction r as [| |p|r IHr s IHs|r IHr s IHs|r IHr s IHs|r IHr|r IHr]; simpl.
  - split; [discriminate | intros []].
  - tauto.
  - split; [discriminate | intros (c & Hc & _); discriminate].
  - rewrite andb_true_iff, IHr, IHs. split.
    + intros [Hr Hs]. now exists EmptyString, EmptyString.
    + intros (u & v & Huv & Hu & Hv). destruct u; [|discriminate].
      simpl in Huv. subst v. now split.
  - rewrite orb_true_iff, IHr, IHs. tauto.
  - rewrite andb_true_iff, IHr, IHs. tauto.
  - rewrite negb_true_iff, <- IHr. destruct (nullable r); split; congruence.
  - split; [intros _; constructor | reflexivity].
Qed.

(** A non-empty word of a starred language starts with a non-empty word of
    the language. *)
Lemma star_cons_inv (L : string -> Prop) (c : ascii) (w : string) :
  star L (String c w) ->
  exists u v, w = u ++ v /\ L (String c u) /\ star L v.
Proof.
  intros Hstar. remember (String c w) as cw eqn:E. revert c w E.
  induction Hstar as [|s1 s2 H1 H2 IH]; intros c w E; [discriminate|].
  destruct s1 as [|a s1]; simpl in E.
  - now apply IH.
  - injection E as -> <-. now exists s1, s2.
Qed.

Lemma deriv_spec (c : ascii) (r : regex) :
  forall w, lang (deriv c r) w <-> lang r (String c w).
Proof.
  induction r as [| |p|r IHr s IHs|r IHr s IHs|r IHr s IHs|r IHr|r IHr]; intros w; simpl.
  - tauto.
  - split; [intros [] | discriminate].
  - destruct (p c) eqn:Hp; simpl.
    + split.
      * intros ->. now exists c.
      * intros (a & [= -> ->] & _). reflexivity.
    + split; [intros [] | intros (a & [= -> _] & Ha); congruence].
  - rewrite lang_alt, lang_cat. simpl. split.
    + intros [(u & v & -> & Hu & Hv)|Hnull].
      * exists (String c u), v. rewrite <- IHr. now repeat split.
      * destruct (nullable r) eqn:Hr; [|destruct Hnull].
        exists EmptyString, (String c w). apply nullable_spec in Hr. rewrite <- IHs.
        now repeat split.
    + intros (u & v & Huv & Hu & Hv). destruct u as [|a u]; simpl in Huv.
      * right. subst v. apply nullable_spec in Hu. rewrite Hu. now apply IHs.
      * injection Huv as <- ->. left. exists u, v. rewrite IHr. now repeat split.
  - rewrite lang_alt, IHr, IHs. tauto.
  - rewrite IHr, IHs. tauto.
  - rewrite IHr. tauto.
  - rewrite lang_cat. simpl. split.
    + intros (u & v & -> & Hu & Hv). apply IHr in Hu.
      exact (star_app (lang r) (String c u) v Hu Hv).
    + intros Hstar. apply star_cons_inv in Hstar as (u & v & -> & Hu & Hv).
      exists u, v. rewrite IHr. now repeat split.
Qed.

(** [matches] decides whether a string is a word of the expression. *)
Lemma matches_spec (r : regex) (w : string) : matches r w = true <-> lang r w.
Proof.
  revert r; induction w as [|c w IH]; intros r; simpl.
  - apply nullable_spec.
  - rewrite IH. apply deriv_spec.
Qed.

Lemma star_any (w : string) : lang (Star any) w.
Proof.
  induction w as [|c w IH]; [constructor|].
  apply (star_app _ (String c EmptyString) w); [|exact IH]. now exists c.
Qed.

(** [test] decides whether a word of the expression occurs in the string. *)
Lemma test_spec (r : regex) (s : string) :
  test r s = true <-> exists before w after, s = before ++ w ++ after /\ lang r w.
Proof.
  unfold test. rewrite matches_spec. simpl. split.
  - intros (u & v & -> & _ & w & after & -> & Hw & _). now exists u, w, after.
  - intros (before & w & after & -> & Hw).
    exists before, (w ++ after). repeat split; [apply star_any|].
    exists w, after. repeat split; [assumption | apply star_any].
Qed.

Lemma lang_lit (p w : string) : lang (lit p) w <-> w = p.
Proof.
  revert w; induction p as [|c p IH]; intros w; simpl; [tauto|]. split.
  - intros (u & v & -> & (a & -> & Ha) & Hv). apply Ascii.eqb_eq in Ha. subst a.
    apply IH in Hv. now subst v.
  - intros ->. exists (String c EmptyString), p. repeat split; [|now apply IH].
    exists c. split; [reflexivity | apply Ascii.eqb_refl].
Qed.

(** Searching a literal with [test] is [includes]. *)
Lemma test_lit (p s : string) : test (lit p) s = includes s p.
Proof.
  apply eq_true_iff_eq. rewrite test_spec, includes_spec. split.
  - intros (before & w & after & -> & Hw). apply lang_lit in Hw. subst w. eauto.
  - intros (before & after & ->). exists before, p, after. split; [reflexivity|].
    now apply lang_lit.
Qed.

End RegexFacts.

(** ** The two patterns with groups

    [match_property] and [match_name] succeed exactly on the messages in which
    the regular expression of the source occurs. *)

Section Captures.
Import Regex TypeGenerator.

Lemma star_cls (p : ascii -> bool) (w : string) :
  star (lang (Cls p)) w <-> all_bytes p w = true.
Proof.
  split.
  - induction 1 as [|u v (c & -> & Hc) _ IH]; [reflexivity|]. simpl. now rewrite Hc.
  - induction w as [|c w IH]; simpl; [constructor|].
    rewrite andb_true_iff. intros [Hc Hw].
    apply (star_app _ (String c EmptyString) w); [now exists c | now apply IH].
Qed.

Lemma lang_plus_cls (p : ascii -> bool) (w : string) :
  lang (plus (Cls p)) w <-> w <> EmptyString /\ all_bytes p w = true.
Proof.
  unfold plus. simpl. split.
  - intros (u & v & -> & (c & -> & Hc) & Hv). apply star_cls in Hv.
    split; [discriminate|]. simpl. now rewrite Hc.
  - intros [Hne Hw]. destruct w as [|c w]; [now destruct Hne|].
    simpl in Hw. apply andb_true_iff in Hw as [Hc Hw].
    exists (String c EmptyString), w. repeat split; [now exists c | now apply star_cls].
Qed.

Lemma lang_lit_then (a : string) (r : regex) (w : string) :
  lang (Cat (lit a) r) w <-> exists v, w = a ++ v /\ lang r v.
Proof.
  simpl. split.
  - intros (u & v & -> & Hu & Hv). apply lang_lit in Hu. subst u. eauto.
  - intros (v & -> & Hv). exists a, v. repeat split; [now apply lang_lit | assumption].
Qed.

Lemma lang_run_then (p : ascii -> bool) (r : regex) (w : string) :
  lang (Cat (plus (Cls p)) r) w
  <-> exists u v, w = u ++ v /\ u <> EmptyString /\ all_bytes p u = true /\ lang r v.
Proof.
  change (lang (Cat (plus (Cls p)) r) w)
    with (exists u v, w = u ++ v /\ lang (plus (Cls p)) u /\ lang r v).
  split.
  - intros (u & v & -> & Hu & Hv). apply lang_plus_cls in Hu as [Hne Hu]. eauto 6.
  - intros (u & v & -> & Hne & Hu & Hv). exists u, v.
    repeat split; [now apply lang_plus_cls | assumption].
Qed.

Lemma span_spec (p : ascii -> bool) (s : string) :
  s = fst (span p s) ++ snd (span p s)
  /\ all_bytes p (fst (span p s)) = true
  /\ match snd (span p s) with
     | EmptyString => True
     | String c _ => p c = false
     end.
Proof.
  induction s as [|c s (IH1 & IH2 & IH3)]; simpl; [now repeat split|].
  destruct (p c) eqn:Hc; [|now repeat split].
  destruct (span p s) as [run rest]. simpl in *. rewrite Hc, IH2, <- IH1. now repeat split.
Qed.

Lemma span_app (p : ascii -> bool) (run rest : string) :
  all_bytes p run = true ->
  match rest with EmptyString => True | String c _ => p c = false end ->
  span p (run ++ rest) = (run, rest).
Proof.
  intros Hrun Hrest. induction run as [|c run IH]; simpl in *.
  - destruct rest as [|c rest]; [reflexivity|]. simpl. now rewrite Hrest.
  - apply andb_true_iff in Hrun as [Hc Hrun]. now rewrite Hc, IH.
Qed.

Lemma quoted_spec (s run rest : string) :
  quoted s = Some (run, rest)
  <-> run <> EmptyString /\ all_bytes not_quote run = true /\ s = run ++ "'" ++ rest.
Proof.
  unfold quoted. split.
  - destruct (span_spec not_quote s) as (Hs & Hrun & _).
    destruct (span not_quote s) as [run0 rest0]. cbn [fst snd] in Hs, Hrun. cbv iota.
    destruct (String.eqb_spec run0 EmptyString) as [|Hne]; [discriminate|].
    destruct (strip_prefix "'" rest0) as [rest'|] eqn:E; [|discriminate].
    intros [= <- <-]. apply strip_prefix_spec in E. subst rest0. now repeat split.
  - intros (Hne & Hrun & ->). rewrite (span_app not_quote run ("'" ++ rest) Hrun eq_refl).
    destruct (String.eqb_spec run EmptyString) as [|_]; [contradiction|].
    reflexivity.
Qed.

Lemma search_some {C : Type} (here : string -> option C) (s : string) :
  (exists c, search here s = Some c)
  <-> exists before rest c, s = before ++ rest /\ here rest = Some c.
Proof.
  split.
  - intros [c Hc]. induction s as [|a s IH]; simpl in Hc.
    + destruct (here EmptyString) as [c'|] eqn:E; [|discriminate].
      now exists EmptyString, EmptyString, c'.
    + destruct (here (String a s)) as [c'|] eqn:E.
      * now exists EmptyString, (String a s), c'.
      * destruct (IH Hc) as (before & rest & c' & -> & Hrest).
        now exists (String a before), rest, c'.
  - intros (before & rest & c & -> & Hrest). induction before as [|a before IH]; simpl.
    + destruct rest; simpl; rewrite Hrest; eauto.
    + destruct (here (String a (before ++ rest))); eauto.
Qed.

Lemma property_here_spec (s prop type : string) :
  property_here s = Some (prop, type)
  <-> exists tail,
        s = "Property '" ++ prop ++ "' does not exist on type '" ++ type ++ "'" ++ tail
        /\ prop <> EmptyString /\ all_bytes not_quote prop = true
        /\ type <> EmptyString /\ all_bytes not_quote type = true.
Proof.
  unfold property_here. split.
  - destruct (strip_prefix "Property '" s) as [s1|] eqn:E1; [|discriminate].
    destruct (quoted s1) as [[prop' s2]|] eqn:E2; [|discriminate].
    destruct (strip_prefix " does not exist on type '" s2) as [s3|] eqn:E3; [|discriminate].
    destruct (quoted s3) as [[type' tail]|] eqn:E4; [|discriminate].
    intros [= <- <-]. apply strip_prefix_spec in E1, E3.
    apply quoted_spec in E2 as (Hp1 & Hp2 & E2), E4 as (Ht1 & Ht2 & E4).
    exists tail. subst. now repeat split.
  - intros (tail & -> & Hp1 & Hp2 & Ht1 & Ht2).
    change (strip_prefix "Property '"
              ("Property '" ++ prop ++ "' does not exist on type '" ++ type ++ "'" ++ tail))
      with (Some (prop ++ "'" ++ " does not exist on type '" ++ type ++ "'" ++ tail)).
    cbv beta iota. rewrite (proj2 (quoted_spec _ prop (" does not exist on type '" ++ type ++ "'" ++ tail)))
      by now repeat split.
    change (strip_prefix " does not exist on type '"
              (" does not exist on type '" ++ type ++ "'" ++ tail))
      with (Some (type ++ "'" ++ tail)).
    cbv beta iota. now rewrite (proj2 (quoted_spec _ type tail)) by now repeat split.
Qed.

Lemma lang_property_re (w : string) :
  lang property_re w
  <-> exists prop type,
        w = "Property '" ++ prop ++ "' does not exist on type '" ++ type ++ "'"
        /\ prop <> EmptyString /\ all_bytes not_quote prop = true
        /\ type <> EmptyString /\ all_bytes not_quote type = true.
Proof.
  unfold property_re, seq. cbn [fold_right]. rewrite lang_lit_then. split.
  - intros (v1 & -> & H1). apply lang_run_then in H1 as (prop & v2 & -> & Hp1 & Hp2 & H2).
    apply lang_lit_then in H2 as (v3 & -> & H3).
    apply lang_run_then in H3 as (type & v4 & -> & Ht1 & Ht2 & H4).
    apply lang_lit_then in H4 as (v5 & -> & ->).
    exists prop, type. now repeat split.
  - intros (prop & type & -> & Hp1 & Hp2 & Ht1 & Ht2).
    eexists. split; [reflexivity|]. apply lang_run_then.
    exists prop, ("' does not exist on type '" ++ type ++ "'").
    repeat split; try assumption. apply lang_lit_then.
    eexists. split; [reflexivity|]. apply lang_run_then.
    exists type, "'". repeat split; try assumption. apply lang_lit_then.
    exists EmptyString. now split.
Qed.

(** [error.match(...)] is [null] exactly when the pattern does not occur. *)
Lemma match_property_test (s : string) :
  match_property s = None <-> test property_re s = false.
Proof.
  assert (Hiff : (exists c, match_property s = Some c) <-> test property_re s = true).
  { unfold match_property. rewrite search_some, test_spec. split.
    - intros (before & rest & [prop type] & -> & Hrest).
      apply property_here_spec in Hrest as (tail & -> & Hshape).
      exists before, ("Property '" ++ prop ++ "' does not exist on type '" ++ type ++ "'"), tail.
      split; [|apply lang_property_re; eauto].
      now rewrite !append_assoc.
    - intros (before & w & after & -> & Hw).
      apply lang_property_re in Hw as (prop & type & -> & Hshape).
      exists before,
        ("Property '" ++ prop ++ "' does not exist on type '" ++ type ++ "'" ++ after),
        (prop, type).
      split; [|apply property_here_spec; eauto].
      now rewrite !append_assoc. }
  destruct (match_property s) as [c|], (test property_re s); split; try congruence.
  - intros _. assert (Hc : exists c0 : string * string, Some c = Some c0) by eauto.
    apply Hiff in Hc. discriminate.
  - intros _. destruct (proj2 Hiff eq_refl) as [c Hc]. discriminate.
Qed.

Lemma name_here_spec (s id : string) :
  name_here s = Some id
  <-> exists tail,
        s = "Cannot find name '" ++ id ++ "'" ++ tail
        /\ id <> EmptyString /\ all_bytes not_quote id = true.
Proof.
  unfold name_here. split.
  - destruct (strip_prefix "Cannot find name '" s) as [s1|] eqn:E1; [|discriminate].
    destruct (quoted s1) as [[id' tail]|] eqn:E2; [|discriminate].
    intros [= <-]. apply strip_prefix_spec in E1.
    apply quoted_spec in E2 as (Hi1 & Hi2 & E2). exists tail. subst. now repeat split.
  - intros (tail & -> & Hi1 & Hi2).
    change (strip_prefix "Cannot find name '" ("Cannot find name '" ++ id ++ "'" ++ tail))
      with (Some (id ++ "'" ++ tail)).
    cbv beta iota. now rewrite (proj2 (quoted_spec _ id tail)) by now repeat split.
Qed.

Lemma lang_name_re (w : string) :
  lang name_re w
  <-> exists id, w = "Cannot find name '" ++ id ++ "'"
                 /\ id <> EmptyString /\ all_bytes not_quote id = true.
Proof.
  unfold name_re, seq. cbn [fold_right]. rewrite lang_lit_then. split.
  - intros (v1 & -> & H1). apply lang_run_then in H1 as (id & v2 & -> & Hi1 & Hi2 & H2).
    apply lang_lit_then in H2 as (v3 & -> & ->). exists id. now repeat split.
  - intros (id & -> & Hi1 & Hi2). eexists. split; [reflexivity|]. apply lang_run_then.
    exists id, "'". repeat split; try assumption. apply lang_lit_then.
    exists EmptyString. now split.
Qed.

Lemma match_name_test (s : string) :
  match_name s = None <-> test name_re s = false.
Proof.
  assert (Hiff : (exists c, match_name s = Some c) <-> test name_re s = true).
  { unfold match_name. rewrite search_some, test_spec. split.
    - intros (before & rest & id & -> & Hrest).
      apply name_here_spec in Hrest as (tail & -> & Hshape).
      exists before, ("Cannot find name '" ++ id ++ "'"), tail.
      split; [|apply lang_name_re; eauto].
      now rewrite !append_assoc.
    - intros (before & w & after & -> & Hw).
      apply lang_name_re in Hw as (id & -> & Hshape).
      exists before, ("Cannot find name '" ++ id ++ "'" ++ after), id.
      split; [|apply name_here_spec; eauto].
      now rewrite !append_assoc. }
  destruct (match_name s) as [c|], (test name_re s); split; try congruence.
  - intros _. assert (Hc : exists c0 : string, Some c = Some c0) by eauto.
    apply Hiff in Hc. discriminate.
  - intros _. destruct (proj2 Hiff eq_refl) as [c Hc]. discriminate.
Qed.

End Captures.

(** ** [new Set]: distinct elements in order of first occurrence *)

Section SetOf.

Lemma existsb_eqb_In (x : string) (l : list string) :
  existsb (String.eqb x) l = true <-> In x l.
Proof.
  rewrite existsb_exists. split.
  - intros (y & Hy & E). apply String.eqb_eq in E. now subst.
  - intros Hx. exists x. split; [assumption | apply String.eqb_refl].
Qed.

Lemma fold_add_unseen_spec (l seen : list string) :
  NoDup seen ->
  let r := fold_left add_unseen l seen in
  NoDup r /\ (forall x, In x r <-> In x seen \/ In x l) /\ exists more, r = (seen ++ more)%list.
Proof.
  revert seen; induction l as [|y l IH]; intros seen Hnd; simpl.
  - repeat split; [assumption | tauto | tauto | exists []; now rewrite app_nil_r].
  - unfold add_unseen at 2 4 6. unfold unseen.
    destruct (existsb (String.eqb y) seen) eqn:E; cbn [negb].
    + destruct (IH seen Hnd) as (H1 & H2 & H3). repeat split; try assumption.
      * intros Hx. apply H2 in Hx. tauto.
      * intros [Hx|[->|Hx]]; apply H2; [tauto | left; now apply existsb_eqb_In | tauto].
    + assert (Hy : ~ In y seen).
      { intros Hin. apply existsb_eqb_In in Hin. congruence. }
      assert (Hnd' : NoDup (push seen y)).
      { unfold push. apply NoDup_app; [assumption | constructor; [easy | constructor] |].
        intros x Hx [->|[]]. contradiction. }
      destruct (IH (push seen y) Hnd') as (H1 & H2 & more & H3).
      repeat split; try assumption.
      * intros Hx. apply H2 in Hx. unfold push in Hx. rewrite in_app_iff in Hx.
        simpl in Hx. tauto.
      * intros Hx. apply H2. unfold push. rewrite in_app_iff. simpl. tauto.
      * exists (y :: more). rewrite H3. unfold push. now rewrite <- app_assoc.
Qed.

(** The members of [Set_of l] are those of [l], each once. *)
Lemma Set_of_spec (l : list string) :
  NoDup (Set_of l) /\ forall x, In x (Set_of l) <-> In x l.
Proof.
  destruct (fold_add_unseen_spec l [] (NoDup_nil _)) as (H1 & H2 & _).
  split; [exact H1|]. intros x. rewrite (H2 x). simpl. tauto.
Qed.

(** The first element of the list is the first member of the set. *)
Lemma Set_of_head (x : string) (l : list string) :
  exists more, Set_of (x :: l) = x :: more.
Proof.
  unfold Set_of. simpl.
  destruct (fold_add_unseen_spec l (push [] x)) as (_ & _ & more & Hr).
  - unfold push. simpl. constructor; [easy | constructor].
  - exists more. exact Hr.
Qed.

Lemma filter_twice {A : Type} (f g : A -> bool) (l : list A) :
  filter f (filter g l) = filter (fun x => g x && f x) l.
Proof.
  induction l as [|x l IH]; simpl; [reflexivity|].
  destruct (g x); simpl; [destruct (f x)|]; now rewrite IH.
Qed.

Lemma fold_add_unseen_filter (n : nat) :
  forall l seen, (length l <= n)%nat ->
    fold_left add_unseen l seen = (seen ++ Set_of (filter (unseen seen) l))%list.
Proof.
  induction n as [|n IH]; intros l seen Hlen.
  - destruct l; [|simpl in Hlen; lia]. simpl. now rewrite app_nil_r.
  - destruct l as [|y l]; [simpl; now rewrite app_nil_r|].
    simpl in Hlen. simpl. unfold add_unseen at 2. unfold unseen at 1 2.
    destruct (existsb (String.eqb y) seen) eqn:E; simpl.
    + apply IH. lia.
    + rewrite IH by lia. unfold Set_of at 2. simpl. unfold add_unseen at 2. simpl.
      rewrite (IH (filter (unseen seen) l) (push [] y)).
      * unfold push. simpl. rewrite <- app_assoc. simpl. do 3 f_equal.
        rewrite filter_twice. apply filter_ext. intros z. unfold unseen.
        rewrite existsb_app. simpl. now rewrite orb_false_r, negb_orb.
      * pose proof (filter_length_le (unseen seen) l). lia.
Qed.

(** [Set_of] keeps the first occurrence of each element: the head of the list
    comes first, followed by the set of the other elements of the tail. *)
Lemma Set_of_cons (x : string) (l : list string) :
  Set_of (x :: l) = x :: Set_of (filter (fun y => negb (String.eqb y x)) l).
Proof.
  unfold Set_of at 1. simpl. unfold add_unseen at 2. simpl.
  rewrite (fold_add_unseen_filter (length l)) by lia. unfold push. simpl. do 2 f_equal.
  apply filter_ext. intros y. unfold unseen. simpl. now rewrite orb_false_r.
Qed.

End SetOf.

(** ** The diagnostic rules *)

Section AnalyzeTypeError.
Context {rt : Runtime}.
Import TypeGenerator.

(** On a string, [analyzeTypeError] returns. *)
Lemma analyzeTypeError_returns (s : string) :
  exists d, analyzeTypeError (RStr s) = Ok d.
Proof.
  unfold analyzeTypeError, re_match.
  repeat match goal with
         | |- context [if ?c then _ else _] => destruct c
         end; simpl; try (eexists; reflexivity).
  destruct (match_property s) as [[prop type]|]; eexists; reflexivity.
Qed.

(** C1: [analyzeTypeError] is meant to return at least one fix for every
    message, the last category taking what no other category matches.  The
    code does not: a message that names a property that "does not exist"
    without the quoted shape the pattern expects enters the third category,
    the pattern fails, and the result has no fix and no explanation.  The
    sixth category has the same slip: its three fixes, one of which does not
    mention the identifier, are pushed only when the pattern matches. *)
Theorem analyzeTypeError_unquoted_property_has_no_fix :
  analyzeTypeError (RStr "Property does not exist")
  = Ok {| fixes := []; explanation := EmptyString |}
  /\ analyzeTypeError (RStr "Cannot find name foo")
     = Ok {| fixes := [];
             explanation := "The identifier is not defined in the current scope. Import it or define it." |}.
Proof.
  split.
  - unfold analyzeTypeError. cbn [has]. reflexivity.
  - unfold analyzeTypeError. cbn [has]. reflexivity.
Qed.

(** X10: these are the only messages without a fix: the fix list is empty
    exactly when the third or the sixth category is entered and its pattern
    fails. *)
Lemma analyzeTypeError_no_fix_iff (s : string) (d : DiagnosticResult) :
  analyzeTypeError (RStr s) = Ok d ->
  fixes d = [] <->
  (has (RStr s) "| undefined" && has (RStr s) "not assignable" = false /\
   has (RStr s) "null" && has (RStr s) "not assignable" = false /\
   ((has (RStr s) "Property" && has (RStr s) "does not exist" = true /\
     match_property s = None) \/
    (has (RStr s) "Property" && has (RStr s) "does not exist" = false /\
     has (RStr s) "Argument of type" && has (RStr s) "not assignable" = false /\
     has (RStr s) "any" && (has (RStr s) "implicitly" || has (RStr s) "not allowed") = false /\
     has (RStr s) "Cannot find name" = true /\
     match_name s = None))).
Proof.
  unfold analyzeTypeError, re_match. intros Hd.
  destruct (has (RStr s) "| undefined" && has (RStr s) "not assignable");
    [injection Hd as <-; simpl; split; [discriminate | intros (? & _); discriminate]|].
  destruct (has (RStr s) "null" && has (RStr s) "not assignable");
    [injection Hd as <-; simpl; split; [discriminate | intros (_ & ? & _); discriminate]|].
  destruct (has (RStr s) "Property" && has (RStr s) "does not exist").
  { simpl in Hd. destruct (match_property s) as [[prop type]|]; injection Hd as <-; simpl.
    - split; [discriminate|]. intros (_ & _ & [[_ ?]|[? _]]); discriminate.
    - split; [intros _; repeat split; left; split; reflexivity|reflexivity]. }
  destruct (has (RStr s) "Argument of type" && has (RStr s) "not assignable");
    [injection Hd as <-; simpl; split;
     [discriminate | intros (_ & _ & [[? _]|(_ & ? & _)]); discriminate]|].
  destruct (has (RStr s) "any" && (has (RStr s) "implicitly" || has (RStr s) "not allowed"));
    [injection Hd as <-; simpl; split;
     [discriminate | intros (_ & _ & [[? _]|(_ & _ & ? & _)]); discriminate]|].
  destruct (has (RStr s) "Cannot find name").
  { simpl in Hd. destruct (match_name s) as [id|]; injection Hd as <-; simpl.
    - split; [discriminate|]. intros (_ & _ & [[? _]|(_ & _ & _ & _ & ?)]); discriminate.
    - split; [intros _; repeat split; right; repeat split|reflexivity]. }
  injection Hd as <-; simpl. split; [discriminate|].
  intros (_ & _ & [[? _]|(_ & _ & _ & ? & _)]); discriminate.
Qed.

(** A message that no category matches gets the three generic fixes; the empty
    message is one. *)
Lemma analyzeTypeError_fallback (s : string) :
  has (RStr s) "not assignable" = false ->
  has (RStr s) "does not exist" = false ->
  has (RStr s) "any" = false ->
  has (RStr s) "Cannot find name" = false ->
  analyzeTypeError (RStr s)
  = Ok {| fixes := [ "Review type signatures and ensure compatibility";
                     "Use type assertions if you're certain of the type";
                     "Add type guards for runtime type checking" ];
          explanation := "Type mismatch detected. Review the types involved and ensure they're compatible." |}.
Proof.
  intros H1 H2 H3 H4. unfold analyzeTypeError.
  rewrite H1, H2, H3, H4, !andb_false_r. reflexivity.
Qed.

Lemma analyzeTypeError_empty_message :
  exists d, analyzeTypeError (RStr EmptyString) = Ok d /\ length (fixes d) = 3%nat.
Proof. eexists. split; reflexivity. Qed.

End AnalyzeTypeError.

(** ** The declarations of the specification: their types are concrete *)

Section Declared.
Context {rt : Runtime}.
Import TypeGenerator Declaration.

Lemma inferPrimitiveType_string (s : string) : inferPrimitiveType (VStr s) = "string".
Proof.
  unfold inferPrimitiveType. simpl. destruct (isURL s), (isEmail s), (isUUID s); reflexivity.
Qed.

Lemma inferPrimitiveType_number (n : float) : inferPrimitiveType (VNum n) = "number".
Proof. unfold inferPrimitiveType. simpl. destruct (Number_isInteger n); reflexivity. Qed.

Lemma inferPrimitiveType_cases (v : value) :
  In (inferPrimitiveType v) [ "string"; "number"; "boolean"; "bigint"; "symbol"; "unknown" ].
Proof.
  unfold inferPrimitiveType. destruct v; simpl; auto 7.
  - destruct (Number_isInteger n); auto.
  - destruct (isURL s), (isEmail s), (isUUID s); auto.
Qed.

(** A value whose [typeof] is none of the five recognized tags is [unknown]. *)
Lemma inferPrimitiveType_fallback (v : value) :
  ~ In (typeof v) [TString; TNumber; TBoolean; TBigint; TSymbol] ->
  inferPrimitiveType v = "unknown".
Proof.
  unfold inferPrimitiveType. destruct v; simpl; intros Hv; try reflexivity; tauto.
Qed.

Lemma map_render_primitive (l : list string) : map render (map primitive l) = l.
Proof. induction l as [|x l IH]; simpl; [reflexivity | now rewrite IH]. Qed.

Lemma flat_map_type_names_primitive (l : list string) :
  flat_map type_names (map primitive l) = l.
Proof. induction l as [|x l IH]; simpl; [reflexivity | now rewrite IH]. Qed.

Lemma render_followed_by_brackets (v : value) (strict : bool) :
  render (followed_by_brackets (infer v strict)) = render (infer v strict) ++ "[]".
Proof.
  destruct v as [| |b|n|s|items|entries]; try (destruct strict; reflexivity);
    try reflexivity.
  destruct items as [|x items]; [destruct strict; reflexivity|].
  simpl. destruct (Set_of _) as [|t [|t' ts]]; reflexivity.
Qed.

(** Every type name of an inferred type is a concrete type. *)
Lemma infer_concrete (v : value) (strict : bool) :
  forall a, In a (type_names (infer v strict)) -> In a concrete_types.
Proof.
  assert (Hprim : forall w a, In a [inferPrimitiveType w] -> In a concrete_types).
  { intros w a [<-|[]]. pose proof (inferPrimitiveType_cases w) as Hw.
    simpl in Hw. simpl. tauto. }
  induction v as [| |b|n|s|items IH|entries IH] using value_ind; intros a;
    try (destruct strict; simpl; tauto); try (apply Hprim).
  - destruct items as [|x items]; [destruct strict; simpl; tauto|].
    assert (Hall : forall t, In t (Set_of (map inferPrimitiveType (x :: items))) ->
                             In t concrete_types).
    { intros t Ht. apply (proj1 (proj2 (Set_of_spec _) t)) in Ht. apply in_map_iff in Ht as (w & <- & _).
      apply (Hprim w). now left. }
    change (infer (VArr (x :: items)) strict)
      with (match Set_of (map inferPrimitiveType (x :: items)) with
            | [t] => arrayOf (primitive t)
            | types => arrayOf (unionOf (map primitive types))
            end).
    destruct (Set_of _) as [|t [|t' ts]].
    + simpl. tauto.
    + simpl. intros [<-|[]]. apply Hall. now left.
    + change (type_names (arrayOf (unionOf (map primitive (t :: t' :: ts)))))
        with (flat_map type_names (map primitive (t :: t' :: ts))).
      rewrite flat_map_type_names_primitive. apply Hall.
  - simpl. rewrite flat_map_concat_map, map_map. intros Ha.
    apply in_concat in Ha as (l & Hl & Ha). apply in_map_iff in Hl as (kv & <- & Hkv).
    rewrite Forall_forall in IH. exact (IH kv Hkv a Ha).
Qed.

Lemma declare_concrete (name : string) (obj : value) (strict readonly : bool) :
  forall a, In a (declared_type_names (declare name obj strict readonly)) ->
            In a concrete_types.
Proof.
  intros a. destruct obj as [| |b|n|s|items|entries].
  - apply (infer_concrete VUndefined strict).
  - simpl. tauto.
  - apply (infer_concrete (VBool b) strict).
  - apply (infer_concrete (VNum n) strict).
  - apply (infer_concrete (VStr s) strict).
  - destruct items as [|first items]; simpl; [tauto|].
    pose proof (infer_concrete first strict) as Hfirst.
    destruct first as [| |b|n|s|items'|entries']; try (apply Hfirst).
    + destruct strict; simpl; tauto.
    + destruct items' as [|x items']; [destruct strict; simpl; tauto|].
      revert Hfirst. simpl.
      destruct (Set_of _) as [|t [|t' ts]]; intros Hfirst; apply Hfirst.
  - simpl. rewrite flat_map_concat_map, map_map. intros Ha.
    apply in_concat in Ha as (l & Hl & Ha). apply in_map_iff in Hl as (kv & <- & Hkv).
    exact (infer_concrete (snd kv) strict a Ha).
Qed.

Lemma any_is_not_concrete : ~ In "any" concrete_types.
Proof. simpl. intros Hany. repeat (destruct Hany as [Hany|Hany]; [discriminate|]). exact Hany. Qed.

End Declared.

(** ** Exceptions and the call stack *)

Section Effects.
Context {rt : Runtime}.
Import TypeGenerator Declaration Shapes.

Lemma mapM_guarded {A B : Type} (f : A -> Result B) (g : A -> B) (p : A -> bool)
  (e : thrown) (l : list A) :
  Forall (fun x => f x = if p x then Ok (g x) else Throw e) l ->
  mapM f l = if forallb p l then Ok (map g l) else Throw e.
Proof.
  induction 1 as [|x l Hx _ IH]; [reflexivity|].
  cbn [mapM forallb map]. rewrite Hx. destruct (p x); [|reflexivity].
  cbn [bind andb]. rewrite IH. now destruct (forallb p l).
Qed.

Lemma mapM_ok {A B : Type} (f : A -> Result B) (g : A -> B) (l : list A) :
  (forall x, In x l -> f x = Ok (g x)) -> mapM f l = Ok (map g l).
Proof.
  induction l as [|x l IH]; intros Hl; [reflexivity|].
  cbn [mapM map]. rewrite (Hl x) by now left. cbn [bind].
  rewrite IH; [reflexivity|]. intros y Hy. apply Hl. now right.
Qed.

Lemma forallb_map {A B : Type} (f : A -> B) (p : B -> bool) (l : list A) :
  forallb p (map f l) = forallb (fun x => p (f x)) l.
Proof. induction l as [|x l IH]; [reflexivity|]. cbn [map forallb]. now rewrite IH. Qed.

Lemma list_max_leb (l : list nat) (n : nat) :
  (list_max l <=? n)%nat = forallb (fun k => (k <=? n)%nat) l.
Proof.
  induction l as [|k l IH]; [reflexivity|].
  cbn [list_max fold_right forallb]. fold (list_max l). rewrite <- IH.
  destruct (Nat.leb_spec k n), (Nat.leb_spec (list_max l) n), (Nat.leb_spec (Nat.max k (list_max l)) n);
    try reflexivity; lia.
Qed.

Lemma leb_true (a b : nat) : a <= b -> (a <=? b)%nat = true.
Proof. apply Nat.leb_le. Qed.

Lemma leb_false (a b : nat) : b < a -> (a <=? b)%nat = false.
Proof. apply Nat.leb_gt. Qed.

(** The conversion of a string and of a value that is not an object. *)
Lemma ToString_string (s : string) : ToString (VStr s) = Ok s.
Proof. reflexivity. Qed.

(** [inferType] returns the text of the inferred type expression when the
    call stack has room for the objects nested in the value, and raises the
    overflow otherwise. *)
Lemma inferType_at_spec (v : value) (strict : bool) (options : TypeGenerationOptions) :
  forall room,
    inferType_at room v strict options
    = if (object_depth v <=? room)%nat then Ok (render (infer v strict))
      else Throw StackOverflow.
Proof.
  induction v as [| |b|n|s|items IH|entries IH] using value_ind; intros room;
    try (destruct strict; reflexivity); try reflexivity.
  - destruct items as [|x items]; [destruct strict; reflexivity|].
    cbn [inferType_at object_depth Nat.leb length Nat.eqb infer].
    destruct (Set_of _) as [|t [|t' ts]]; cbn [length Nat.eqb nth render is_union];
      try reflexivity.
    rewrite map_render_primitive. now rewrite !append_assoc.
  - destruct room as [|room]; [reflexivity|].
    cbn [inferType_at object_depth Nat.leb].
    rewrite list_max_leb, forallb_map.
    rewrite (mapM_guarded _
               (fun kv => safeKey (fst kv) ++ ": " ++ render (infer (snd kv) strict))
               (fun kv => (object_depth (snd kv) <=? room)%nat) StackOverflow).
    + destruct (forallb _ entries); [|reflexivity].
      cbn [bind infer render]. now rewrite map_map.
    + refine (Forall_impl _ _ IH). intros kv Hkv. cbv beta.
      rewrite Hkv. now destruct (object_depth (snd kv) <=? room)%nat.
Qed.

Lemma inferType_spec (v : value) (strict : bool) (options : TypeGenerationOptions) :
  inferType v strict options
  = if (object_depth v <=? stack_room Inferring)%nat then Ok (render (infer v strict))
    else Throw StackOverflow.
Proof. apply inferType_at_spec. Qed.

(** [JSON.stringify] returns the text of the value when the call stack has
    room for its nesting, and raises the overflow otherwise. *)
Lemma JSON_stringify_at_spec (v : value) :
  forall room,
    JSON_stringify_at room v
    = if (nesting v <=? room)%nat then Ok (JSON_text v) else Throw StackOverflow.
Proof.
  induction v as [| |b|n|s|items IH|entries IH] using value_ind; intros room;
    try reflexivity.
  - now destruct b.
  - destruct room as [|room]; [reflexivity|].
    cbn [JSON_stringify_at nesting Nat.leb].
    rewrite list_max_leb, forallb_map.
    rewrite (mapM_guarded _ (fun item => JSON_element (JSON_text item))
               (fun item => (nesting item <=? room)%nat) StackOverflow).
    + now destruct (forallb _ items).
    + refine (Forall_impl _ _ IH). intros item Hitem. cbv beta.
      rewrite Hitem. now destruct (nesting item <=? room)%nat.
  - destruct room as [|room]; [reflexivity|].
    cbn [JSON_stringify_at nesting Nat.leb].
    rewrite list_max_leb, forallb_map.
    rewrite (mapM_guarded _ (fun kv => JSON_member (fst kv) (JSON_text (snd kv)))
               (fun kv => (nesting (snd kv) <=? room)%nat) StackOverflow).
    + now destruct (forallb _ entries).
    + refine (Forall_impl _ _ IH). intros kv Hkv. cbv beta.
      rewrite Hkv. now destruct (nesting (snd kv) <=? room)%nat.
Qed.

End Effects.

(** ** The type inference engine *)

Section Generate.
Context {rt : Runtime}.
Import TypeGenerator Declaration Shapes.

Lemma declared_name_ToString (options : TypeGenerationOptions) :
  declared_name options = ToString (or_else (name options) (VStr "Generated")).
Proof. reflexivity. Qed.

(** The text [generateInterface] produces is the text of the declaration,
    when the call stack has room for the value and the name has a text.
    [inferType] is called before the name is converted, unless the value is
    a primitive one, whose type needs no room. *)
Lemma generateInterface_spec
  (name obj : value) (strict : bool) (options : TypeGenerationOptions) :
  generateInterface name obj strict options
  = if (root_depth obj <=? stack_room Inferring)%nat
    then text <- ToString name ;;
         Ok (render_declaration (declare text obj strict (truthy (readonly options))))
    else Throw StackOverflow.
Proof.
  destruct obj as [| |b|n|s|items|entries]; unfold generateInterface.
  - cbn [root_depth Nat.leb]. destruct (ToString name); reflexivity.
  - cbn [root_depth Nat.leb]. destruct (ToString name); reflexivity.
  - cbn [root_depth Nat.leb]. destruct (ToString name); reflexivity.
  - cbn [root_depth Nat.leb]. destruct (ToString name) as [text|e]; [|reflexivity].
    cbn [bind]. rewrite inferType_spec. reflexivity.
  - cbn [root_depth Nat.leb]. destruct (ToString name) as [text|e]; [|reflexivity].
    cbn [bind]. rewrite inferType_spec. reflexivity.
  - destruct items as [|first items].
    + cbn [root_depth Nat.leb length Nat.eqb]. destruct (ToString name); reflexivity.
    + cbn [root_depth length Nat.eqb nth]. rewrite inferType_spec.
      destruct (object_depth first <=? stack_room Inferring)%nat; [|reflexivity].
      cbn [bind]. destruct (ToString name) as [text|e]; [|reflexivity].
      cbn [bind declare render_declaration].
      rewrite render_followed_by_brackets. now rewrite !append_assoc.
  - cbn [root_depth Object_entries]. rewrite list_max_leb, forallb_map.
    rewrite (mapM_guarded _
               (fun kv => "  " ++ (if truthy (readonly options) then "readonly " else EmptyString)
                          ++ safeKey (fst kv) ++ ": " ++ render (infer (snd kv) strict) ++ ";")
               (fun kv => (object_depth (snd kv) <=? stack_room Inferring)%nat) StackOverflow).
    + destruct (forallb _ entries); [|reflexivity].
      cbn [bind]. destruct (ToString name) as [text|e]; [|reflexivity].
      cbn [bind declare render_declaration]. now rewrite map_map.
    + apply Forall_forall. intros kv _. rewrite inferType_spec.
      now destruct (object_depth (snd kv) <=? stack_room Inferring)%nat.
Qed.

(** [generate] is [generateInterface] on what it reads, inside the [try]. *)
Lemma generate_reads (data parsed : value) (options : TypeGenerationOptions) :
  reads data parsed ->
  generate data options
  = try_catch (generateInterface (or_else (name options) (VStr "Generated")) parsed
                 (is_not_false (strict options)) options)
              invalid_data.
Proof.
  unfold reads, generate. destruct data; intros Hdata; try (now rewrite <- Hdata).
  now rewrite Hdata.
Qed.

Lemma reads_value (data : value) : (forall text, data <> VStr text) -> reads data data.
Proof. destruct data; intros Hdata; try reflexivity. now destruct (Hdata s). Qed.

Lemma generate_unparsed (text : string) (error : thrown) (options : TypeGenerationOptions) :
  JSON_parse text = Throw error ->
  generate (VStr text) options
  = Throw (JsError ("Invalid JSON data: " ++ message_or error "Unknown error")).
Proof. intros Htext. unfold generate. now rewrite Htext. Qed.

(** The three outcomes of [generate] on what it reads. *)
Lemma generate_returns (data parsed : value) (options : TypeGenerationOptions) (text : string) :
  reads data parsed ->
  declared_name options = Ok text ->
  root_depth parsed <= stack_room Inferring ->
  generate data options
  = Ok (render_declaration
          (declare text parsed (is_not_false (strict options)) (truthy (readonly options)))).
Proof.
  intros Hdata Hname Hroom. rewrite (generate_reads data parsed options Hdata).
  rewrite generateInterface_spec, (leb_true _ _ Hroom).
  rewrite declared_name_ToString in Hname. now rewrite Hname.
Qed.

Lemma generate_overflow (data parsed : value) (options : TypeGenerationOptions) :
  reads data parsed ->
  stack_room Inferring < root_depth parsed ->
  generate data options = Throw (JsError ("Invalid JSON data: " ++ RangeError_message)).
Proof.
  intros Hdata Hroom. rewrite (generate_reads data parsed options Hdata).
  now rewrite generateInterface_spec, (leb_false _ _ Hroom).
Qed.

Lemma generate_unnamed (data parsed : value) (options : TypeGenerationOptions) (error : thrown) :
  reads data parsed ->
  root_depth parsed <= stack_room Inferring ->
  declared_name options = Throw error ->
  generate data options
  = Throw (JsError ("Invalid JSON data: " ++ message_or error "Unknown error")).
Proof.
  intros Hdata Hroom Hname. rewrite (generate_reads data parsed options Hdata).
  rewrite generateInterface_spec, (leb_true _ _ Hroom).
  rewrite declared_name_ToString in Hname. now rewrite Hname.
Qed.

(** Whatever [generate] raises is the invalid-data error. *)
Lemma generate_raises (data : value) (options : TypeGenerationOptions) (error : thrown) :
  generate data options = Throw error ->
  exists message, error = JsError ("Invalid JSON data: " ++ message).
Proof.
  unfold generate, try_catch, invalid_data.
  destruct (bind _ _) as [declaration|e]; [discriminate|].
  intros [= <-]. eexists. reflexivity.
Qed.

(** When [generate] returns, it has read a value, named it and had room. *)
Lemma generate_returned (data : value) (options : TypeGenerationOptions) (declaration : string) :
  generate data options = Ok declaration ->
  exists parsed text,
    reads data parsed /\ declared_name options = Ok text
    /\ root_depth parsed <= stack_room Inferring
    /\ declaration
       = render_declaration
           (declare text parsed (is_not_false (strict options)) (truthy (readonly options))).
Proof.
  intros Hreturn.
  assert (Hparsed : exists parsed, reads data parsed).
  { destruct data; try (eexists; reflexivity).
    destruct (JSON_parse s) as [parsed|error] eqn:E; [now exists parsed|].
    rewrite (generate_unparsed s error options E) in Hreturn. discriminate. }
  destruct Hparsed as (parsed & Hdata). exists parsed.
  destruct (Nat.le_gt_cases (root_depth parsed) (stack_room Inferring)) as [Hroom|Hroom].
  - destruct (declared_name options) as [text|error] eqn:Hname.
    + exists text. rewrite (generate_returns data parsed options text Hdata Hname Hroom) in Hreturn.
      injection Hreturn as <-. auto.
    + rewrite (generate_unnamed data parsed options error Hdata Hroom Hname) in Hreturn.
      discriminate.
  - rewrite (generate_overflow data parsed options Hdata Hroom) in Hreturn. discriminate.
Qed.

(** C2, as the code has it: the root of [generateInterface] has a case of its
    own for the empty array, which does not look at [strict]; the alias is
    [unknown[]] whatever the options, and changing [strict] changes nothing.
    The name of the alias is the text of [options.name]; when it has none,
    [generate] raises. *)
Theorem generate_empty_array_root (options : TypeGenerationOptions) :
  (forall text,
      declared_name options = Ok text ->
      generate (VArr []) options = Ok ("type " ++ text ++ " = unknown[];"))
  /\ (forall error,
        declared_name options = Throw error ->
        generate (VArr []) options
        = Throw (JsError ("Invalid JSON data: " ++ message_or error "Unknown error")))
  /\ forall strict',
       generate (VArr [])
         {| name := name options; strict := strict'; readonly := readonly options;
            exactOptionalPropertyTypes := exactOptionalPropertyTypes options |}
       = generate (VArr []) options.
Proof.
  assert (Hroom : root_depth (VArr []) <= stack_room Inferring) by apply Nat.le_0_l.
  split; [|split].
  - intros text Hname.
    now rewrite (generate_returns (VArr []) (VArr []) options text eq_refl Hname Hroom).
  - intros error Hname.
    now rewrite (generate_unnamed (VArr []) (VArr []) options error eq_refl Hroom Hname).
  - intros strict'. rewrite !(generate_reads (VArr []) (VArr [])) by reflexivity.
    now rewrite !generateInterface_spec.
Qed.

(** The example of the specification: fields are declared in key order. *)
Lemma generate_user_record :
  generate (VObj [ ("id", VNum 123); ("name", VStr "John Doe");
                   ("roles", VArr [VStr "admin"; VStr "user"]) ])
           {| name := VUndefined; strict := VUndefined; readonly := VUndefined;
              exactOptionalPropertyTypes := VUndefined |}
  = Ok ("interface Generated {" ++ nl
        ++ "  id: number;" ++ nl
        ++ "  name: string;" ++ nl
        ++ "  roles: string[];" ++ nl
        ++ "}").
Proof.
  erewrite generate_returns; [|reflexivity|reflexivity|apply Nat.le_0_l].
  unfold declare, render_declaration, render_field.
  cbn [map key type readonlyFlag fst snd infer render].
  rewrite !inferPrimitiveType_string, inferPrimitiveType_number. reflexivity.
Qed.

(** C5, as the code has it: nested in an object, the array [[1, "a"]] (any
    number, any string) gets the parenthesized union of [number] and [string],
    each once, in order of first occurrence; as the root value of [generate]
    the element type is inferred from the first element alone.  The last two
    parts show the members counted once and ordered by first occurrence.  The
    declarations are those [generate] returns when [options.name] has a text. *)
Theorem infer_number_string_array (n : float) (s key : string) (options : TypeGenerationOptions) :
  let mixed := VArr [VNum n; VStr s] in
  inferType mixed (is_not_false (strict options)) options = Ok "(number | string)[]"
  /\ (forall text,
        declared_name options = Ok text ->
        generate (VObj [(key, mixed)]) options
        = Ok ("interface " ++ text ++ " {" ++ nl
              ++ ("  " ++ (if truthy (readonly options) then "readonly " else EmptyString)
                  ++ safeKey key ++ ": (number | string)[];")
              ++ nl ++ "}"))
  /\ (forall text,
        declared_name options = Ok text ->
        generate mixed options = Ok ("type " ++ text ++ " = number[];"))
  /\ (forall m strict,
        inferType (VArr [VNum n; VStr s; VNum m; VStr s]) strict options
        = Ok "(number | string)[]")
  /\ (forall strict,
        inferType (VArr [VStr s; VNum n]) strict options = Ok "(string | number)[]").
Proof.
  pose proof (inferPrimitiveType_string s) as Hs.
  pose proof (inferPrimitiveType_number n) as Hn.
  assert (Hmixed : forall strict, render (infer (VArr [VNum n; VStr s]) strict)
                                  = "(number | string)[]").
  { intros strict. simpl. rewrite Hs, Hn. reflexivity. }
  cbv zeta. split; [|split; [|split; [|split]]].
  - rewrite inferType_spec. apply (f_equal Ok), Hmixed.
  - intros text Hname.
    rewrite (generate_returns (VObj [(key, VArr [VNum n; VStr s])]) (VObj [(key, VArr [VNum n; VStr s])]) options text
               eq_refl Hname (Nat.le_0_l _)).
    unfold declare, render_declaration, render_field. cbn [map Declaration.key Declaration.type readonlyFlag fst snd].
    rewrite Hmixed. reflexivity.
  - intros text Hname.
    rewrite (generate_returns (VArr [VNum n; VStr s]) (VArr [VNum n; VStr s]) options text
               eq_refl Hname (Nat.le_0_l _)).
    unfold declare, render_declaration. cbn [infer]. rewrite Hn. reflexivity.
  - intros m strict. rewrite inferType_spec. simpl.
    rewrite Hs, Hn, (inferPrimitiveType_number m). reflexivity.
  - intros strict. rewrite inferType_spec. simpl. rewrite Hs, Hn. reflexivity.
Qed.

(** C6, as the code has it: [generate] returns exactly when it reads a value
    (its data, or what a string parses to), [options.name] has a text and the
    call stack has room for the objects nested in the value; what it returns
    is then the declaration of that value.  It raises when its data is a
    string that [JSON.parse] rejects, and also when the value is nested too
    deep or the name has no text; whatever it raises is the invalid-data
    error. *)
Theorem generate_raises_iff (data : value) (options : TypeGenerationOptions) :
  ((exists declaration, generate data options = Ok declaration)
   <-> (exists parsed text,
          reads data parsed /\ declared_name options = Ok text
          /\ root_depth parsed <= stack_room Inferring))
  /\ (forall parsed text,
        reads data parsed -> declared_name options = Ok text ->
        root_depth parsed <= stack_room Inferring ->
        generate data options
        = Ok (render_declaration
                (declare text parsed (is_not_false (strict options))
                   (truthy (readonly options)))))
  /\ (forall text error,
        data = VStr text -> JSON_parse text = Throw error ->
        generate data options
        = Throw (JsError ("Invalid JSON data: " ++ message_or error "Unknown error")))
  /\ (forall parsed,
        reads data parsed -> stack_room Inferring < root_depth parsed ->
        generate data options
        = Throw (JsError ("Invalid JSON data: " ++ RangeError_message)))
  /\ (forall parsed error,
        reads data parsed -> root_depth parsed <= stack_room Inferring ->
        declared_name options = Throw error ->
        generate data options
        = Throw (JsError ("Invalid JSON data: " ++ message_or error "Unknown error")))
  /\ (forall error,
        generate data options = Throw error ->
        exists message, error = JsError ("Invalid JSON data: " ++ message)).
Proof.
  split; [split|split; [|split; [|split; [|split]]]].
  - intros (declaration & Hreturn).
    destruct (generate_returned data options declaration Hreturn)
      as (parsed & text & Hdata & Hname & Hroom & _).
    now exists parsed, text.
  - intros (parsed & text & Hdata & Hname & Hroom).
    rewrite (generate_returns data parsed options text Hdata Hname Hroom). eauto.
  - intros parsed text. apply generate_returns.
  - intros text error -> Htext. now apply generate_unparsed.
  - intros parsed. apply generate_overflow.
  - intros parsed error. apply generate_unnamed.
  - apply generate_raises.
Qed.

(** C10: in an object, the field whose value is an empty array is declared
    [never[]] under [strict] (the default) and [unknown[]] when [strict] is
    [false]; the empty array as root value is [unknown[]] either way.  The
    declarations are those [generate] returns: [options.name] has a text and
    the call stack has room for the other fields. *)
Theorem generate_empty_array_field
  (entries : list (string * value)) (i : nat) (key text : string)
  (options : TypeGenerationOptions) :
  nth_error entries i = Some (key, VArr []) ->
  declared_name options = Ok text ->
  root_depth (VObj entries) <= stack_room Inferring ->
  exists fields,
    generate (VObj entries) options
    = Ok ("interface " ++ text ++ " {" ++ nl ++ join nl fields ++ nl ++ "}")
    /\ length fields = length entries
    /\ nth_error fields i
       = Some ("  " ++ (if truthy (readonly options) then "readonly " else EmptyString)
               ++ safeKey key ++ ": "
               ++ (if is_not_false (strict options) then "never[]" else "unknown[]") ++ ";")
    /\ generate (VArr []) options = Ok ("type " ++ text ++ " = unknown[];").
Proof.
  intros Hi Hname Hroom. eexists. split; [|split; [|split]].
  - rewrite (generate_returns (VObj entries) (VObj entries) options text eq_refl Hname Hroom).
    unfold declare, render_declaration. reflexivity.
  - now rewrite !length_map.
  - rewrite !nth_error_map, Hi. unfold render_field. simpl.
    destruct (is_not_false (strict options)); reflexivity.
  - now rewrite (generate_returns (VArr []) (VArr []) options text eq_refl Hname (Nat.le_0_l _)).
Qed.

End Generate.

(** ** Keys, primitive types and arrays *)

Section Inference.
Context {rt : Runtime}.
Import Regex TypeGenerator Declaration Shapes.

Lemma length_append (a b : string) : String.length (a ++ b) = (String.length a + String.length b)%nat.
Proof. induction a as [|c a IH]; simpl; [reflexivity | now rewrite IH]. Qed.

Lemma identifier_shape (key : string) :
  matches (Cat (Cls ident_start) (Star (Cls ident_part))) key = true
  <-> exists c rest, key = String c rest /\ ident_start c = true
                     /\ all_bytes ident_part rest = true.
Proof.
  rewrite matches_spec. simpl. split.
  - intros (u & v & -> & (c & -> & Hc) & Hv). apply star_cls in Hv. now exists c, v.
  - intros (c & rest & -> & Hc & Hrest). exists (String c EmptyString), rest.
    repeat split; [now exists c | now apply star_cls].
Qed.

(** X1: a key is written without quotes exactly when it is an identifier (a
    letter, [_] or [$], then letters, digits, [_] and [$]) that is not one of
    the reserved words; any other key, the empty key too, is written between
    double quotes. *)
Theorem safeKey_unquoted_iff (key : string) :
  let identifier :=
    exists c rest, key = String c rest /\ ident_start c = true
                   /\ all_bytes ident_part rest = true in
  (needsQuotes key = false <-> identifier /\ ~ In key reserved)
  /\ (safeKey key = key <-> identifier /\ ~ In key reserved)
  /\ (safeKey key <> key -> safeKey key = dq ++ key ++ dq).
Proof.
  cbv zeta.
  assert (Hneeds : needsQuotes key = false
                   <-> (exists c rest, key = String c rest /\ ident_start c = true
                                       /\ all_bytes ident_part rest = true)
                       /\ ~ In key reserved).
  { unfold needsQuotes, isReservedWord. rewrite orb_false_iff, negb_false_iff.
    rewrite identifier_shape. rewrite <- existsb_eqb_In.
    destruct (existsb (String.eqb key) reserved); split; intros [Hs Hr];
      (split; [exact Hs|]); congruence. }
  split; [exact Hneeds|]. unfold safeKey. destruct (needsQuotes key) eqn:E.
  - assert (Hquoted : dq ++ key ++ dq <> key).
    { intros Heq. apply (f_equal String.length) in Heq.
      rewrite !length_append in Heq. simpl in Heq. lia. }
    split; [|reflexivity]. split; [contradiction|].
    intros H0. apply Hneeds in H0. discriminate.
  - split; [|intros Hne; now destruct Hne]. split; [intros _; now apply Hneeds | reflexivity].
Qed.

Lemma inferPrimitiveType_tag (v : value) : inferPrimitiveType v = type_of_tag (typeof v).
Proof.
  destruct v; try reflexivity.
  - apply inferPrimitiveType_number.
  - apply inferPrimitiveType_string.
Qed.

(** X2: [inferPrimitiveType] depends on the [typeof] of its argument alone:
    what [isURL], [isEmail] and [isUUID] answer for a string, and whether a
    number is an integer, never changes the result; [null], arrays and objects
    are [unknown]. *)
Theorem inferPrimitiveType_by_typeof (v w : value) :
  (typeof v = typeof w -> inferPrimitiveType v = inferPrimitiveType w)
  /\ (forall s, inferPrimitiveType (VStr s) = "string")
  /\ (forall n, inferPrimitiveType (VNum n) = "number")
  /\ (typeof v = TObject -> inferPrimitiveType v = "unknown").
Proof.
  repeat split.
  - intros Htag. now rewrite !inferPrimitiveType_tag, Htag.
  - apply inferPrimitiveType_string.
  - apply inferPrimitiveType_number.
  - intros Htag. now rewrite inferPrimitiveType_tag, Htag.
Qed.

Lemma filter_none {A : Type} (f : A -> bool) (l : list A) :
  (forall x, In x l -> f x = false) -> filter f l = [].
Proof.
  induction l as [|x l IH]; intros Hl; simpl; [reflexivity|].
  rewrite (Hl x) by now left. apply IH. intros y Hy. apply Hl. now right.
Qed.

Lemma Set_of_constant (t : string) (l : list string) :
  l <> [] -> (forall x, In x l -> x = t) -> Set_of l = [t].
Proof.
  destruct l as [|x l]; [now intros H0|]. intros _ Hall.
  rewrite Set_of_cons, (Hall x) by now left.
  rewrite filter_none; [reflexivity|].
  intros y Hy. rewrite (Hall y) by now right. now rewrite String.eqb_refl.
Qed.

Lemma inferType_array (first : value) (rest : list value) (strict : bool)
  (options : TypeGenerationOptions) :
  inferType (VArr (first :: rest)) strict options
  = let types := Set_of (map inferPrimitiveType (first :: rest)) in
    if (length types =? 1)%nat then Ok (nth 0 types "undefined" ++ "[]")
    else Ok ("(" ++ join " | " types ++ ")[]").
Proof. reflexivity. Qed.

(** X3: a non-empty array whose elements all have the same primitive type is
    declared an array of that type; in particular an array of objects, arrays
    or [null]s is [unknown[]], whatever the elements hold. *)
Theorem inferType_homogeneous_array
  (items : list value) (t : string) (strict : bool) (options : TypeGenerationOptions) :
  items <> [] ->
  (forall v, In v items -> inferPrimitiveType v = t) ->
  inferType (VArr items) strict options = Ok (t ++ "[]").
Proof.
  intros Hne Hall. destruct items as [|first rest]; [now destruct Hne|].
  rewrite inferType_array. cbv zeta.
  rewrite (Set_of_constant t); [reflexivity | discriminate |].
  intros x Hx. apply in_map_iff in Hx as (v & <- & Hv). now apply Hall.
Qed.

(** X4: the type of an array is decided by the [typeof] of its elements: two
    arrays with the same sequence of tags get the same type, so nothing inside
    an element (the fields of an object, the elements of a nested array) is
    ever looked at. *)
Theorem inferType_array_by_typeof
  (items items' : list value) (strict : bool) (options : TypeGenerationOptions) :
  map typeof items = map typeof items' ->
  inferType (VArr items) strict options = inferType (VArr items') strict options.
Proof.
  intros Htags.
  assert (Htypes : map inferPrimitiveType items = map inferPrimitiveType items').
  { rewrite (map_ext _ _ inferPrimitiveType_tag items),
            (map_ext _ _ inferPrimitiveType_tag items').
    now rewrite <- !(map_map typeof type_of_tag), Htags. }
  assert (Hlen : length items = length items').
  { now rewrite <- (length_map typeof items), Htags, length_map. }
  unfold inferType. cbn [inferType_at]. now rewrite Htypes, Hlen.
Qed.

(** X5: the members of the element type of a non-empty array are the primitive
    types of its elements, each once, the type of the first element first; one
    member is written bare, several as a parenthesized union. *)
Theorem inferType_array_members
  (first : value) (rest : list value) (strict : bool) (options : TypeGenerationOptions) :
  exists others,
    let members := inferPrimitiveType first :: others in
    NoDup members
    /\ (forall t, In t members <-> exists v, In v (first :: rest) /\ inferPrimitiveType v = t)
    /\ inferType (VArr (first :: rest)) strict options
       = Ok match others with
            | [] => inferPrimitiveType first ++ "[]"
            | _ => "(" ++ join " | " members ++ ")[]"
            end.
Proof.
  destruct (Set_of_head (inferPrimitiveType first) (map inferPrimitiveType rest))
    as (others & Hset).
  destruct (Set_of_spec (map inferPrimitiveType (first :: rest))) as (Hnodup & Hin).
  change (map inferPrimitiveType (first :: rest))
    with (inferPrimitiveType first :: map inferPrimitiveType rest) in Hnodup, Hin.
  rewrite Hset in Hnodup, Hin.
  exists others. cbv zeta. split; [exact Hnodup|]. split.
  - intros t. rewrite Hin.
    change (inferPrimitiveType first :: map inferPrimitiveType rest)
      with (map inferPrimitiveType (first :: rest)).
    rewrite in_map_iff. split; intros (v & Hv1 & Hv2); exists v; now split.
  - rewrite inferType_array. cbv zeta.
    change (map inferPrimitiveType (first :: rest))
      with (inferPrimitiveType first :: map inferPrimitiveType rest).
    rewrite Hset. destruct others as [|t others]; reflexivity.
Qed.

(** X6: [inferType] never reads its options: [readonly] and [name] act on the
    top level of the declaration only, and the fields of a nested object are
    never marked [readonly]. *)
Theorem inferType_ignores_options
  (v : value) (strict : bool) (options options' : TypeGenerationOptions) :
  inferType v strict options = inferType v strict options'.
Proof.
  rewrite (inferType_spec v strict options).
  now rewrite (inferType_spec v strict options').
Qed.

Lemma infer_strict_irrelevant (v : value) :
  reads_strict v = false -> infer v true = infer v false.
Proof.
  induction v as [| |b|n|s|items IH|entries IH] using value_ind; try reflexivity.
  - discriminate.
  - destruct items; [discriminate | reflexivity].
  - cbn [infer reads_strict]. intros Hentries. f_equal.
    induction IH as [|kv entries Hkv _ IHentries]; [reflexivity|].
    cbn [existsb map] in *. apply orb_false_iff in Hentries as [H1 H2].
    now rewrite (Hkv H1), (IHentries H2).
Qed.

Lemma inferType_strict_irrelevant (v : value) (options : TypeGenerationOptions) :
  reads_strict v = false ->
  inferType v true options = inferType v false options.
Proof.
  intros Hv. rewrite !inferType_spec. now rewrite (infer_strict_irrelevant v Hv).
Qed.

Lemma declare_strict_irrelevant (text : string) (obj : value) (readonly : bool) :
  root_reads_strict obj = false ->
  declare text obj true readonly = declare text obj false readonly.
Proof.
  destruct obj as [| |b|n|s|items|entries]; try reflexivity.
  - destruct items as [|first items]; [reflexivity|]. cbn [root_reads_strict declare].
    intros Hfirst. now rewrite (infer_strict_irrelevant first Hfirst).
  - cbn [root_reads_strict reads_strict declare]. intros Hentries. f_equal.
    induction entries as [|kv entries IH]; [reflexivity|].
    cbn [existsb map] in *. apply orb_false_iff in Hentries as [H1 H2].
    now rewrite (infer_strict_irrelevant (snd kv) H1), (IH H2).
Qed.

(** X7: [strict] changes the declaration only through a [null] or an empty
    array met at the top of a value or in a field of an object: when the
    first element of a root array, or the fields of a root object, hold none,
    and also when the root itself is [null] or an empty array, the
    declaration is the same with and without [strict]. *)
Theorem generateInterface_strict_irrelevant
  (name obj : value) (options : TypeGenerationOptions) :
  root_reads_strict obj = false ->
  generateInterface name obj true options = generateInterface name obj false options.
Proof.
  intros Hobj. rewrite !generateInterface_spec.
  destruct (ToString name) as [text|e]; [|reflexivity].
  cbn [bind]. now rewrite (declare_strict_irrelevant text obj _ Hobj).
Qed.

(** X8: [generate] on a JSON text is [generate] on the value the text parses
    to, unless that value is itself a string, which is then declared a
    [string] instead of being parsed again; a text that does not parse raises
    the invalid-data error with the message of the parser, and so does a name
    that has no text. *)
Theorem generate_text_is_generate_parsed (text : string) (options : TypeGenerationOptions) :
  generate (VStr text) options
  = match JSON_parse text with
    | Ok (VStr _) =>
        match declared_name options with
        | Ok name => Ok ("type " ++ name ++ " = string;")
        | Throw error =>
            Throw (JsError ("Invalid JSON data: " ++ message_or error "Unknown error"))
        end
    | Ok parsed => generate parsed options
    | Throw error =>
        Throw (JsError ("Invalid JSON data: " ++ message_or error "Unknown error"))
    end.
Proof.
  destruct (JSON_parse text) as [parsed|error] eqn:E;
    [|now apply generate_unparsed].
  rewrite (generate_reads (VStr text) parsed options E).
  destruct parsed;
    try (match goal with
         | |- _ = generate ?d _ => now rewrite (generate_reads d d options eq_refl)
         end).
  rewrite generateInterface_spec, declared_name_ToString.
  cbn [root_depth Nat.leb]. destruct (ToString _) as [name|error]; [|reflexivity].
  cbn [bind try_catch declare render_declaration infer render].
  now rewrite inferPrimitiveType_string.
Qed.

(** X9: at the root, only the first element of an array is typed: the rest of
    the array never changes what [generate] does, and when [generate] returns
    the element type is written without parentheses. *)
Theorem generate_root_array_first_element
  (first : value) (rest rest' : list value) (options : TypeGenerationOptions) :
  generate (VArr (first :: rest)) options = generate (VArr (first :: rest')) options
  /\ (forall name type,
        declared_name options = Ok name ->
        inferType first (is_not_false (strict options)) options = Ok type ->
        generate (VArr (first :: rest)) options
        = Ok ("type " ++ name ++ " = " ++ type ++ "[];")).
Proof.
  split.
  - rewrite (generate_reads (VArr (first :: rest)) (VArr (first :: rest)) options eq_refl).
    rewrite (generate_reads (VArr (first :: rest')) (VArr (first :: rest')) options eq_refl).
    now rewrite !generateInterface_spec.
  - intros name type Hname Htype.
    rewrite (generate_reads (VArr (first :: rest)) (VArr (first :: rest)) options eq_refl).
    unfold generateInterface. cbn [length Nat.eqb nth]. rewrite Htype. cbn [bind].
    rewrite declared_name_ToString in Hname. now rewrite Hname.
Qed.

(** A key that holds a double quote needs quotes. *)
Lemma all_bytes_app (p : ascii -> bool) (u v : string) :
  all_bytes p (u ++ v) = all_bytes p u && all_bytes p v.
Proof.
  induction u as [|c u IH]; [reflexivity|].
  cbn [append all_bytes]. now rewrite IH, andb_assoc.
Qed.

Lemma needsQuotes_quote (a b : string) : needsQuotes (a ++ dq ++ b) = true.
Proof.
  unfold needsQuotes. apply orb_true_iff. left. apply negb_true_iff.
  destruct (matches _ (a ++ dq ++ b)) eqn:E; [|reflexivity].
  apply identifier_shape in E as (c & rest & Hkey & Hc & Hrest).
  assert (Hall : all_bytes ident_part (a ++ dq ++ b) = true).
  { rewrite Hkey. cbn [all_bytes]. rewrite Hrest, andb_true_r.
    unfold ident_start in Hc. unfold ident_part.
    repeat (apply orb_true_iff in Hc as [Hc|Hc]); rewrite Hc;
      now rewrite ?orb_true_r. }
  rewrite all_bytes_app in Hall. apply andb_true_iff in Hall as [_ Hquote].
  discriminate.
Qed.

(** C7, where the code fails it: a key that needs quotes is written between
    double quotes as it comes, and the name is written as it comes.  A key
    that holds a double quote closes the quotes, and what follows it in the
    key is read as a type: the field declared below has the type [any].  A
    name can do the same to an alias. *)
Theorem generate_renders_any (a b : string) (n : float) :
  generate (VObj [ (a ++ dq ++ ": any; " ++ dq ++ b, VNum n) ]) Example.no_options
  = Ok ("interface Generated {" ++ nl
        ++ "  " ++ dq ++ a ++ dq ++ ": any; " ++ dq ++ b ++ dq ++ ": number;" ++ nl
        ++ "}")
  /\ generate VNull (Example.named (VStr "T = any; type U"))
     = Ok "type T = any; type U = null;".
Proof.
  split.
  - rewrite (generate_returns (VObj [ (a ++ dq ++ ": any; " ++ dq ++ b, VNum n) ])
               (VObj [ (a ++ dq ++ ": any; " ++ dq ++ b, VNum n) ])
               Example.no_options "Generated" eq_refl eq_refl (Nat.le_0_l _)).
    unfold declare, render_declaration, render_field, safeKey.
    cbn [map Declaration.key Declaration.type readonlyFlag fst snd infer render].
    rewrite needsQuotes_quote, inferPrimitiveType_number.
    cbn [Example.no_options readonly truthy join String.concat].
    now rewrite !append_assoc.
  - now rewrite (generate_returns VNull VNull (Example.named (VStr "T = any; type U"))
                   "T = any; type U" eq_refl eq_refl (Nat.le_0_l _)).
Qed.

(** X24: whenever [generate] returns, its text is the text of a declaration
    whose types are all concrete: [any] is none of them.  The property is
    about the types the generator infers; the name and the keys are copied
    into the text as they come. *)
Theorem inferred_types_are_concrete
  (data : value) (options : TypeGenerationOptions) (text : string) :
  generate data options = Ok text ->
  exists parsed name,
    reads data parsed /\ declared_name options = Ok name
    /\ text = render_declaration
                (declare name parsed (is_not_false (strict options))
                   (truthy (readonly options)))
    /\ (forall a,
          In a (declared_type_names
                  (declare name parsed (is_not_false (strict options))
                     (truthy (readonly options)))) ->
          In a concrete_types)
    /\ ~ In "any" (declared_type_names
                     (declare name parsed (is_not_false (strict options))
                        (truthy (readonly options)))).
Proof.
  intros Htext.
  destruct (generate_returned data options text Htext)
    as (parsed & name & Hdata & Hname & _ & Hrender).
  exists parsed, name. repeat split; try assumption.
  - apply declare_concrete.
  - intros Hany. apply declare_concrete in Hany. now apply any_is_not_concrete.
Qed.

End Inference.

(** ** The dispatch loop *)

Section Dispatch.
Context {rt : Runtime}.
Variable snippet : string -> string -> string.
Import TSPilotMCP Shapes.

Lemma prop_get (v : value) (key : string) :
  nullish v = false -> prop v key = Ok (get v key).
Proof. destruct v; simpl; intros Hv; try reflexivity; discriminate. Qed.

Lemma destructure_ok (v : value) : nullish v = false -> destructure v = Ok tt.
Proof. destruct v; simpl; intros Hv; try reflexivity; discriminate. Qed.

Lemma destructure_nullish (v : value) :
  nullish v = true -> destructure v = Throw (TypeError (DestructureNullish v)).
Proof. destruct v; simpl; intros Hv; try reflexivity; discriminate. Qed.

Lemma get_defined_not_nullish (v : value) (key : string) :
  get v key <> VUndefined -> nullish v = false.
Proof. destruct v; simpl; intros Hv; try reflexivity; now destruct Hv. Qed.

Lemma is_string_false (v : value) (literal : string) :
  v <> VStr literal -> is_string v literal = false.
Proof.
  destruct v; simpl; intros Hv; try reflexivity.
  destruct (String.eqb_spec s literal) as [->|]; [now destruct Hv | reflexivity].
Qed.

Lemma is_string_true (v : value) (literal : string) :
  is_string v literal = true -> v = VStr literal.
Proof.
  destruct v; simpl; try discriminate. intros E. apply String.eqb_eq in E. now subst.
Qed.

Lemma not_in_names (v : value) (names : list string) :
  ~ In v (map VStr names) -> forall literal, In literal names -> is_string v literal = false.
Proof.
  intros Hv literal Hin. apply is_string_false. intros ->.
  apply Hv. now apply in_map.
Qed.

Lemma success_outcome (id content : value) :
  TSPilotMCP.id (success id content) = id /\ has_outcome (success id content).
Proof. split; [reflexivity | left; eexists; split; reflexivity]. Qed.

Lemma failure_outcome (id : value) (code : Z) (message : string) :
  TSPilotMCP.id (failure id code message) = id /\ has_outcome (failure id code message).
Proof. split; [reflexivity | right; do 2 eexists; split; reflexivity]. Qed.

(** [callTool] raises only when the request has no parameters to take apart,
    and otherwise answers with the identifier of the request: a result, or
    the error -32603 when the handler raised. *)
Lemma callTool_spec (request : value) :
  nullish request = false ->
  (nullish (get request "params") = true
   /\ callTool snippet request
      = Throw (TypeError (DestructureNullish (get request "params"))))
  \/ (nullish (get request "params") = false
      /\ ((exists content, callTool snippet request = Ok (success (get request "id") content))
          \/ (exists message,
                callTool snippet request
                = Ok (failure (get request "id") (-32603) message)))).
Proof.
  intros Hrequest. unfold callTool. rewrite !prop_get by assumption. simpl bind.
  destruct (nullish (get request "params")) eqn:Hparams.
  - left. split; [reflexivity|]. now rewrite destructure_nullish.
  - right. split; [reflexivity|]. rewrite destructure_ok by assumption. simpl bind.
    match goal with
    | |- context [try_catch (bind ?handler _) _] => destruct handler as [text|thrown]
    end; simpl; [left | right]; eexists; reflexivity.
Qed.

(** What [handleRequest] returns for a request that is not [null]: the empty
    object for the initialization notice, a result, the error -32603 for a
    failure inside [tools/call], and for a method that is none of the four
    the error -32601, or -32603 when the method has no text to put in the
    message. *)
Lemma handleRequest_spec (request : value) :
  nullish request = false ->
  let id := get request "id" in
  let method := get request "method" in
  (method = VStr "notifications/initialized"
   /\ handleRequest snippet request = Ok empty_response)
  \/ (method <> VStr "notifications/initialized" /\ In method (map VStr method_names)
      /\ exists content, handleRequest snippet request = Ok (success id content))
  \/ (method = VStr "tools/call"
      /\ exists message, handleRequest snippet request = Ok (failure id (-32603) message))
  \/ (~ In method (map VStr method_names)
      /\ exists shown,
           ToString method = Ok shown
           /\ handleRequest snippet request
              = Ok (failure id (-32601) ("Method not found: " ++ shown)))
  \/ (~ In method (map VStr method_names)
      /\ exists error,
           ToString method = Throw error
           /\ handleRequest snippet request
              = Ok (failure id (-32603) (message_or error "Internal error"))).
Proof.
  intros Hrequest. cbv zeta. unfold handleRequest, initialize, listTools.
  rewrite !prop_get by assumption. simpl bind.
  destruct (is_string (get request "method") "initialize") eqn:H1.
  { apply is_string_true in H1. rewrite H1. right. left.
    split; [discriminate|]. split; [simpl; tauto|]. simpl. eexists. reflexivity. }
  destruct (is_string (get request "method") "notifications/initialized") eqn:H2.
  { apply is_string_true in H2. left. now split. }
  assert (Hnotice : get request "method" <> VStr "notifications/initialized").
  { intros E. rewrite E in H2. discriminate. }
  destruct (is_string (get request "method") "tools/list") eqn:H3.
  { apply is_string_true in H3. right. left. split; [assumption|]. rewrite H3.
    split; [simpl; tauto|]. simpl. eexists. reflexivity. }
  destruct (is_string (get request "method") "tools/call") eqn:H4.
  { apply is_string_true in H4.
    destruct (callTool_spec request Hrequest)
      as [(_ & ->)|(_ & [(content & ->)|(message & ->)])]; simpl.
    - right. right. left. split; [assumption|]. eexists. reflexivity.
    - right. left. split; [assumption|]. rewrite H4. split; [simpl; tauto|].
      eexists. reflexivity.
    - right. right. left. split; [assumption|]. eexists. reflexivity. }
  assert (Hunknown : ~ In (get request "method") (map VStr method_names)).
  { simpl. intros [E|[E|[E|[E|[]]]]]; rewrite <- E in *; discriminate. }
  destruct (ToString (get request "method")) as [shown|error] eqn:Hshown.
  - right. right. right. left. split; [exact Hunknown|]. now exists shown.
  - right. right. right. right. split; [exact Hunknown|]. now exists error.
Qed.

(** [handleRequest] raises nothing on a request that is not [null]. *)
Lemma handleRequest_returns (request : value) :
  nullish request = false -> exists response, handleRequest snippet request = Ok response.
Proof.
  intros Hrequest.
  destruct (handleRequest_spec request Hrequest)
    as [(_ & E)|[(_ & _ & content & E)|[(_ & message & E)
       |[(_ & shown & _ & E)|(_ & error & _ & E)]]]]; eauto.
Qed.

(** A response to anything but the initialization notice carries the
    identifier of the request and a result or an error. *)
Lemma handleRequest_outcome (request : value) (response : MCPResponse) :
  nullish request = false ->
  get request "method" <> VStr "notifications/initialized" ->
  handleRequest snippet request = Ok response ->
  jsonrpc response = Some "2.0"
  /\ id response = get request "id" /\ has_outcome response.
Proof.
  intros Hrequest Hmethod Hresponse.
  destruct (handleRequest_spec request Hrequest)
    as [(E & _)|[(_ & _ & content & E)|[(_ & message & E)
       |[(_ & shown & _ & E)|(_ & error & _ & E)]]]];
    [contradiction|..]; rewrite E in Hresponse; injection Hresponse as <-;
    (split; [reflexivity|]);
    first [apply success_outcome | apply failure_outcome].
Qed.

(** The line handler writes its response, when the request has an identifier. *)
Lemma handled_spec (request : value) (response : MCPResponse) :
  nullish request = false ->
  handleRequest snippet request = Ok response ->
  handled snippet request
  = if is_undefined (get request "id") then [] else written response.
Proof.
  intros Hrequest Hresponse. unfold handled, on_request.
  rewrite prop_get by assumption. cbn [bind]. rewrite Hresponse.
  destruct (is_undefined (get request "id")); [reflexivity|].
  cbn [bind]. unfold JSON_stringify, written. rewrite JSON_stringify_at_spec.
  now destruct (nesting (response_value response) <=? stack_room Serializing)%nat.
Qed.

Lemma is_undefined_false (v : value) : v <> VUndefined -> is_undefined v = false.
Proof. destruct v; intros Hv; try reflexivity. now destruct Hv. Qed.

Lemma on_line_parsed (line : string) (request : value) :
  JSON_parse line = Ok request -> on_line snippet line = handled snippet request.
Proof. intros E. unfold on_line, handled. now rewrite E. Qed.

Lemma on_line_unparsed (line : string) (error : thrown) :
  JSON_parse line = Throw error ->
  on_line snippet line = [ Stderr "Error processing request:" error ].
Proof. intros E. unfold on_line. now rewrite E. Qed.

(** One thing is written for a response: a line when the call stack has room
    for it, a report otherwise. *)
Lemma written_once (response : MCPResponse) :
  length (written response) = 1%nat
  /\ (nesting (response_value response) <= stack_room Serializing
      <-> exists line, written response = [ Stdout line ]).
Proof.
  unfold written.
  destruct (Nat.leb_spec (nesting (response_value response)) (stack_room Serializing))
    as [Hroom|Hroom].
  - split; [reflexivity|]. split; [intros _; eexists; reflexivity | intros _; exact Hroom].
  - split; [reflexivity|]. split; [lia | intros (line & Hline); discriminate].
Qed.

Lemma JSON_text_defined (v : value) :
  v <> VUndefined -> exists text, JSON_text v = Some text.
Proof.
  destruct v as [| |[|]|n|s|items|entries]; intros Hv;
    first [now destruct Hv | eexists; reflexivity].
Qed.

(** The line of a response that carries an identifier starts with the
    version and the identifier. *)
Lemma response_text (response : MCPResponse) (text : string) :
  jsonrpc response = Some "2.0" ->
  JSON_text (id response) = Some text ->
  exists rest,
    JSON_text (response_value response)
    = Some ("{" ++ JSON_quote "jsonrpc" ++ ":" ++ JSON_quote "2.0" ++ ","
            ++ JSON_quote "id" ++ ":" ++ text ++ rest).
Proof.
  intros Hversion Hid. unfold response_value. rewrite Hversion.
  cbn [app JSON_text map fst snd concat]. rewrite Hid. cbn [JSON_member app].
  match goal with
  | |- context [concat ?l] => generalize (concat l)
  end.
  intros members. exists (match members with
                          | [] => EmptyString
                          | _ => "," ++ join "," members
                          end ++ "}").
  f_equal. destruct members as [|member members]; cbn [join String.concat].
  - now rewrite !append_assoc.
  - now rewrite !append_assoc.
Qed.

(** C3, as the code has it: for a request with an identifier the line
    handler writes one thing, whatever the method: the line of the response
    of [handleRequest], or, when the call stack has no room to serialize it,
    a report on the standard error and no line.  The response to
    [notifications/initialized] is the empty object; every other response
    carries the identifier of the request and either a result or an error
    with its code and message, and its line starts with the version and the
    text [JSON.stringify] gives the identifier. *)
Theorem request_with_id_gets_one_response (request : value) :
  get request "id" <> VUndefined ->
  exists response,
    handleRequest snippet request = Ok response
    /\ handled snippet request = written response
    /\ (forall line, JSON_parse line = Ok request -> on_line snippet line = written response)
    /\ length (written response) = 1%nat
    /\ (nesting (response_value response) <= stack_room Serializing
        <-> exists line, handled snippet request = [ Stdout line ])
    /\ (get request "method" = VStr "notifications/initialized" ->
        response = empty_response)
    /\ (get request "method" <> VStr "notifications/initialized" ->
        id response = get request "id"
        /\ has_outcome response
        /\ exists text rest,
             JSON_text (get request "id") = Some text
             /\ JSON_text (response_value response)
                = Some ("{" ++ JSON_quote "jsonrpc" ++ ":" ++ JSON_quote "2.0" ++ ","
                        ++ JSON_quote "id" ++ ":" ++ text ++ rest)).
Proof.
  intros Hid. pose proof (get_defined_not_nullish _ _ Hid) as Hrequest.
  destruct (handleRequest_returns request Hrequest) as (response & Hresponse).
  assert (Hhandled : handled snippet request = written response).
  { rewrite (handled_spec request response Hrequest Hresponse).
    now rewrite (is_undefined_false _ Hid). }
  exists response. split; [exact Hresponse|]. split; [exact Hhandled|].
  split; [|split; [|split; [|split]]].
  - intros line Hline. now rewrite (on_line_parsed line request Hline).
  - apply written_once.
  - rewrite Hhandled. apply written_once.
  - intros Hmethod.
    destruct (handleRequest_spec request Hrequest)
      as [(_ & E)|[(Hno & _)|[(E & _)|[(Hno & _)|(Hno & _)]]]].
    + rewrite E in Hresponse. now injection Hresponse as <-.
    + contradiction.
    + rewrite E in Hmethod. discriminate.
    + destruct Hno. rewrite Hmethod. simpl. tauto.
    + destruct Hno. rewrite Hmethod. simpl. tauto.
  - intros Hmethod.
    destruct (handleRequest_outcome request response Hrequest Hmethod Hresponse)
      as (Hversion & Hsame & Houtcome).
    split; [exact Hsame|]. split; [exact Houtcome|].
    destruct (JSON_text_defined _ Hid) as (text & Htext). exists text.
    rewrite <- Hsame in Htext.
    destruct (response_text response text Hversion Htext) as (rest & Hrest).
    exists rest. rewrite <- Hsame. now split.
Qed.

(** C8: a request without an identifier puts nothing on the standard output,
    whatever its handler does; when the request is not [null] nothing is
    written at all. *)
Theorem notification_emits_no_response (request : value) :
  get request "id" = VUndefined ->
  emitted (handled snippet request) = []
  /\ (forall line, JSON_parse line = Ok request -> emitted (on_line snippet line) = [])
  /\ (nullish request = false -> handled snippet request = []).
Proof.
  intros Hid.
  assert (Hhandled : emitted (handled snippet request) = []
                     /\ (nullish request = false -> handled snippet request = [])).
  { destruct (nullish request) eqn:Hrequest.
    - split; [|discriminate]. unfold handled, on_request.
      destruct request; try discriminate; reflexivity.
    - destruct (handleRequest_returns request Hrequest) as (response & Hresponse).
      rewrite (handled_spec request response Hrequest Hresponse), Hid. now split. }
  destruct Hhandled as [Hnone Hsilent]. split; [exact Hnone|]. split; [|exact Hsilent].
  intros line Hline. now rewrite (on_line_parsed line request Hline).
Qed.

(** C4, as the code has it: a request whose method is none of the four the
    server knows is answered with the error -32601 and a message that names
    the method; a [tools/call] whose tool is none of the six is answered with
    -32603, the code of the failures inside a handler, and a message that
    names the tool.  A method or a tool that has no text (an object with a
    property [toString]) makes the message fail, which is answered with
    -32603 too.  The two codes are negative and differ, and no error has
    another code. *)
Theorem unknown_method_and_unknown_tool (request : value) :
  nullish request = false ->
  (~ In (get request "method") (map VStr method_names) ->
   (forall shown,
       ToString (get request "method") = Ok shown ->
       handleRequest snippet request
       = Ok (failure (get request "id") (-32601) ("Method not found: " ++ shown)))
   /\ (forall error,
         ToString (get request "method") = Throw error ->
         handleRequest snippet request
         = Ok (failure (get request "id") (-32603) (message_or error "Internal error"))))
  /\ (get request "method" = VStr "tools/call" ->
      nullish (get request "params") = false ->
      ~ In (get (get request "params") "name") (map VStr tool_names) ->
      (forall shown,
          ToString (get (get request "params") "name") = Ok shown ->
          handleRequest snippet request
          = Ok (failure (get request "id") (-32603) ("Unknown tool: " ++ shown)))
      /\ (forall error,
            ToString (get (get request "params") "name") = Throw error ->
            handleRequest snippet request
            = Ok (failure (get request "id") (-32603)
                    (message_or error "Tool execution failed"))))
  /\ (forall response failed,
        handleRequest snippet request = Ok response ->
        error response = Some failed ->
        (code failed = (-32601)%Z
         /\ ~ In (get request "method") (map VStr method_names)
         /\ exists shown, ToString (get request "method") = Ok shown)
        \/ (code failed = (-32603)%Z
            /\ (get request "method" = VStr "tools/call"
                \/ (~ In (get request "method") (map VStr method_names)
                    /\ exists error, ToString (get request "method") = Throw error))))
  /\ (-32601 < 0 /\ -32603 < 0 /\ -32601 <> -32603)%Z.
Proof.
  intros Hrequest. split; [|split; [|split; [|lia]]].
  - intros Hmethod. pose proof (not_in_names _ _ Hmethod) as Hno.
    split; intros shown Hshown; unfold handleRequest;
      rewrite !prop_get by assumption; simpl bind;
      rewrite !Hno by (simpl; tauto); now rewrite Hshown.
  - intros Hmethod Hparams Hname. pose proof (not_in_names _ _ Hname) as Hno.
    split; intros shown Hshown; unfold handleRequest, callTool;
      rewrite !prop_get by assumption; simpl bind;
      rewrite Hmethod; cbn [is_string String.eqb Ascii.eqb Bool.eqb];
      rewrite destructure_ok by assumption; simpl bind;
      rewrite !Hno by (simpl; tauto); now rewrite Hshown.
  - intros response failed Hresponse Hfailed.
    destruct (handleRequest_spec request Hrequest)
      as [(_ & E)|[(_ & _ & content & E)|[(Hcall & message & E)
         |[(Hunknown & shown & Hshown & E)|(Hunknown & thrown & Hthrown & E)]]]];
      rewrite E in Hresponse; injection Hresponse as <-; simpl in Hfailed;
      try discriminate; injection Hfailed as <-.
    + right. split; [reflexivity|]. now left.
    + left. split; [reflexivity|]. split; [exact Hunknown|]. now exists shown.
    + right. split; [reflexivity|]. right. split; [exact Hunknown|]. now exists thrown.
Qed.

End Dispatch.

(** ** Messages of the expected shape *)

Section Captured.
Context {rt : Runtime}.
Import Regex TypeGenerator Shapes.

Lemma includes_middle (a p b : string) : includes (a ++ p ++ b) p = true.
Proof. apply includes_spec. eauto. Qed.

(** A prefix that does not hold the first letter of the pattern is skipped. *)
Lemma search_skips {C : Type} (here : string -> option C) (a : ascii) (before m : string) :
  (forall c s, Ascii.eqb c a = false -> here (String c s) = None) ->
  all_bytes (is_not a) before = true ->
  search here (before ++ m) = search here m.
Proof.
  intros Hhere. induction before as [|c before IH]; [reflexivity|].
  simpl. unfold is_not at 1. rewrite andb_true_iff, negb_true_iff. intros [Hc Hbefore].
  rewrite (Hhere c _ Hc). now apply IH.
Qed.

Lemma search_here {C : Type} (here : string -> option C) (m : string) (c : C) :
  here m = Some c -> search here m = Some c.
Proof. intros Hm. destruct m; simpl; now rewrite Hm. Qed.

Lemma property_here_first (c : ascii) (s : string) :
  Ascii.eqb c "P" = false -> property_here (String c s) = None.
Proof.
  intros Hc. unfold property_here. cbn [strip_prefix]. rewrite Ascii.eqb_sym, Hc. reflexivity.
Qed.

Lemma name_here_first (c : ascii) (s : string) :
  Ascii.eqb c "C" = false -> name_here (String c s) = None.
Proof.
  intros Hc. unfold name_here. cbn [strip_prefix]. rewrite Ascii.eqb_sym, Hc. reflexivity.
Qed.

(** X11: a message in which [Property 'p' does not exist on type 'T'] occurs
    after a prefix without a capital P, with [p] and [T] free of quotes and not
    empty, and which the first two categories do not take, gets the four fixes
    of the third category with [p] in them, and an explanation naming [p] and
    [T]. *)
Theorem analyzeTypeError_names_the_property (before prop type after : string) :
  let message := before ++ "Property '" ++ prop ++ "' does not exist on type '"
                 ++ type ++ "'" ++ after in
  all_bytes (is_not "P") before = true ->
  prop <> EmptyString -> all_bytes not_quote prop = true ->
  type <> EmptyString -> all_bytes not_quote type = true ->
  has (RStr message) "| undefined" && has (RStr message) "not assignable" = false ->
  has (RStr message) "null" && has (RStr message) "not assignable" = false ->
  analyzeTypeError (RStr message)
  = Ok {| fixes := [ "Add property to interface: " ++ prop ++ ": Type";
                     "Use type assertion: (obj as any)." ++ prop;
                     "Optional chaining: obj?." ++ prop;
                     "Type guard: if ('" ++ prop ++ "' in obj) { ... }" ];
          explanation := "The property '" ++ prop ++ "' is not defined on type '" ++ type
                         ++ "'. Add it to the type definition or use runtime checks." |}.
Proof.
  intros message Hbefore Hp1 Hp2 Ht1 Ht2 Ha Hb.
  assert (Hproperty : has (RStr message) "Property" = true).
  { exact (includes_middle before "Property"
             (" '" ++ prop ++ "' does not exist on type '" ++ type ++ "'" ++ after)). }
  assert (Hexist : has (RStr message) "does not exist" = true).
  { unfold message, has.
    replace (before ++ "Property '" ++ prop ++ "' does not exist on type '" ++ type ++ "'" ++ after)
      with ((before ++ "Property '" ++ prop ++ "' ") ++ "does not exist"
            ++ (" on type '" ++ type ++ "'" ++ after))
      by (now rewrite !append_assoc).
    apply includes_middle. }
  assert (Hmatch : match_property message = Some (prop, type)).
  { unfold match_property, message.
    rewrite (search_skips property_here "P") by (exact property_here_first || exact Hbefore).
    apply search_here. apply property_here_spec. exists after. now repeat split. }
  unfold analyzeTypeError, re_match. rewrite Ha, Hb, Hproperty, Hexist. cbn [andb bind].
  rewrite Hmatch. reflexivity.
Qed.

(** X12: a message in which [Cannot find name 'x'] occurs after a prefix
    without a capital C, with [x] free of quotes and not empty, and which no
    earlier category takes, gets the three fixes of the sixth category with
    [x] in the first two. *)
Theorem analyzeTypeError_names_the_identifier (before id after : string) :
  let message := before ++ "Cannot find name '" ++ id ++ "'" ++ after in
  all_bytes (is_not "C") before = true ->
  id <> EmptyString -> all_bytes not_quote id = true ->
  has (RStr message) "not assignable" = false ->
  has (RStr message) "does not exist" = false ->
  has (RStr message) "any" = false ->
  analyzeTypeError (RStr message)
  = Ok {| fixes := [ "Import the identifier: import { " ++ id ++ " } from '...'";
                     "Define the identifier: const " ++ id ++ " = ...";
                     "Check for typos in the identifier name" ];
          explanation := "The identifier is not defined in the current scope. Import it or define it." |}.
Proof.
  intros message Hbefore Hi1 Hi2 Ha He Hany.
  assert (Hname : has (RStr message) "Cannot find name" = true).
  { exact (includes_middle before "Cannot find name" (" '" ++ id ++ "'" ++ after)). }
  assert (Hmatch : match_name message = Some id).
  { unfold match_name, message.
    rewrite (search_skips name_here "C") by (exact name_here_first || exact Hbefore).
    apply search_here. apply name_here_spec. exists after. now repeat split. }
  unfold analyzeTypeError, re_match.
  rewrite Ha, He, Hany, Hname, !andb_false_r. cbn [andb bind].
  rewrite Hmatch. reflexivity.
Qed.

End Captured.

(** ** The heuristic rules *)

Section Rules.
Context {rt : Runtime}.
Import Regex TSPilotMCP Shapes.

Lemma in_push_new {A : Type} (l : list A) (x : A) : In x (push l x).
Proof. unfold push. apply in_or_app. right. now left. Qed.

Lemma in_push_old {A : Type} (l : list A) (x y : A) : In y l -> In y (push l x).
Proof. unfold push. intros Hy. apply in_or_app. now left. Qed.

Lemma in_maybe_push {A : Type} (c : bool) (l : list A) (x y : A) :
  In y l -> In y (if c then push l x else l).
Proof. destruct c; [apply in_push_old | trivial]. Qed.

Lemma lang_cat_intro (r s : regex) (u v : string) :
  lang r u -> lang s v -> lang (Cat r s) (u ++ v).
Proof. intros Hu Hv. now exists u, v. Qed.

(** A text in which the annotation pattern occurs holds a colon and a space. *)
Lemma annotation_needs_colon (s : string) :
  test (seq [ lit ": "; plus word ]) s = true -> includes s ": " = true.
Proof.
  rewrite test_spec. intros (before & w & after & -> & Hw).
  unfold seq in Hw. cbn [fold_right] in Hw. apply lang_lit_then in Hw as (v & -> & _).
  apply includes_spec. exists before, (v ++ after). now rewrite !append_assoc.
Qed.

Lemma lang_parameters (params : string) :
  all_bytes ascii_not_paren params = true ->
  lang (Star (char_not (lit ")"))) params.
Proof.
  induction params as [|c params IH]; [constructor|].
  cbn [all_bytes]. unfold ascii_not_paren at 1. rewrite !andb_true_iff, negb_true_iff.
  intros [[Hascii Hc] Hparams].
  apply (star_app (lang (char_not (lit ")"))) (String c EmptyString) params);
    [|now apply IH].
  change (lang char8 (String c EmptyString) /\ ~ lang (lit ")") (String c EmptyString)).
  split.
  - left. now exists c.
  - intros Hlit. apply lang_lit in Hlit. injection Hlit as ->. discriminate.
Qed.

Lemma lang_one_space : lang (plus space) " " /\ lang (Star space) " ".
Proof.
  assert (Hspace : lang space " ").
  { right. left. exists " "%char. now split. }
  split.
  - exact (lang_cat_intro space (Star space) " " EmptyString Hspace (star_nil _)).
  - exact (star_app _ " " EmptyString Hspace (star_nil _)).
Qed.

Lemma re_test_string (re : regex) (s : string) : re_test re (RStr s) = Ok (test re s).
Proof. reflexivity. Qed.

Lemma append_empty (s : string) : s ++ EmptyString = s.
Proof. induction s as [|c s IH]; [reflexivity|]. cbn [append]. now rewrite IH. Qed.

Lemma join_cons (sep x : string) (l : list string) :
  join sep (x :: l)
  = x ++ match l with
         | [] => EmptyString
         | _ => sep ++ join sep l
         end.
Proof. destruct l; cbn [join String.concat]; [now rewrite append_empty | reflexivity]. Qed.

(** Every item of a numbered list stands at the start of a line, after its
    number. *)
Lemma numbered_lists (items : list string) (x : string) :
  In x items ->
  forall k, exists n before after,
    nl ++ join nl (mapi_from k (fun s i => decimal (i + 1) ++ ". " ++ s) items)
    = before ++ nl ++ decimal (S n) ++ ". " ++ x ++ after.
Proof.
  induction items as [|item items IH]; [intros []|].
  intros Hx k. cbn [mapi_from]. rewrite join_cons. destruct Hx as [->|Hx].
  - exists k, EmptyString. eexists. rewrite Nat.add_1_r. cbn [append].
    rewrite !append_assoc. reflexivity.
  - destruct (IH Hx (S k)) as (n & before & after & Hitems).
    destruct items as [|item' items]; [destruct Hx|].
    cbn [mapi_from] in *. rewrite Hitems.
    exists n, (nl ++ decimal (k + 1) ++ ". " ++ item ++ before), after.
    now rewrite !append_assoc.
Qed.

(** The first rule of [handleCheckStrict] heads the issues when it fires. *)
Lemma strictIssues_explicit_any (s : string) :
  has (RStr s) ": any" = true ->
  exists rest,
    strictIssues (RStr s)
    = Ok ("❌ Explicit `any` type found - violates strict mode" :: rest).
Proof.
  intros Hany. unfold strictIssues. rewrite Hany, re_test_string. cbn [bind].
  repeat match goal with
         | |- context [if ?c then _ else _] => destruct c
         end; unfold push; simpl; eauto.
Qed.

(** On a string no rule of [handleCheckStrict] raises. *)
Lemma strictIssues_string (s : string) : exists issues, strictIssues (RStr s) = Ok issues.
Proof. unfold strictIssues. rewrite re_test_string. cbn [bind]. eauto. Qed.

(** On a string no rule of [handleRefactorSafe] raises. *)
Lemma refactorSuggestions_string (s : string) :
  exists advisories, refactorSuggestions (RStr s) = Ok advisories.
Proof.
  unfold refactorSuggestions, re_match. rewrite re_test_string. cbn [bind]. eauto.
Qed.

(** The first rule of [handleRefactorSafe] heads the advisories when it fires;
    on a string no later rule raises. *)
Lemma refactorSuggestions_any (s : string) :
  has (RStr s) "any" = true ->
  exists rest,
    refactorSuggestions (RStr s)
    = Ok ("⚠️  Replace `any` types with specific types or `unknown`" :: rest).
Proof.
  intros Hany. unfold refactorSuggestions, re_match. rewrite Hany, re_test_string.
  cbn [bind].
  repeat match goal with
         | |- context [if ?c then _ else _] => destruct c
         end; unfold push; simpl; eauto.
Qed.

(** The answer of [check_strict] and of [refactor_safe] on a string, from the
    list of what the rules found. *)
Lemma handleCheckStrict_issues (args : value) (s : string) (issue : string) (issues : list string) :
  get args "code" = VStr s ->
  strictIssues (RStr s) = Ok (issue :: issues) ->
  exists footer,
    handleCheckStrict args
    = Ok ("## ⚙️  Strict Mode Compliance Check" ++ nl ++ nl
          ++ join nl (mapi (fun issue i => decimal (i + 1) ++ ". " ++ issue) (issue :: issues))
          ++ nl ++ nl ++ "**Recommendation:**" ++ footer).
Proof.
  intros Hcode Hissues.
  assert (Hargs : nullish args = false).
  { apply (get_defined_not_nullish args "code"). rewrite Hcode. discriminate. }
  unfold handleCheckStrict. rewrite destructure_ok by assumption. rewrite Hcode.
  cbn [bind as_receiver]. rewrite Hissues. cbn [bind length Nat.eqb].
  eexists. reflexivity.
Qed.

Lemma handleRefactorSafe_advisories (args : value) (s : string) (advisory : string)
  (advisories : list string) :
  get args "code" = VStr s ->
  refactorSuggestions (RStr s) = Ok (advisory :: advisories) ->
  handleRefactorSafe args
  = Ok ("## 🔄 Type-Safe Refactoring Suggestions" ++ nl ++ nl
        ++ join nl (mapi (fun s i => decimal (i + 1) ++ ". " ++ s) (advisory :: advisories))).
Proof.
  intros Hcode Hadvisories.
  assert (Hargs : nullish args = false).
  { apply (get_defined_not_nullish args "code"). rewrite Hcode. discriminate. }
  unfold handleRefactorSafe. rewrite destructure_ok by assumption. rewrite Hcode.
  cbn [bind as_receiver]. rewrite Hadvisories. reflexivity.
Qed.

Lemma handleCheckStrict_lists (args : value) (s : string) (issues : list string) (x : string) :
  get args "code" = VStr s ->
  strictIssues (RStr s) = Ok issues ->
  In x issues ->
  exists text, handleCheckStrict args = Ok text /\ lists text x /\ text <> strict_compliant.
Proof.
  intros Hcode Hissues Hx. destruct issues as [|issue issues]; [destruct Hx|].
  destruct (handleCheckStrict_issues args s issue issues Hcode Hissues) as (footer & ->).
  eexists. split; [reflexivity|]. split.
  - destruct (numbered_lists (issue :: issues) x Hx 0) as (n & before & after & Hitems).
    exists n, ("## ⚙️  Strict Mode Compliance Check" ++ nl ++ before),
      (after ++ nl ++ nl ++ "**Recommendation:**" ++ footer).
    unfold mapi.
    apply (f_equal (fun t => "## ⚙️  Strict Mode Compliance Check" ++ nl ++ t
                             ++ nl ++ nl ++ "**Recommendation:**" ++ footer)) in Hitems.
    cbv beta in Hitems. rewrite !append_assoc.
    rewrite !append_assoc in Hitems. exact Hitems.
  - unfold strict_compliant. simpl. discriminate.
Qed.

Lemma handleRefactorSafe_lists (args : value) (s : string) (advisories : list string)
  (x : string) :
  get args "code" = VStr s ->
  refactorSuggestions (RStr s) = Ok advisories ->
  In x advisories ->
  exists text, handleRefactorSafe args = Ok text /\ lists text x /\ text <> no_refactoring.
Proof.
  intros Hcode Hadvisories Hx. destruct advisories as [|advisory advisories]; [destruct Hx|].
  rewrite (handleRefactorSafe_advisories args s advisory advisories Hcode Hadvisories).
  eexists. split; [reflexivity|]. split.
  - destruct (numbered_lists (advisory :: advisories) x Hx 0)
      as (n & before & after & Hitems).
    exists n, ("## 🔄 Type-Safe Refactoring Suggestions" ++ nl ++ before), after.
    unfold mapi.
    apply (f_equal (fun t => "## 🔄 Type-Safe Refactoring Suggestions" ++ nl ++ t)) in Hitems.
    cbv beta in Hitems. rewrite ?append_assoc in Hitems. rewrite ?append_assoc. exact Hitems.
  - unfold no_refactoring. simpl. discriminate.
Qed.

(** C9: a snippet in which [": any"] occurs is answered by [check_strict] with
    the heading of the issues and, as its first item, the issue on the
    explicit [any]; by [refactor_safe] with the heading of the advisories
    and, as its first item, the advisory on [any].  Neither answers with its
    sentinel. *)
Theorem explicit_any_is_reported (args : value) (before after : string) :
  get args "code" = VStr (before ++ ": any" ++ after) ->
  (exists rest,
      handleCheckStrict args
      = Ok ("## ⚙️  Strict Mode Compliance Check" ++ nl ++ nl
            ++ "1. ❌ Explicit `any` type found - violates strict mode" ++ nl ++ rest))
  /\ (exists rest,
        handleRefactorSafe args
        = Ok ("## 🔄 Type-Safe Refactoring Suggestions" ++ nl ++ nl
              ++ "1. ⚠️  Replace `any` types with specific types or `unknown`" ++ rest))
  /\ handleCheckStrict args <> Ok strict_compliant
  /\ handleRefactorSafe args <> Ok no_refactoring.
Proof.
  intros Hcode. set (s := before ++ ": any" ++ after) in *.
  assert (Hcolon : has (RStr s) ": any" = true).
  { apply includes_spec. unfold s. eauto. }
  assert (Hany : has (RStr s) "any" = true).
  { apply (includes_suffix _ ": " "any"). exact Hcolon. }
  destruct (strictIssues_explicit_any s Hcolon) as (issues & Hissues).
  destruct (handleCheckStrict_issues args s _ issues Hcode Hissues) as (footer & Hstrict).
  destruct (refactorSuggestions_any s Hany) as (advisories & Hadvisories).
  pose proof (handleRefactorSafe_advisories args s _ advisories Hcode Hadvisories)
    as Hrefactor.
  unfold mapi in Hstrict, Hrefactor. cbn [mapi_from] in Hstrict, Hrefactor.
  rewrite join_cons in Hstrict, Hrefactor.
  split; [|split; [|split]].
  - rewrite Hstrict. destruct (mapi_from 1 _ issues) as [|line lines].
    + eexists. rewrite !append_assoc. reflexivity.
    + eexists. rewrite !append_assoc. reflexivity.
  - rewrite Hrefactor. eexists. rewrite !append_assoc. reflexivity.
  - rewrite Hstrict. unfold strict_compliant. simpl. discriminate.
  - rewrite Hrefactor. unfold no_refactoring. simpl. discriminate.
Qed.

(** X13: a snippet that holds an equals sign and nowhere a colon followed by a
    space is answered by [check_strict] with a text that lists the issue on
    missing type annotations on variables, and is not the compliant one. *)
Theorem assignment_without_annotation_is_reported (args : value) (s : string) :
  get args "code" = VStr s ->
  includes s "=" = true ->
  includes s ": " = false ->
  exists text,
    handleCheckStrict args = Ok text
    /\ lists text "⚠️  Missing type annotations on variables"
    /\ text <> strict_compliant.
Proof.
  intros Hcode Heq Hcolon.
  assert (Htest : test (seq [ lit ": "; plus word ]) s = false).
  { destruct (test (seq [ lit ": "; plus word ]) s) eqn:E; [|reflexivity].
    apply annotation_needs_colon in E. congruence. }
  destruct (strictIssues_string s) as (issues & Hissues).
  apply (handleCheckStrict_lists args s issues _ Hcode Hissues).
  revert Hissues. unfold strictIssues. rewrite re_test_string, Htest. cbn [bind has].
  rewrite Heq. cbn [negb andb]. intros [= <-].
  repeat apply in_maybe_push. apply in_push_new.
Qed.

(** X14: a snippet that declares a function, [function f(...) {] with one
    space on either side, a name of letters, digits and [_] and ASCII
    parameters, and that nowhere holds a colon followed by a space, is
    answered by [refactor_safe] with a text that lists the advisory on return
    type annotations. *)
Theorem unannotated_function_is_advised (args : value) (before name params after : string) :
  get args "code"
  = VStr (before ++ "function " ++ name ++ "(" ++ params ++ ") {" ++ after) ->
  name <> EmptyString -> all_bytes is_word name = true ->
  all_bytes ascii_not_paren params = true ->
  includes (before ++ "function " ++ name ++ "(" ++ params ++ ") {" ++ after) ": " = false ->
  exists text,
    handleRefactorSafe args = Ok text
    /\ lists text "📝 Add return type annotations to functions for better type safety"
    /\ text <> no_refactoring.
Proof.
  set (code := before ++ "function " ++ name ++ "(" ++ params ++ ") {" ++ after).
  intros Hcode Hn1 Hn2 Hparams Hcolon.
  set (re := seq [ lit "function"; plus space; plus word; lit "(";
                   Star (char_not (lit ")")); lit ")"; Star space; lit "{" ]).
  assert (Hword : lang re ("function" ++ " " ++ name ++ "(" ++ params ++ ")" ++ " " ++ "{")).
  { unfold re, seq. cbn [fold_right].
    apply lang_cat_intro; [now apply lang_lit|].
    apply lang_cat_intro; [apply lang_one_space|].
    apply lang_cat_intro; [now apply lang_plus_cls|].
    apply lang_cat_intro; [now apply lang_lit|].
    apply lang_cat_intro; [now apply lang_parameters|].
    apply lang_cat_intro; [now apply lang_lit|].
    apply lang_cat_intro; [apply lang_one_space|].
    apply (lang_cat_intro (lit "{") Eps "{" EmptyString); [now apply lang_lit | reflexivity]. }
  assert (Htest : test re code = true).
  { apply test_spec.
    exists before, ("function" ++ " " ++ name ++ "(" ++ params ++ ")" ++ " " ++ "{"), after.
    split; [|exact Hword]. unfold code. rewrite !append_assoc. reflexivity. }
  assert (Hadvised : exists advisories,
             refactorSuggestions (RStr code) = Ok advisories
             /\ In "📝 Add return type annotations to functions for better type safety"
                  advisories).
  { unfold refactorSuggestions, re_match. fold re. rewrite re_test_string, Htest.
    cbn [has bind]. rewrite Hcolon. cbn [negb andb bind]. eexists. split; [reflexivity|].
    repeat first [apply in_push_new
                 | apply in_maybe_push
                 | match goal with
                   | |- In _ (match ?o with Some _ => _ | None => _ end) => destruct o
                   end
                 | apply in_push_old]. }
  destruct Hadvised as (advisories & Hadvisories & Hin).
  exact (handleRefactorSafe_lists args code advisories _ Hcode Hadvisories Hin).
Qed.

(** X15: a snippet in which [as any] occurs is answered by [refactor_safe]
    with the advisory on [any] as its first item and the advisory on unsafe
    assertions as its second; the answer of [check_strict] lists the unsafe
    assertion too. *)
Theorem unsafe_assertion_is_reported_twice (args : value) (before after : string) :
  get args "code" = VStr (before ++ "as any" ++ after) ->
  (exists rest,
      handleRefactorSafe args
      = Ok ("## 🔄 Type-Safe Refactoring Suggestions" ++ nl ++ nl
            ++ "1. ⚠️  Replace `any` types with specific types or `unknown`" ++ nl
            ++ "2. ⚠️  Remove unsafe type assertions (`as any`) and use proper type guards"
            ++ rest))
  /\ (exists text,
        handleCheckStrict args = Ok text
        /\ lists text "❌ Unsafe type assertion `as any` - defeats type safety"
        /\ text <> strict_compliant).
Proof.
  intros Hcode. set (s := before ++ "as any" ++ after) in *.
  assert (Has : has (RStr s) "as any" = true) by apply includes_middle.
  assert (Hany : has (RStr s) "any" = true)
    by (apply (includes_suffix _ "as " "any"); exact Has).
  split.
  - assert (Hadvisories : exists rest,
               refactorSuggestions (RStr s)
               = Ok ("⚠️  Replace `any` types with specific types or `unknown`"
                     :: "⚠️  Remove unsafe type assertions (`as any`) and use proper type guards"
                     :: rest)).
    { unfold refactorSuggestions, re_match. rewrite Hany, Has, re_test_string. cbn [bind].
      repeat match goal with
             | |- context [if ?c then _ else _] => destruct c
             end; unfold push; simpl; eauto. }
    destruct Hadvisories as (advisories & Hadvisories).
    rewrite (handleRefactorSafe_advisories args s _ _ Hcode Hadvisories).
    unfold mapi. cbn [mapi_from]. rewrite !join_cons.
    eexists. rewrite !append_assoc. reflexivity.
  - destruct (strictIssues_string s) as (issues & Hissues).
    apply (handleCheckStrict_lists args s issues _ Hcode Hissues).
    revert Hissues. unfold strictIssues. rewrite Has, re_test_string. cbn [bind].
    intros [= <-]. repeat apply in_maybe_push.
    destruct (has (RStr s) ": any"); apply in_push_new.
Qed.

(** X16: [refactor_safe] and [suggest_generics] return a text exactly when
    their [code] argument is a string: on anything else, an array too, and
    without arguments, they raise. *)
Theorem text_tools_need_a_string (args : value) :
  ((exists text, handleRefactorSafe args = Ok text) <-> exists s, get args "code" = VStr s)
  /\ ((exists text, handleSuggestGenerics args = Ok text) <-> exists s, get args "code" = VStr s).
Proof.
  assert (Hstring : forall s, get args "code" = VStr s -> nullish args = false).
  { intros s Hs. apply (get_defined_not_nullish args "code"). rewrite Hs. discriminate. }
  assert (Hreceiver : forall v, (forall s, v <> VStr s) ->
                                forall A (k : receiver -> Result A),
                                  (forall items, exists e, k (RArr items) = Throw e) ->
                                  exists e, bind (as_receiver v) k = Throw e).
  { intros v Hv A k Hk. destruct v; simpl; eauto. now destruct (Hv s). }
  assert (Hraise : forall (A : Type) (c : Result A) text,
             c = Ok text -> (exists e, c = Throw e) -> False).
  { intros A c text -> [e He]. discriminate. }
  assert (Hcases : (exists s, get args "code" = VStr s) \/ forall s, get args "code" <> VStr s).
  { destruct (get args "code"); eauto; right; intros s0; discriminate. }
  split; split.
  - intros [text Htext]. destruct Hcases as [Hs|Hno]; [exact Hs|]. exfalso.
    apply (Hraise _ _ _ Htext). unfold handleRefactorSafe.
    destruct (destructure args) as [[]|e]; [|simpl; eauto]. cbn [bind].
    apply (Hreceiver _ Hno). intros items. unfold refactorSuggestions, re_match.
    destruct (re_test _ (RArr items)); simpl; eauto.
  - intros [s Hs]. destruct (refactorSuggestions_string s) as (advisories & Hadvisories).
    unfold handleRefactorSafe.
    rewrite destructure_ok by (now apply (Hstring s)). rewrite Hs. cbn [bind as_receiver].
    rewrite Hadvisories. cbn [bind].
    destruct (length _ =? 0)%nat; eauto.
  - intros [text Htext]. destruct Hcases as [Hs|Hno]; [exact Hs|]. exfalso.
    apply (Hraise _ _ _ Htext). unfold handleSuggestGenerics.
    destruct (destructure args) as [[]|e]; [|simpl; eauto]. cbn [bind].
    apply (Hreceiver _ Hno). intros items. unfold re_match. simpl. eauto.
  - intros [s Hs]. unfold handleSuggestGenerics.
    rewrite destructure_ok by (now apply (Hstring s)). rewrite Hs. cbn [bind as_receiver].
    unfold re_match. cbn [bind].
    destruct (length _ =? 0)%nat; eauto.
Qed.

End Rules.

(** ** More on the dispatch loop *)

Section Loop.
Context {rt : Runtime}.
Variable snippet : string -> string -> string.
Import TSPilotMCP Shapes.

(** X17: whatever the line, the handler writes at most one thing.  It writes
    on the standard error only for a line that does not parse, for a line
    that parses to [null], and for a response the call stack has no room to
    serialize; for any other line it writes nothing when the request has no
    identifier and the line of its response when it has one: what a tool
    handler raises never reaches the standard error. *)
Theorem on_line_outcomes (line : string) :
  (forall error, JSON_parse line = Throw error ->
                 on_line snippet line = [ Stderr "Error processing request:" error ])
  /\ (forall request,
        JSON_parse line = Ok request -> nullish request = true ->
        on_line snippet line
        = [ Stderr "Error processing request:" (TypeError (PropertyOfNullish request "id")) ])
  /\ (forall request,
        JSON_parse line = Ok request -> nullish request = false ->
        exists response,
          handleRequest snippet request = Ok response
          /\ on_line snippet line
             = if is_undefined (get request "id") then [] else written response)
  /\ length (on_line snippet line) <= 1.
Proof.
  assert (Hparsed : forall request,
             JSON_parse line = Ok request -> nullish request = false ->
             exists response,
               handleRequest snippet request = Ok response
               /\ on_line snippet line
                  = if is_undefined (get request "id") then [] else written response).
  { intros request E Hrequest.
    destruct (handleRequest_returns snippet request Hrequest) as (response & Hresponse).
    exists response. split; [exact Hresponse|].
    rewrite (on_line_parsed snippet line request E).
    apply (handled_spec snippet request response Hrequest Hresponse). }
  assert (Hnull : forall request,
             JSON_parse line = Ok request -> nullish request = true ->
             on_line snippet line
             = [ Stderr "Error processing request:"
                   (TypeError (PropertyOfNullish request "id")) ]).
  { intros request E Hrequest. unfold on_line, on_request. rewrite E. cbn [bind].
    destruct request; try discriminate; reflexivity. }
  split; [|split; [exact Hnull|split; [exact Hparsed|]]].
  - intros error E. unfold on_line. now rewrite E.
  - destruct (JSON_parse line) as [request|error] eqn:E.
    + destruct (nullish request) eqn:Hrequest.
      * now rewrite (Hnull request eq_refl Hrequest).
      * destruct (Hparsed request eq_refl Hrequest) as (response & _ & ->).
        destruct (is_undefined (get request "id")); [apply Nat.le_0_l|].
        now rewrite (proj1 (written_once response)).
    + unfold on_line. now rewrite E.
Qed.

(** X18: a [tools/call] for one of the six tools whose parameters hold no
    [arguments] is answered with the error -32603: every handler starts by
    taking its arguments apart, which raises. *)
Theorem call_without_arguments_fails (request : value) (tool : string) :
  nullish request = false ->
  get request "method" = VStr "tools/call" ->
  get (get request "params") "name" = VStr tool ->
  In tool tool_names ->
  nullish (get (get request "params") "arguments") = true ->
  handleRequest snippet request
  = Ok (failure (get request "id") (-32603)
          (TypeError_message (DestructureNullish (get (get request "params") "arguments")))).
Proof.
  intros Hrequest Hmethod Hname Htool Hargs.
  assert (Hparams : nullish (get request "params") = false).
  { apply (get_defined_not_nullish _ "name"). rewrite Hname. discriminate. }
  unfold handleRequest, callTool. rewrite !prop_get by assumption. cbn [bind].
  rewrite Hmethod. cbn [is_string String.eqb Ascii.eqb Bool.eqb].
  rewrite destructure_ok by assumption. cbn [bind]. rewrite Hname.
  unfold handleGenerateTypes, handleFixTypeErrors, handleRefactorSafe,
    handleSuggestGenerics, handleCheckStrict, handleFrameworkPatterns.
  rewrite !destructure_nullish by assumption.
  simpl in Htool.
  destruct Htool as [<-|[<-|[<-|[<-|[<-|[<-|[]]]]]]]; reflexivity.
Qed.

(** X19: [generate_types] called without [data] does not fail when the name
    it is given has a text: the absent value is declared as the alias
    [undefined], under the name the arguments give or [Generated]. *)
Theorem generate_types_without_data (args : value) (name : string) :
  nullish args = false ->
  get args "data" = VUndefined ->
  ToString (or_else (get args "name") (VStr "Generated")) = Ok name ->
  handleGenerateTypes args
  = Ok ("## 🎯 Generated TypeScript Types" ++ nl ++ nl ++ "```typescript" ++ nl
        ++ ("type " ++ name ++ " = undefined;")
        ++ nl ++ "```" ++ nl ++ nl
        ++ "✅ Generated with strict type safety (no `any` types)").
Proof.
  intros Hargs Hdata Hname. unfold handleGenerateTypes.
  rewrite destructure_ok by assumption. cbn [bind]. rewrite Hdata.
  erewrite (generate_returns VUndefined VUndefined); [reflexivity|reflexivity| |apply Nat.le_0_l].
  exact Hname.
Qed.

Lemma getPatterns_unknown (framework : value) :
  ~ In framework (map VStr frameworks) ->
  FrameworkPatterns.getPatterns snippet framework = [].
Proof.
  intros Hno. pose proof (not_in_names _ _ Hno) as Hfalse.
  unfold FrameworkPatterns.getPatterns. now rewrite !Hfalse by (simpl; tauto).
Qed.

Lemma getPatterns_known (framework : value) :
  In framework (map VStr frameworks) ->
  exists name p rest,
    framework = VStr name
    /\ FrameworkPatterns.getPatterns snippet framework = p :: rest
    /\ Forall (fun q => FrameworkPatterns.framework q = name
                        /\ FrameworkPatterns.code q
                           = snippet name (FrameworkPatterns.pattern q)) (p :: rest).
Proof.
  simpl. intros [<-|[<-|[<-|[<-|[<-|[<-|[]]]]]]]; do 3 eexists;
    (split; [reflexivity|]); (split; [reflexivity|]);
    repeat constructor.
Qed.

(** X20: [getPatterns] answers with a non-empty list exactly for the six
    framework names; every pattern it returns is tagged with the framework
    that was asked for. *)
Theorem getPatterns_by_framework (framework : value) :
  (FrameworkPatterns.getPatterns snippet framework <> []
   <-> In framework (map VStr frameworks))
  /\ forall p, In p (FrameworkPatterns.getPatterns snippet framework) ->
               framework = VStr (FrameworkPatterns.framework p).
Proof.
  assert (Hdec : In framework (map VStr frameworks) \/ ~ In framework (map VStr frameworks)).
  { destruct framework; try (right; simpl; intros H0;
      repeat (destruct H0 as [H0|H0]; [discriminate|]); exact H0).
    destruct (in_dec string_dec s frameworks) as [Hs|Hs].
    - left. now apply in_map.
    - right. intros Hin. apply in_map_iff in Hin as (x & [= ->] & Hx). contradiction. }
  destruct Hdec as [Hknown|Hunknown].
  - destruct (getPatterns_known framework Hknown) as (name & p & rest & -> & -> & Hall).
    split; [split; [intros _; exact Hknown | discriminate]|].
    intros q Hq. rewrite Forall_forall in Hall. now destruct (Hall q Hq) as [-> _].
  - rewrite (getPatterns_unknown framework Hunknown).
    split; [split; [intros H0; now destruct H0 | contradiction]|]. intros p [].
Qed.

Lemma fold_append_prefix (sections : list string) (start : string) :
  exists rest, fold_left (fun result section => result ++ section) sections start
               = start ++ rest.
Proof.
  revert start. induction sections as [|section sections IH]; intros start; simpl.
  - exists "". clear. induction start as [|c start IH]; simpl; congruence.
  - destruct (IH (start ++ section)) as [rest ->]. exists (section ++ rest).
    now rewrite append_assoc.
Qed.

(** X21: once it has arguments, [framework_patterns] raises only when the
    framework it is given is none of the six and has no text to put in the
    answer.  For a framework that is none of the six, a missing one too, it
    answers that no pattern was found, naming what it was given; for one of
    the six the answer starts with a title in which the name is capitalized. *)
Theorem framework_patterns_answers (args : value) :
  nullish args = false ->
  (~ In (get args "framework") (map VStr frameworks) ->
   (forall shown,
       ToString (get args "framework") = Ok shown ->
       handleFrameworkPatterns snippet args
       = Ok ("No patterns found for framework: " ++ shown))
   /\ (forall error,
         ToString (get args "framework") = Throw error ->
         handleFrameworkPatterns snippet args = Throw error))
  /\ (forall name, get args "framework" = VStr name -> In name frameworks ->
        exists rest,
          handleFrameworkPatterns snippet args
          = Ok (("## 📚 " ++ capitalize name ++ " TypeScript Patterns" ++ nl ++ nl) ++ rest))
  /\ ((exists text, handleFrameworkPatterns snippet args = Ok text)
      <-> exists shown, ToString (get args "framework") = Ok shown).
Proof.
  intros Hargs. set (framework := get args "framework").
  assert (Hunknown : ~ In framework (map VStr frameworks) ->
                     handleFrameworkPatterns snippet args
                     = (shown <- ToString framework ;;
                        Ok ("No patterns found for framework: " ++ shown))).
  { intros Hno. unfold handleFrameworkPatterns. rewrite destructure_ok by assumption.
    cbn [bind]. fold framework. now rewrite (getPatterns_unknown framework Hno). }
  assert (Hknown : forall name, framework = VStr name -> In name frameworks ->
             exists rest,
               handleFrameworkPatterns snippet args
               = Ok (("## 📚 " ++ capitalize name ++ " TypeScript Patterns" ++ nl ++ nl)
                     ++ rest)).
  { intros name Hname Hin.
    assert (Hmem : In framework (map VStr frameworks)) by (rewrite Hname; now apply in_map).
    destruct (getPatterns_known framework Hmem)
      as (name' & p & rest & Hname' & Hpatterns & _).
    unfold handleFrameworkPatterns. rewrite destructure_ok by assumption.
    cbn [bind]. fold framework. rewrite Hpatterns, Hname. cbn [length Nat.eqb capitalized bind].
    match goal with
    | |- exists r, Ok (fold_left ?f ?l ?start) = _ =>
        destruct (fold_append_prefix l start) as [tail ->]
    end.
    now exists tail. }
  split; [|split; [exact Hknown|]].
  - intros Hno. rewrite (Hunknown Hno). split; intros shown ->; reflexivity.
  - assert (Hdec : (exists name, framework = VStr name /\ In name frameworks)
                   \/ ~ In framework (map VStr frameworks)).
    { destruct framework as [| |b|n|name|items|props] eqn:E;
        try (right; simpl; intros H0;
             repeat (destruct H0 as [H0|H0]; [discriminate|]); exact H0).
      destruct (in_dec string_dec name frameworks) as [Hin|Hout]; [left; eauto|].
      right. intros Hin. apply in_map_iff in Hin as (x & [= ->] & Hx). contradiction. }
    destruct Hdec as [(name & Hname & Hin)|Hno].
    + destruct (Hknown name Hname Hin) as (rest & ->). rewrite Hname.
      split; intros _; eexists; reflexivity.
    + rewrite (Hunknown Hno). destruct (ToString framework) as [shown|error].
      * split; intros _; eexists; reflexivity.
      * split; intros (text & Htext); discriminate.
Qed.

End Loop.

(** ** The first server *)

Section First.
Context {rt : Runtime}.
Import TSPilotMCP Shapes.

(** The first server answers every request that is not [null] with the
    identifier of the request and a result or an error. *)
Lemma first_handleRequest_spec (request : value) :
  nullish request = false ->
  exists response,
    FirstServer.handleRequest request = Ok response
    /\ jsonrpc response = Some "2.0"
    /\ id response = get request "id" /\ has_outcome response.
Proof.
  intros Hrequest.
  unfold FirstServer.handleRequest, FirstServer.initialize, FirstServer.listTools,
    FirstServer.callTool.
  rewrite !prop_get by assumption. cbn [bind].
  destruct (is_string (get request "method") "initialize");
    [simpl; eexists; split; [reflexivity | split; [reflexivity | apply success_outcome]]|].
  destruct (is_string (get request "method") "tools/list");
    [simpl; eexists; split; [reflexivity | split; [reflexivity | apply success_outcome]]|].
  destruct (is_string (get request "method") "tools/call").
  - destruct (nullish (get request "params")) eqn:Hparams.
    + rewrite destructure_nullish by assumption. simpl.
      eexists; split; [reflexivity | split; [reflexivity | apply failure_outcome]].
    + rewrite destructure_ok by assumption. simpl.
      eexists; split; [reflexivity | split; [reflexivity | apply success_outcome]].
  - destruct (ToString (get request "method")) as [shown|error]; simpl;
      eexists; (split; [reflexivity | split; [reflexivity | apply failure_outcome]]).
Qed.

(** X22: in the first server the line handler writes one thing for every
    request with an identifier, whatever its method: the line of a response
    that carries that identifier and a result or an error, or, when the call
    stack has no room to serialize it, a report on the standard error.  The
    line starts with the version and the text [JSON.stringify] gives the
    identifier.  A request without identifier gets no line. *)
Theorem first_server_answers_every_request (request : value) :
  (get request "id" <> VUndefined ->
   exists response,
     FirstServer.handleRequest request = Ok response
     /\ FirstServer.handled request = written response
     /\ id response = get request "id"
     /\ has_outcome response
     /\ exists text rest,
          JSON_text (get request "id") = Some text
          /\ JSON_text (response_value response)
             = Some ("{" ++ JSON_quote "jsonrpc" ++ ":" ++ JSON_quote "2.0" ++ ","
                     ++ JSON_quote "id" ++ ":" ++ text ++ rest))
  /\ (get request "id" = VUndefined -> emitted (FirstServer.handled request) = []).
Proof.
  split.
  - intros Hid. pose proof (get_defined_not_nullish _ _ Hid) as Hrequest.
    destruct (first_handleRequest_spec request Hrequest)
      as (response & Hresponse & Hversion & Hsame & Houtcome).
    exists response. split; [exact Hresponse|]. split; [|split; [exact Hsame|split; [exact Houtcome|]]].
    + unfold FirstServer.handled, FirstServer.on_request.
      rewrite prop_get by assumption. cbn [bind].
      rewrite (is_undefined_false _ Hid), Hresponse. cbn [bind].
      unfold JSON_stringify, written. rewrite JSON_stringify_at_spec.
      now destruct (nesting (response_value response) <=? stack_room Serializing)%nat.
    + destruct (JSON_text_defined _ Hid) as (text & Htext). exists text.
      rewrite <- Hsame in Htext.
      destruct (response_text response text Hversion Htext) as (rest & Hrest).
      exists rest. rewrite <- Hsame. now split.
  - intros Hid. unfold FirstServer.handled, FirstServer.on_request.
    destruct (nullish request) eqn:Hrequest.
    + destruct request; try discriminate; reflexivity.
    + rewrite prop_get by assumption. now rewrite Hid.
Qed.

(** X23: the first server's [tools/call] never looks at the arguments and
    knows no unknown tool: with parameters it answers [generate_types] with
    one fixed text and any other name, a missing one too, with the other;
    without parameters it answers with the error -32603. *)
Theorem first_server_callTool (request : value) :
  nullish request = false ->
  get request "method" = VStr "tools/call" ->
  (nullish (get request "params") = false ->
   FirstServer.handleRequest request
   = Ok (success (get request "id")
           (VObj [ ("content", VArr [ VObj [ ("type", VStr "text");
                     ("text", VStr (if is_string (get (get request "params") "name")
                                                 "generate_types"
                                    then "✓ Types generated successfully"
                                    else "✓ Fix suggestions provided")) ] ]) ])))
  /\ (nullish (get request "params") = true ->
      FirstServer.handleRequest request
      = Ok (failure (get request "id") (-32603)
              (TypeError_message (DestructureNullish (get request "params"))))).
Proof.
  intros Hrequest Hmethod.
  unfold FirstServer.handleRequest, FirstServer.callTool.
  rewrite !prop_get by assumption. cbn [bind]. rewrite Hmethod.
  cbn [is_string String.eqb Ascii.eqb Bool.eqb].
  split.
  - intros Hparams. now rewrite destructure_ok by assumption.
  - intros Hparams. now rewrite destructure_nullish by assumption.
Qed.

End First.

(** ** Closed examples

    The statements above, at concrete inputs on the runtime [Example.runtime]. *)

#[local] Existing Instance Example.runtime.

Import TypeGenerator TSPilotMCP Shapes.

(** Counterexample to C2 as the specification states it: under [strict] the
    empty root array is declared [unknown[]], not [never[]]. *)
Lemma strict_empty_array_root_is_unknown :
  generate (VArr []) (Example.with_strict true) = Ok "type Generated = unknown[];"
  /\ generate (VArr []) (Example.with_strict true) <> Ok "type Generated = never[];".
Proof. split; [reflexivity | discriminate]. Qed.

(** Counterexample to C5 as the specification states it: given to [generate]
    as the root value, [[1, "a"]] is declared an array of [number]; the string
    is not looked at. *)
Lemma number_string_root_is_number_array :
  generate (VArr [VNum 1; VStr "a"]) Example.no_options = Ok "type Generated = number[];"
  /\ generate (VArr [VNum 1; VStr "a"]) Example.no_options
     <> Ok "type Generated = (number | string)[];".
Proof. split; [reflexivity | discriminate]. Qed.

(** Counterexample to C3 as the specification states it.  The initialization
    notice sent with an identifier is answered with one line, the empty
    object, which carries neither the identifier nor an outcome.  An
    identifier that is not a finite number ([1e999]) is written [null].  An
    identifier nested deeper than the call stack has room for gets no line:
    the overflow is reported on the standard error. *)
Lemma initialized_with_id_is_answered_without_id :
  (handled Example.snippet (Example.request (VNum 1) "notifications/initialized")
   = [ Stdout "{}" ]
   /\ handleRequest Example.snippet (Example.request (VNum 1) "notifications/initialized")
      = Ok empty_response
   /\ id empty_response <> VNum 1
   /\ ~ has_outcome empty_response)
  /\ handled Example.snippet (Example.request (VNum PrimFloat.infinity) "ping")
     = [ Stdout ("{" ++ dq ++ "jsonrpc" ++ dq ++ ":" ++ dq ++ "2.0" ++ dq ++ ","
                 ++ dq ++ "id" ++ dq ++ ":null,"
                 ++ dq ++ "error" ++ dq ++ ":{" ++ dq ++ "code" ++ dq ++ ":-32601,"
                 ++ dq ++ "message" ++ dq ++ ":" ++ dq ++ "Method not found: ping" ++ dq
                 ++ "}}") ]
  /\ handled Example.snippet (Example.request (Example.nested_arrays 64 (VNum 1)) "ping")
     = [ Stderr "Error processing request:" (JsError "Maximum call stack size exceeded") ].
Proof.
  split; [|split; [vm_compute; reflexivity | vm_compute; reflexivity]].
  split; [reflexivity|]. split; [reflexivity|]. split; [discriminate|].
  intros [(content & Hresult & _)|(code & message & _ & Herror)]; discriminate.
Qed.

(** Counterexample to C4 as the specification states it: a tool name outside
    the six gets the code of internal failures, not the code of an unknown
    method. *)
Lemma unknown_tool_is_an_internal_error :
  ~ In "lint" tool_names
  /\ handleRequest Example.snippet (Example.call (VNum 1) "lint" (VObj []))
     = Ok (failure (VNum 1) (-32603) "Unknown tool: lint")
  /\ failure (VNum 1) (-32603) "Unknown tool: lint"
     <> failure (VNum 1) (-32601) "Unknown tool: lint".
Proof.
  split; [|split; [reflexivity | discriminate]].
  simpl. intros Hin. repeat (destruct Hin as [Hin|Hin]; [discriminate|]). exact Hin.
Qed.

(** Counterexample to C6 as the specification states it: [generate] raises
    the invalid-data error on data that is not a string, when the name it is
    given is an object that holds a property [toString], and when the objects
    of the data are nested deeper than the call stack has room for. *)
Lemma generate_raises_on_values :
  generate (VNum 1) (Example.named Example.unprintable)
  = Throw (JsError "Invalid JSON data: Cannot convert object to primitive value")
  /\ generate (Example.nested_objects 66 VNull) Example.no_options
     = Throw (JsError "Invalid JSON data: Maximum call stack size exceeded")
  /\ (forall text, VNum 1 <> VStr text)
  /\ (forall text, Example.nested_objects 66 VNull <> VStr text).
Proof.
  split; [reflexivity|]. split; [vm_compute; reflexivity|].
  split; intros text; discriminate.
Qed.

(** A call with a string identifier whose handler raises: one line, that of an
    error with that identifier. *)
Lemma request_with_id_gets_one_response_witness :
  exists response,
    handleRequest Example.snippet
      (Example.call (VStr "a-7") "check_strict" (VObj [("code", VNull)])) = Ok response
    /\ handled Example.snippet
         (Example.call (VStr "a-7") "check_strict" (VObj [("code", VNull)]))
       = written response
    /\ (forall line,
          JSON_parse line
          = Ok (Example.call (VStr "a-7") "check_strict" (VObj [("code", VNull)])) ->
          on_line Example.snippet line = written response)
    /\ length (written response) = 1%nat
    /\ (nesting (response_value response) <= 64
        <-> exists line,
              handled Example.snippet
                (Example.call (VStr "a-7") "check_strict" (VObj [("code", VNull)]))
              = [ Stdout line ])
    /\ (VStr "tools/call" = VStr "notifications/initialized" -> response = empty_response)
    /\ (VStr "tools/call" <> VStr "notifications/initialized" ->
        id response = VStr "a-7"
        /\ has_outcome response
        /\ exists text rest,
             Some (JSON_quote "a-7") = Some text
             /\ JSON_text (response_value response)
                = Some ("{" ++ JSON_quote "jsonrpc" ++ ":" ++ JSON_quote "2.0" ++ ","
                        ++ JSON_quote "id" ++ ":" ++ text ++ rest)).
Proof.
  refine (request_with_id_gets_one_response Example.snippet
            (Example.call (VStr "a-7") "check_strict" (VObj [("code", VNull)])) _).
  simpl. discriminate.
Defined.

(** A notification whose handler raises: nothing is emitted. *)
Lemma notification_emits_no_response_witness :
  handleRefactorSafe (VObj [("code", VNum 5)])
  = Throw (JsError "includes is not a function")
  /\ emitted (handled Example.snippet
                (Example.notify "refactor_safe" (VObj [("code", VNum 5)]))) = [].
Proof.
  split; [reflexivity|].
  apply (notification_emits_no_response Example.snippet
           (Example.notify "refactor_safe" (VObj [("code", VNum 5)])) eq_refl).
Defined.

(** An unknown method, a method that has no text, and an unknown tool. *)
Lemma unknown_method_and_unknown_tool_witness :
  handleRequest Example.snippet (Example.request (VNum 2) "resources/list")
  = Ok (failure (VNum 2) (-32601) "Method not found: resources/list")
  /\ handleRequest Example.snippet
       (VObj [ ("id", VNum 4); ("method", Example.unprintable) ])
     = Ok (failure (VNum 4) (-32603) "Cannot convert object to primitive value")
  /\ handleRequest Example.snippet (Example.call (VNum 3) "lint" (VObj []))
     = Ok (failure (VNum 3) (-32603) "Unknown tool: lint").
Proof.
  assert (Hmethod : forall v, (forall s, v <> VStr s) -> ~ In v (map VStr method_names)).
  { intros v Hv Hin. apply in_map_iff in Hin as (s & Hs & _). now apply (Hv s). }
  split; [|split].
  - refine (proj1 (proj1 (unknown_method_and_unknown_tool Example.snippet
                            (Example.request (VNum 2) "resources/list") eq_refl) _)
              "resources/list" eq_refl).
    simpl. intros Hin. repeat (destruct Hin as [Hin|Hin]; [discriminate|]). exact Hin.
  - refine (proj2 (proj1 (unknown_method_and_unknown_tool Example.snippet
                            (VObj [ ("id", VNum 4); ("method", Example.unprintable) ])
                            eq_refl) _)
              (JsError "Cannot convert object to primitive value") eq_refl).
    apply Hmethod. intros s. discriminate.
  - refine (proj1 (proj1 (proj2 (unknown_method_and_unknown_tool Example.snippet
                                   (Example.call (VNum 3) "lint" (VObj [])) eq_refl))
                     eq_refl eq_refl _)
              "lint" eq_refl).
    simpl. intros Hin. repeat (destruct Hin as [Hin|Hin]; [discriminate|]). exact Hin.
Defined.

(** The snippet [let x: any = 1]. *)
Lemma explicit_any_is_reported_witness :
  (exists rest,
      handleCheckStrict (VObj [("code", VStr "let x: any = 1")])
      = Ok ("## ⚙️  Strict Mode Compliance Check" ++ nl ++ nl
            ++ "1. ❌ Explicit `any` type found - violates strict mode" ++ nl ++ rest))
  /\ (exists rest,
        handleRefactorSafe (VObj [("code", VStr "let x: any = 1")])
        = Ok ("## 🔄 Type-Safe Refactoring Suggestions" ++ nl ++ nl
              ++ "1. ⚠️  Replace `any` types with specific types or `unknown`" ++ rest))
  /\ handleCheckStrict (VObj [("code", VStr "let x: any = 1")]) <> Ok strict_compliant
  /\ handleRefactorSafe (VObj [("code", VStr "let x: any = 1")]) <> Ok no_refactoring.
Proof.
  exact (explicit_any_is_reported (VObj [("code", VStr "let x: any = 1")]) "let x" " = 1"
           eq_refl).
Defined.

(** An object with an empty [tags] array, under [strict] and without. *)
Lemma generate_empty_array_field_witness :
  (exists fields,
      generate (VObj [("id", VNum 1); ("tags", VArr [])]) (Example.with_strict true)
      = Ok ("interface Generated {" ++ nl ++ join nl fields ++ nl ++ "}")
      /\ length fields = 2%nat
      /\ nth_error fields 1 = Some "  tags: never[];"
      /\ generate (VArr []) (Example.with_strict true) = Ok "type Generated = unknown[];")
  /\ (exists fields,
         generate (VObj [("id", VNum 1); ("tags", VArr [])]) (Example.with_strict false)
         = Ok ("interface Generated {" ++ nl ++ join nl fields ++ nl ++ "}")
         /\ length fields = 2%nat
         /\ nth_error fields 1 = Some "  tags: unknown[];"
         /\ generate (VArr []) (Example.with_strict false) = Ok "type Generated = unknown[];").
Proof.
  split.
  - exact (generate_empty_array_field [("id", VNum 1); ("tags", VArr [])] 1 "tags"
             "Generated" (Example.with_strict true) eq_refl eq_refl (Nat.le_0_l 64)).
  - exact (generate_empty_array_field [("id", VNum 1); ("tags", VArr [])] 1 "tags"
             "Generated" (Example.with_strict false) eq_refl eq_refl (Nat.le_0_l 64)).
Defined.

(** An array of two numbers. *)
Lemma inferType_homogeneous_array_witness :
  inferType (VArr [VNum 1; VNum 2]) true Example.no_options = Ok "number[]".
Proof.
  apply (inferType_homogeneous_array [VNum 1; VNum 2] "number" true Example.no_options).
  - discriminate.
  - intros v [<-|[<-|[]]]; reflexivity.
Defined.

(** Two arrays of a number and a string. *)
Lemma inferType_array_by_typeof_witness :
  inferType (VArr [VNum 1; VStr "a"]) true Example.no_options
  = inferType (VArr [VNum 2; VStr "b"]) true Example.no_options.
Proof.
  apply (inferType_array_by_typeof [VNum 1; VStr "a"] [VNum 2; VStr "b"] true
           Example.no_options).
  reflexivity.
Defined.

(** An object without [null] and without an empty array. *)
Lemma generateInterface_strict_irrelevant_witness :
  generateInterface (VStr "User") (VObj [("id", VNum 1); ("tags", VArr [VStr "a"])]) true
    Example.no_options
  = generateInterface (VStr "User") (VObj [("id", VNum 1); ("tags", VArr [VStr "a"])]) false
      Example.no_options.
Proof.
  apply (generateInterface_strict_irrelevant (VStr "User")
           (VObj [("id", VNum 1); ("tags", VArr [VStr "a"])]) Example.no_options).
  reflexivity.
Defined.

(** A message of the third category that names no property. *)
Lemma analyzeTypeError_no_fix_iff_witness :
  has (RStr Example.unquoted_property) "Property"
  && has (RStr Example.unquoted_property) "does not exist" = true
  /\ match_property Example.unquoted_property = None.
Proof.
  destruct (proj1 (analyzeTypeError_no_fix_iff Example.unquoted_property
                     {| fixes := []; explanation := EmptyString |} eq_refl) eq_refl)
    as (_ & _ & [Hthird|(Hnot & _)]).
  - exact Hthird.
  - discriminate Hnot.
Defined.

(** The message of the compiler for a missing property. *)
Lemma analyzeTypeError_names_the_property_witness :
  analyzeTypeError (RStr "error TS2339: Property 'foo' does not exist on type 'Bar'.")
  = Ok {| fixes := [ "Add property to interface: foo: Type";
                     "Use type assertion: (obj as any).foo";
                     "Optional chaining: obj?.foo";
                     "Type guard: if ('foo' in obj) { ... }" ];
          explanation := "The property 'foo' is not defined on type 'Bar'. Add it to the type definition or use runtime checks." |}.
Proof.
  apply (analyzeTypeError_names_the_property "error TS2339: " "foo" "Bar" ".");
    first [reflexivity | discriminate].
Defined.

(** The message of the compiler for an unknown identifier. *)
Lemma analyzeTypeError_names_the_identifier_witness :
  analyzeTypeError (RStr "error TS2304: Cannot find name 'foo'.")
  = Ok {| fixes := [ "Import the identifier: import { foo } from '...'";
                     "Define the identifier: const foo = ...";
                     "Check for typos in the identifier name" ];
          explanation := "The identifier is not defined in the current scope. Import it or define it." |}.
Proof.
  apply (analyzeTypeError_names_the_identifier "error TS2304: " "foo" ".");
    first [reflexivity | discriminate].
Defined.

(** The snippet [let x = 1]. *)
Lemma assignment_without_annotation_is_reported_witness :
  exists text,
    handleCheckStrict (VObj [("code", VStr "let x = 1")]) = Ok text
    /\ lists text "⚠️  Missing type annotations on variables"
    /\ text <> strict_compliant.
Proof.
  exact (assignment_without_annotation_is_reported (VObj [("code", VStr "let x = 1")])
           "let x = 1" eq_refl eq_refl eq_refl).
Defined.

(** A function of two parameters without annotations. *)
Lemma unannotated_function_is_advised_witness :
  exists text,
    handleRefactorSafe (VObj [("code", VStr "function f(a, b) { return a }")]) = Ok text
    /\ lists text "📝 Add return type annotations to functions for better type safety"
    /\ text <> no_refactoring.
Proof.
  refine (unannotated_function_is_advised
            (VObj [("code", VStr "function f(a, b) { return a }")])
            "" "f" "a, b" " return a }" eq_refl _ eq_refl eq_refl eq_refl).
  discriminate.
Defined.

(** The snippet [const n = x as any]. *)
Lemma unsafe_assertion_is_reported_twice_witness :
  (exists rest,
      handleRefactorSafe (VObj [("code", VStr "const n = x as any")])
      = Ok ("## 🔄 Type-Safe Refactoring Suggestions" ++ nl ++ nl
            ++ "1. ⚠️  Replace `any` types with specific types or `unknown`" ++ nl
            ++ "2. ⚠️  Remove unsafe type assertions (`as any`) and use proper type guards"
            ++ rest))
  /\ (exists text,
        handleCheckStrict (VObj [("code", VStr "const n = x as any")]) = Ok text
        /\ lists text "❌ Unsafe type assertion `as any` - defeats type safety"
        /\ text <> strict_compliant).
Proof.
  exact (unsafe_assertion_is_reported_twice (VObj [("code", VStr "const n = x as any")])
           "const n = x " "" eq_refl).
Defined.

(** [check_strict] called with [null] for arguments. *)
Lemma call_without_arguments_fails_witness :
  handleRequest Example.snippet (Example.call (VNum 1) "check_strict" VNull)
  = Ok (failure (VNum 1) (-32603) "Cannot destructure property of undefined or null").
Proof.
  assert (Hlisted : In "check_strict" tool_names) by (simpl; tauto).
  exact (call_without_arguments_fails Example.snippet
           (Example.call (VNum 1) "check_strict" VNull) "check_strict"
           eq_refl eq_refl eq_refl Hlisted eq_refl).
Defined.

(** [generate_types] called with a name alone. *)
Lemma generate_types_without_data_witness :
  handleGenerateTypes (VObj [("name", VStr "User")])
  = Ok ("## 🎯 Generated TypeScript Types" ++ nl ++ nl ++ "```typescript" ++ nl
        ++ "type User = undefined;"
        ++ nl ++ "```" ++ nl ++ nl
        ++ "✅ Generated with strict type safety (no `any` types)").
Proof.
  exact (generate_types_without_data (VObj [("name", VStr "User")]) "User"
           eq_refl eq_refl eq_refl).
Defined.

(** A framework outside the six, no framework at all, and a framework that
    has no text. *)
Lemma framework_patterns_answers_witness :
  handleFrameworkPatterns Example.snippet (VObj [("framework", VStr "svelte")])
  = Ok "No patterns found for framework: svelte"
  /\ handleFrameworkPatterns Example.snippet (VObj [])
     = Ok "No patterns found for framework: undefined"
  /\ handleFrameworkPatterns Example.snippet (VObj [("framework", Example.unprintable)])
     = Throw (JsError "Cannot convert object to primitive value").
Proof.
  assert (Hunknown : forall v, (forall s, In s frameworks -> v <> VStr s) ->
                               ~ In v (map VStr frameworks)).
  { intros v Hv Hin. apply in_map_iff in Hin as (s & Hs & Hin). now apply (Hv s). }
  split; [|split].
  - refine (proj1 (proj1 (framework_patterns_answers Example.snippet
                            (VObj [("framework", VStr "svelte")]) eq_refl) _)
              "svelte" eq_refl).
    apply Hunknown. simpl. intros s Hs.
    repeat (destruct Hs as [<-|Hs]; [discriminate|]). destruct Hs.
  - refine (proj1 (proj1 (framework_patterns_answers Example.snippet (VObj []) eq_refl) _)
              "undefined" eq_refl).
    apply Hunknown. intros s _. discriminate.
  - refine (proj2 (proj1 (framework_patterns_answers Example.snippet
                            (VObj [("framework", Example.unprintable)]) eq_refl) _)
              (JsError "Cannot convert object to primitive value") eq_refl).
    apply Hunknown. intros s _. discriminate.
Defined.

(** The first server called with a tool it does not list. *)
Lemma first_server_callTool_witness :
  FirstServer.handleRequest (Example.call (VNum 1) "lint" (VObj []))
  = Ok (success (VNum 1)
          (VObj [ ("content", VArr [ VObj [ ("type", VStr "text");
                    ("text", VStr "✓ Fix suggestions provided") ] ]) ])).
Proof.
  apply (proj1 (first_server_callTool (Example.call (VNum 1) "lint" (VObj []))
                  eq_refl eq_refl)).
  reflexivity.
Defined.

(** On a runtime that reads them: a line that holds a request is answered on
    the standard output, the line [null] is reported on the standard error. *)
Lemma on_line_outcomes_witness :
  (exists line,
      on_line (rt := Example.reader) Example.snippet Example.initialize_line
      = [ Stdout line ])
  /\ on_line (rt := Example.reader) Example.snippet "null"
     = [ Stderr "Error processing request:"
           (JsError "Cannot read properties of undefined or null (reading 'id')") ].
Proof.
  split.
  - destruct (proj1 (proj2 (proj2 (on_line_outcomes (rt := Example.reader) Example.snippet
                                     Example.initialize_line)))
                (Example.request (VNum 1) "initialize") eq_refl eq_refl)
      as (response & Hresponse & Hline).
    rewrite Hline. injection Hresponse as <-. eexists. reflexivity.
  - apply (proj1 (proj2 (on_line_outcomes (rt := Example.reader) Example.snippet "null"))
             VNull eq_refl eq_refl).
Defined.

(** The declaration of an object whose key is [any] and whose array holds
    [null] and an object: the key is quoted, the type is [unknown[]]. *)
Lemma inferred_types_are_concrete_witness :
  exists parsed name,
    reads (VObj [("any", VArr [VNull; VObj []])]) parsed
    /\ Declaration.declared_name Example.no_options = Ok name
    /\ "interface Generated {" ++ nl ++ "  " ++ dq ++ "any" ++ dq ++ ": unknown[];" ++ nl ++ "}"
       = Declaration.render_declaration (Declaration.declare name parsed true false)
    /\ (forall a,
          In a (Declaration.declared_type_names (Declaration.declare name parsed true false)) ->
          In a Declaration.concrete_types)
    /\ ~ In "any" (Declaration.declared_type_names
                     (Declaration.declare name parsed true false)).
Proof.
  exact (inferred_types_are_concrete (VObj [("any", VArr [VNull; VObj []])])
           Example.no_options _ eq_refl).
Defined.
